(** * Image-Pipeline-Review-System: SKU generation, image scoring, review queue

    A shallow embedding of the three service classes of the repository
    ([backend/services/sku_generator.py], [image_validator.py],
    [review_queue.py]) together with the in-memory server of [run_server.py]
    (users, sessions, uploads and the review endpoints) and the SKU endpoint
    of [backend/main.py], and the properties of the specification and of the
    code checked against them.

    Conventions of the embedding.
    - A Python [str] is a list of Unicode code points ([N]); [len] is the length
      of that list.
    - A Python [int] is a [Z].
    - A Python [float] that holds a score, a weight or a threshold is the
      rational number it denotes ([Q]); decimal literals denote themselves.
      Comparisons of floats are comparisons of the numbers they denote, so the
      branch structure of the code is kept exactly.  Arithmetic on floats is
      the exact operation followed by a rounding function of which only
      monotonicity is assumed.  NaN and the infinities are outside the model.
    - A [datetime] is a count of microseconds ([Z]) from 1970-01-01T00:00:00;
      where the code adds a duration chosen by the caller to a date, the
      ranges of [timedelta] and [datetime] are checked as Python checks them.
    - Calls into a database, the file system or an image library are fields of
      an environment record, with the exceptions they may raise made explicit.
    - Logging is not part of a result unless a function has no other effect.
    - The calls of the server are served one after the other: a handler runs
      from its beginning to its end before the next one starts. *)

From Stdlib Require Import ZArith NArith QArith Lqa List String Ascii Bool Lia.
From stdpp Require Import gmap strings.
Import ListNotations.

Local Open Scope Z_scope.

(** ** Python strings *)

Module PyStr.

Definition codepoint := N.
Definition str := list codepoint.

(** An ASCII literal of the source as a Python string. *)
Definition lit (s : string) : str :=
  List.map N_of_ascii (list_ascii_of_string s).

(** [len(s)] *)
Definition len (s : str) : Z := Z.of_nat (length s).

(** [s[:n]]: a negative bound counts from the end of the string. *)
Definition slice_to (s : str) (n : Z) : str :=
  if 0 <=? n then firstn (Z.to_nat n) s
  else firstn (length s - Z.to_nat (- n)) s.

(** [not s] *)
Definition falsy (s : str) : bool :=
  match s with [] => true | _ :: _ => false end.

(** The Unicode side of [str.upper()]: CPython maps every code point through
    the full upper-case mapping of the Unicode database (one to three code
    points each) and concatenates the results.  The table is not part of the
    repository; what the code relies on is that the characters the slug keeps
    are their own upper case. *)
Definition is_AZ09 (c : codepoint) : bool :=
  ((65 <=? c) && (c <=? 90) || (48 <=? c) && (c <=? 57))%N.

Class CaseMapping := {
  upper_full : codepoint -> list codepoint;
  upper_full_AZ09 : forall c, is_AZ09 c = true -> upper_full c = [c]
}.

(** [s.upper()] *)
Definition upper `{CaseMapping} (s : str) : str := flat_map upper_full s.

(** The mapping restricted to ASCII, where only [a]..[z] change; it agrees
    with CPython on every code point below 128. *)
Definition ascii_upper_full (c : codepoint) : list codepoint :=
  if ((97 <=? c) && (c <=? 122))%N then [(c - 32)%N] else [c].

#[export] Instance ascii_case : CaseMapping.
Proof.
  refine {| upper_full := ascii_upper_full |}.
  unfold is_AZ09, ascii_upper_full. intros c Hc.
  destruct ((97 <=? c) && (c <=? 122))%N eqn:E; [|reflexivity].
  apply andb_prop in E as [E1 E2].
  apply N.leb_le in E1, E2.
  apply orb_prop in Hc as [Hc|Hc]; apply andb_prop in Hc as [H1 H2];
    apply N.leb_le in H1, H2; lia.
Defined.

(** [str(n)] for an [int], as used by an f-string (below the interpreter's
    limit on the number of digits of a conversion). *)
Fixpoint digits_fuel (fuel : nat) (n : N) (acc : str) : str :=
  match fuel with
  | O => acc
  | S fuel' =>
      let acc' := (48 + n mod 10)%N :: acc in
      if (n <? 10)%N then acc' else digits_fuel fuel' (n / 10)%N acc'
  end.

Definition str_of_N (n : N) : str := digits_fuel (S (N.to_nat (N.log2 n))) n [].

Definition str_of_int (z : Z) : str :=
  if z <? 0 then 45%N :: str_of_N (Z.to_N (- z)) else str_of_N (Z.to_N z).

(** [s.encode('utf8')]; [None] stands for [UnicodeEncodeError], raised on a
    lone surrogate. *)
Definition utf8_char (c : codepoint) : option (list N) :=
  (if c <? 128 then Some [c]
   else if c <? 2048 then Some [192 + c / 64; 128 + c mod 64]
   else if (55296 <=? c) && (c <=? 57343) then None
   else if c <? 65536 then
     Some [224 + c / 4096; 128 + (c / 64) mod 64; 128 + c mod 64]
   else
     Some [240 + c / 262144; 128 + (c / 4096) mod 64;
           128 + (c / 64) mod 64; 128 + c mod 64])%N.

Fixpoint encode_utf8 (s : str) : option (list N) :=
  match s with
  | [] => Some []
  | c :: s' =>
      match utf8_char c, encode_utf8 s' with
      | Some bs, Some rest => Some (bs ++ rest)
      | _, _ => None
      end
  end.

End PyStr.

(** ** [hashlib.sha1] (FIPS 180-4), on bytes held as [N] *)

Module Hashlib.

Local Open Scope N_scope.

Definition w32 (x : N) : N := x mod 4294967296.
Definition add32 (x y : N) : N := w32 (x + y).
Definition rotl (n x : N) : N :=
  w32 (N.lor (N.shiftl x n) (N.shiftr x (32 - n))).
Definition not32 (x : N) : N := N.lxor x 4294967295.

(** Padding: a [0x80] byte, zeros up to 56 modulo 64, the bit length on
    eight bytes. *)
Definition be_bytes (count : nat) (x : N) : list N :=
  List.map (fun i => (x / 256 ^ N.of_nat i) mod 256) (rev (seq 0 count)).

Definition pad (msg : list N) : list N :=
  let l := N.of_nat (length msg) in
  let zeros := N.to_nat ((119 - l mod 64) mod 64) in
  msg ++ [128] ++ repeat 0 zeros ++ be_bytes 8 (8 * l).

Definition be_word (bs : list N) : N :=
  fold_left (fun acc b => acc * 256 + b) bs 0.

Fixpoint chunks (fuel : nat) (size : nat) (bs : list N) : list (list N) :=
  match fuel with
  | O => []
  | S fuel' =>
      match bs with
      | [] => []
      | _ => firstn size bs :: chunks fuel' size (skipn size bs)
      end
  end.

Definition words_of (bs : list N) : list N :=
  List.map be_word (chunks (length bs) 4 bs).

(** The message schedule, most recent word first. *)
Fixpoint extend (count : nat) (ws : list N) : list N :=
  match count with
  | O => ws
  | S count' =>
      let x := N.lxor (N.lxor (nth 2 ws 0) (nth 7 ws 0))
                      (N.lxor (nth 13 ws 0) (nth 15 ws 0)) in
      extend count' (rotl 1 x :: ws)
  end.

Definition schedule (block : list N) : list N :=
  rev (extend 64 (rev (words_of block))).

Record state := { ha : N; hb : N; hc : N; hd : N; he : N }.

Definition round (t : nat) (s : state) (w : N) : state :=
  let '(f, k) :=
    if (t <? 20)%nat then
      (N.lor (N.land (hb s) (hc s)) (N.land (not32 (hb s)) (hd s)), 1518500249)
    else if (t <? 40)%nat then
      (N.lxor (N.lxor (hb s) (hc s)) (hd s), 1859775393)
    else if (t <? 60)%nat then
      (N.lor (N.lor (N.land (hb s) (hc s)) (N.land (hb s) (hd s)))
             (N.land (hc s) (hd s)), 2400959708)
    else (N.lxor (N.lxor (hb s) (hc s)) (hd s), 3395469782) in
  let temp := add32 (add32 (add32 (add32 (rotl 5 (ha s)) f) (he s)) k) w in
  {| ha := temp; hb := ha s; hc := rotl 30 (hb s); hd := hc s; he := hd s |}.

Fixpoint rounds (t : nat) (ws : list N) (s : state) : state :=
  match ws with
  | [] => s
  | w :: ws' => rounds (S t) ws' (round t s w)
  end.

Definition compress (h : state) (block : list N) : state :=
  let s := rounds 0 (schedule block) h in
  {| ha := add32 (ha h) (ha s); hb := add32 (hb h) (hb s);
     hc := add32 (hc h) (hc s); hd := add32 (hd h) (hd s);
     he := add32 (he h) (he s) |}.

Definition init : state :=
  {| ha := 1732584193; hb := 4023233417; hc := 2562383102;
     hd := 271733878; he := 3285377520 |}.

(** [hashlib.sha1(msg).digest()] *)
Definition sha1 (msg : list N) : list N :=
  let padded := pad msg in
  let s := fold_left compress (chunks (length padded) 64 padded) init in
  flat_map (be_bytes 4) [ha s; hb s; hc s; hd s; he s].

Definition hex_digit (d : N) : N := if d <? 10 then 48 + d else 87 + d.

(** [hashlib.sha1(msg).hexdigest()]: forty lower-case hexadecimal digits. *)
Definition sha1_hexdigest (msg : list N) : PyStr.str :=
  flat_map (fun b => [hex_digit (b / 16); hex_digit (b mod 16)]) (sha1 msg).

(** [int(s, 16)] on a string of hexadecimal digits. *)
Definition hex_value (c : N) : N :=
  if (48 <=? c) && (c <=? 57) then c - 48
  else if (97 <=? c) && (c <=? 102) then c - 87
  else c - 55.

Definition int16 (s : PyStr.str) : Z :=
  Z.of_N (fold_left (fun acc c => acc * 16 + hex_value c) s 0).

End Hashlib.

(** ** [hashlib.sha256] (FIPS 180-4) *)

Module Sha256.
Import Hashlib.

Local Open Scope N_scope.

Definition rotr (n x : N) : N :=
  w32 (N.lor (N.shiftr x n) (N.shiftl x (32 - n))).

Definition xor3 (x y z : N) : N := N.lxor (N.lxor x y) z.

Definition Ch (x y z : N) : N := N.lxor (N.land x y) (N.land (not32 x) z).
Definition Maj (x y z : N) : N :=
  xor3 (N.land x y) (N.land x z) (N.land y z).
Definition Sigma0 (x : N) : N := xor3 (rotr 2 x) (rotr 13 x) (rotr 22 x).
Definition Sigma1 (x : N) : N := xor3 (rotr 6 x) (rotr 11 x) (rotr 25 x).
Definition sigma0 (x : N) : N := xor3 (rotr 7 x) (rotr 18 x) (N.shiftr x 3).
Definition sigma1 (x : N) : N := xor3 (rotr 17 x) (rotr 19 x) (N.shiftr x 10).

Definition K : list N :=
  [1116352408; 1899447441; 3049323471; 3921009573; 961987163; 1508970993;
   2453635748; 2870763221; 3624381080; 310598401; 607225278; 1426881987;
   1925078388; 2162078206; 2614888103; 3248222580; 3835390401; 4022224774;
   264347078; 604807628; 770255983; 1249150122; 1555081692; 1996064986;
   2554220882; 2821834349; 2952996808; 3210313671; 3336571891; 3584528711;
   113926993; 338241895; 666307205; 773529912; 1294757372; 1396182291;
   1695183700; 1986661051; 2177026350; 2456956037; 2730485921; 2820302411;
   3259730800; 3345764771; 3516065817; 3600352804; 4094571909; 275423344;
   430227734; 506948616; 659060556; 883997877; 958139571; 1322822218;
   1537002063; 1747873779; 1955562222; 2024104815; 2227730452; 2361852424;
   2428436474; 2756734187; 3204031479; 3329325298].

(** The message schedule, most recent word first. *)
Fixpoint extend (count : nat) (ws : list N) : list N :=
  match count with
  | O => ws
  | S count' =>
      let w := add32 (add32 (sigma1 (nth 1 ws 0)) (nth 6 ws 0))
                     (add32 (sigma0 (nth 14 ws 0)) (nth 15 ws 0)) in
      extend count' (w :: ws)
  end.

Definition schedule (block : list N) : list N :=
  rev (extend 48 (rev (words_of block))).

Record state := {
  a : N; b : N; c : N; d : N; e : N; f : N; g : N; h : N
}.

Definition round (s : state) (kw : N * N) : state :=
  let t1 := add32 (add32 (add32 (h s) (Sigma1 (e s))) (Ch (e s) (f s) (g s)))
                  (add32 (fst kw) (snd kw)) in
  let t2 := add32 (Sigma0 (a s)) (Maj (a s) (b s) (c s)) in
  {| a := add32 t1 t2; b := a s; c := b s; d := c s;
     e := add32 (d s) t1; f := e s; g := f s; h := g s |}.

Definition compress (h0 : state) (block : list N) : state :=
  let s := fold_left round (combine K (schedule block)) h0 in
  {| a := add32 (a h0) (a s); b := add32 (b h0) (b s);
     c := add32 (c h0) (c s); d := add32 (d h0) (d s);
     e := add32 (e h0) (e s); f := add32 (f h0) (f s);
     g := add32 (g h0) (g s); h := add32 (h h0) (h s) |}.

Definition init : state :=
  {| a := 1779033703; b := 3144134277; c := 1013904242; d := 2773480762;
     e := 1359893119; f := 2600822924; g := 528734635; h := 1541459225 |}.

(** [hashlib.sha256(msg).digest()] *)
Definition sha256 (msg : list N) : list N :=
  let padded := pad msg in
  let s := fold_left compress (chunks (length padded) 64 padded) init in
  flat_map (be_bytes 4) [a s; b s; c s; d s; e s; f s; g s; h s].

(** [hashlib.sha256(msg).hexdigest()]: sixty-four lower-case hexadecimal
    digits. *)
Definition sha256_hexdigest (msg : list N) : PyStr.str :=
  flat_map (fun x => [hex_digit (x / 16); hex_digit (x mod 16)]) (sha256 msg).

End Sha256.

(** ** Results of calls that may raise *)

Inductive exn : Set :=
| UniqueViolation      (* the store refused a duplicate key *)
| OperationalError     (* any other failure of the store *)
| UnicodeEncodeError   (* [str.encode] on a lone surrogate *)
| KeyError             (* [dict[key]] on a missing key *)
| OSError              (* a file that cannot be opened or decoded *)
| OverflowError.       (* a duration or a date out of range *)

Inductive outcome (A : Type) : Type :=
| Returns (a : A)
| Raises (e : exn).
Arguments Returns {A} a.
Arguments Raises {A} e.

(** ** [backend/services/sku_generator.py] *)

Module sku_generator.
Import PyStr.

Inductive SKUStatus : Set :=
| INSERTED | CONFLICT_RESOLVED | CONFLICT_UNRESOLVED | ERROR.

(** The two methods that talk to the database.  In the repository both are
    placeholders ("implement with your actual DB library") that log and
    return [True]; their contract is to return a boolean or to raise, on a
    unique-constraint violation or on a database error.  [DB] is the state
    of the database behind [self.db]. *)
Class Store := {
  DB : Type;
  _insert_product_sku : str -> Z -> str -> DB -> outcome bool * DB;
  _update_product_sku : Z -> str -> DB -> outcome bool * DB
}.

(** The placeholders as they stand in the source. *)
Definition mock_store : Store :=
  {| DB := unit;
     _insert_product_sku := fun _ _ _ db => (Returns true, db);
     _update_product_sku := fun _ _ db => (Returns true, db) |}.

Record SKUGenerator := {
  max_sku_length : Z;
  hash_suffix_length : Z
}.

(** [SKUGenerator(db_connection)] with the default arguments. *)
Definition default_generator : SKUGenerator :=
  {| max_sku_length := 64; hash_suffix_length := 6 |}.

(** [SKUGenerator(db_connection, max_sku_length=n)] *)
Definition generator_of_length (n : Z) : SKUGenerator :=
  {| max_sku_length := n; hash_suffix_length := 6 |}.

(** [_slugify(code, max_len=40)] *)
Definition _slugify `{CaseMapping} (code : str) (max_len : Z) : str :=
  if falsy code then []
  else
    let code := upper code in
    let code := List.filter is_AZ09 code in
    slice_to code max_len.

Definition alphabet : str := lit "0123456789ABCDEFGHIJKLMNOPQRSTUVWXYZ".

(** The [while len(out) < length] loop of [_short_hash]: one digit of [val]
    in base 36 per iteration, least significant first. *)
Fixpoint base36_digits (count : nat) (val : Z) : str :=
  match count with
  | O => []
  | S count' =>
      nth (Z.to_nat (val mod len alphabet)) alphabet 0%N
        :: base36_digits count' (val / len alphabet)
  end.

(** [_short_hash(value, length=6)] *)
Definition _short_hash (value : str) (length : Z) : outcome str :=
  match encode_utf8 value with
  | None => Raises UnicodeEncodeError
  | Some bytes =>
      let h := Hashlib.sha1_hexdigest bytes in
      let val := Hashlib.int16 (slice_to h 12) in
      Returns (base36_digits (Z.to_nat length) val)
  end.

(** [range(n)] *)
Definition range (n : Z) : list Z := List.map Z.of_nat (seq 0 (Z.to_nat n)).

Section generate_sku.
Context {unicode : CaseMapping} {store : Store}.
Variable self : SKUGenerator.

(** [available_for_suffix], computed from the first base candidate. *)
Definition available_for_suffix (vendor_short slug : str) : Z :=
  max_sku_length self - len (vendor_short ++ lit "-" ++ slug) - 1.

(** Step 2: the base candidate, with the slug cut when
    [available_for_suffix] is negative. *)
Definition base_candidate (vendor_short slug : str) : str :=
  let base_candidate := vendor_short ++ lit "-" ++ slug in
  if available_for_suffix vendor_short slug <? 0 then
    let max_slug_len := max_sku_length self - len vendor_short - 2 in
    let slug := slice_to slug max_slug_len in
    vendor_short ++ lit "-" ++ slug
  else base_candidate.

(** [if product_id: update else: insert] *)
Definition write (product_id : option Z) (candidate : str)
    (vendor_id : Z) (raw_code : str) (db : DB) : outcome bool * DB :=
  match product_id with
  | Some pid =>
      if pid =? 0 then _insert_product_sku candidate vendor_id raw_code db
      else _update_product_sku pid candidate db
  | None => _insert_product_sku candidate vendor_id raw_code db
  end.

Definition hash_input (raw_code : str) (vendor_id attempt : Z) : str :=
  raw_code ++ lit ":" ++ str_of_int vendor_id ++ lit ":" ++ str_of_int attempt.

(** Step 4: the [for attempt in range(max_retries)] loop. *)
Fixpoint resolve (raw_code : str) (vendor_id : Z) (product_id : option Z)
    (base : str) (attempts : list Z) (db : DB)
    : outcome (str * SKUStatus) * DB :=
  match attempts with
  | [] => (Returns ([], CONFLICT_UNRESOLVED), db)
  | attempt :: rest =>
      match _short_hash (hash_input raw_code vendor_id attempt)
                        (Z.min (hash_suffix_length self + attempt) 10) with
      | Raises e => (Raises e, db)
      | Returns suffix =>
          let candidate_with_suffix := base ++ lit "-" ++ suffix in
          if max_sku_length self <? len candidate_with_suffix then
            resolve raw_code vendor_id product_id base rest db
          else
            match write product_id candidate_with_suffix vendor_id raw_code db with
            | (Returns true, db') =>
                (Returns (candidate_with_suffix, CONFLICT_RESOLVED), db')
            | (_, db') =>
                resolve raw_code vendor_id product_id base rest db'
            end
      end
  end.

(** [generate_sku(raw_code, vendor_id, vendor_short, product_id=None,
    max_retries=5)] *)
Definition generate_sku (raw_code : str) (vendor_id : Z) (vendor_short : str)
    (product_id : option Z) (max_retries : Z) (db : DB)
    : outcome (str * SKUStatus) * DB :=
  if falsy raw_code || falsy vendor_short then (Returns ([], ERROR), db)
  else
    let slug := _slugify raw_code 40 in
    if falsy slug then (Returns ([], ERROR), db)
    else
      let base := base_candidate vendor_short slug in
      match write product_id base vendor_id raw_code db with
      | (Returns true, db') => (Returns (base, INSERTED), db')
      | (_, db') =>
          resolve raw_code vendor_id product_id base (range max_retries) db'
      end.

End generate_sku.

(** *** Stores used to exercise the resolver *)

(** A store that enforces uniqueness of the identifier, as the [products]
    table does: the state is the list of identifiers already taken. *)
Definition str_eqb (a b : str) : bool := bool_decide (a = b).

Definition unique_store : Store :=
  {| DB := list str;
     _insert_product_sku := fun sku _ _ db =>
       if existsb (str_eqb sku) db then (Raises UniqueViolation, db)
       else (Returns true, sku :: db);
     _update_product_sku := fun _ sku db =>
       if existsb (str_eqb sku) db then (Raises UniqueViolation, db)
       else (Returns true, sku :: db) |}.

(** A store whose every write raises, with the exception [err sku] for the
    identifier [sku]; the state is the list of the identifiers it was asked to
    write, oldest first. *)
Definition failing_store (err : str -> exn) : Store :=
  {| DB := list str;
     _insert_product_sku := fun sku _ _ db => (Raises (err sku), db ++ [sku]);
     _update_product_sku := fun _ sku db => (Raises (err sku), db ++ [sku]) |}.

(** A store whose every write raises, whatever its state and the exception. *)
Definition always_raises (store : Store) : Prop :=
  (forall sku vendor_id raw_code db, exists e db',
     _insert_product_sku sku vendor_id raw_code db = (Raises e, db'))
  /\ (forall product_id sku db, exists e db',
        _update_product_sku product_id sku db = (Raises e, db')).

(** The suffixed candidates of the retry loop that fit in [max_sku_length],
    in the order of the attempts. *)
Fixpoint fitting_candidates (self : SKUGenerator) (raw_code : str)
    (vendor_id : Z) (base : str) (attempts : list Z) : list str :=
  match attempts with
  | [] => []
  | attempt :: rest =>
      match _short_hash (hash_input raw_code vendor_id attempt)
                        (Z.min (hash_suffix_length self + attempt) 10) with
      | Raises _ => []
      | Returns suffix =>
          let candidate_with_suffix := base ++ lit "-" ++ suffix in
          if max_sku_length self <? len candidate_with_suffix then
            fitting_candidates self raw_code vendor_id base rest
          else
            candidate_with_suffix
              :: fitting_candidates self raw_code vendor_id base rest
      end
  end.

(** Any store, with the number of writes it has received kept beside its
    state. *)
Definition counted (store : Store) : Store :=
  {| DB := (@DB store * nat)%type;
     _insert_product_sku := fun sku vendor_id raw_code st =>
       let '(r, db') := _insert_product_sku sku vendor_id raw_code (fst st) in
       (r, (db', S (snd st)));
     _update_product_sku := fun product_id sku st =>
       let '(r, db') := _update_product_sku product_id sku (fst st) in
       (r, (db', S (snd st))) |}.

(** [SKUStatus.value] *)
Definition SKUStatus_value (s : SKUStatus) : str :=
  match s with
  | INSERTED => lit "inserted"
  | CONFLICT_RESOLVED => lit "conflict_resolved"
  | CONFLICT_UNRESOLVED => lit "conflict_unresolved"
  | ERROR => lit "error"
  end.

End sku_generator.


(** ** Floats *)

Module PyFloat.
Local Open Scope Q_scope.

(** [a >= b] *)
Definition ge (a b : Q) : bool := Qle_bool b a.

(** [a < b] *)
Definition lt (a b : Q) : bool := negb (Qle_bool b a).

(** [a > b] *)
Definition gt (a b : Q) : bool := negb (Qle_bool a b).

(** [max(a, b)] and [min(a, b)]: the first argument unless the second is
    strictly larger (smaller). *)
Definition max (a b : Q) : Q := if gt b a then b else a.
Definition min (a b : Q) : Q := if lt b a then b else a.

(** An arithmetic operation on floats is the exact operation followed by the
    rounding of the result to a float.  The rounding function is left open;
    what is known of it is that it is monotone, as rounding to nearest is. *)
Class Rounding := {
  round : Q -> Q;
  round_le : forall x y : Q, x <= y -> round x <= round y
}.

(** [a * b], [a + b], [a - b], [a / b] *)
Definition mul `{Rounding} (a b : Q) : Q := round (a * b).
Definition add `{Rounding} (a b : Q) : Q := round (a + b).
Definition sub `{Rounding} (a b : Q) : Q := round (a - b).
Definition div `{Rounding} (a b : Q) : Q := round (a / b).

(** Arithmetic without rounding error, to evaluate examples. *)
Definition exact : Rounding :=
  {| round := fun x => x; round_le := fun x y H => H |}.

End PyFloat.

(** ** [backend/services/image_validator.py] *)

Module image_validator.
Import PyStr.
Local Open Scope Q_scope.

Inductive ValidationStatus : Set :=
| AUTO_ACCEPTED | AUTO_REJECTED | NEEDS_REVIEW | ERROR.

(** The [reason] texts; the score shown by the two f-strings is kept as the
    number that is formatted. *)
Inductive Reason : Type :=
| All_checks_passed
| Score_is_borderline (overall_score : Q)
| Score_below_review_threshold (overall_score : Q)
| Image_file_not_found
| Validation_error (e : exn).

(** [ValidationMetrics], without [execution_time_ms] (a wall-clock
    measurement). *)
Record ValidationMetrics := {
  background_white_score : Q;
  blur_score : Q;
  object_coverage : Q;
  perceptual_similarity : Q;
  overall_score : Q;
  status : ValidationStatus;
  reason : Reason
}.

(** The fields of [ImageValidator] read by the scoring code.  The remaining
    constructor arguments are read only inside the pixel-level checks. *)
Record ImageValidator := {
  weights : gmap string Q;
  accept_score_threshold : Q;
  review_score_threshold : Q
}.

(** The default [weights] of the constructor. *)
Definition default_weights : gmap string Q :=
  <["background_white" := 0.25]>
  (<["blur" := 0.15]>
  (<["object_coverage" := 0.25]>
  (<["object_detection" := 0.20]>
  (<["perceptual_similarity" := 0.15]> ∅)))).

(** [ImageValidator()] with the default arguments. *)
Definition default_validator : ImageValidator :=
  {| weights := default_weights;
     accept_score_threshold := 0.85;
     review_score_threshold := 0.70 |}.

(** What validation reads from outside the process: the file system, the
    optional [imagehash] import, and the image libraries.  The three checks that
    decode pixels through Pillow, NumPy and OpenCV ([_check_background_white],
    [_check_blur], [_check_object_coverage]) catch their own exceptions and
    always return a score; the score each returns for a file is taken as
    given.  [phash p] is [imagehash.phash(Image.open(p))], a bit vector, or an
    exception. *)
Record Env := {
  path_exists : str -> bool;
  IMAGEHASH_AVAILABLE : bool;
  _check_background_white : str -> Q;
  _check_blur : str -> Q;
  _check_object_coverage : str -> Q * bool;
  phash : str -> outcome (list bool)
}.

(** [_check_object_detection]: the placeholder score. *)
Definition _check_object_detection (image_path : str) : Q := 0.7.

(** [h1 - h2] on image hashes: the number of differing bits; hashes of
    different shapes raise [TypeError], which is caught by the caller. *)
Definition hamming (h1 h2 : list bool) : option Z :=
  if (length h1 =? length h2)%nat then
    Some (Z.of_nat (length (List.filter (fun p => xorb (fst p) (snd p))
                                        (combine h1 h2))))
  else None.

Section scoring.
Context {rounding : PyFloat.Rounding}.

(** [_check_perceptual_similarity(image_path, reference_image_path)] *)
Definition _check_perceptual_similarity (env : Env)
    (image_path reference_image_path : str) : Q :=
  if negb (IMAGEHASH_AVAILABLE env) then 0.7
  else if negb (path_exists env reference_image_path) then 0.7
  else
    match phash env image_path with
    | Raises _ => 0.7
    | Returns h1 =>
        match phash env reference_image_path with
        | Raises _ => 0.7
        | Returns h2 =>
            let maxbits := Z.of_nat (length h1) in
            match hamming h1 h2 with
            | None => 0.7
            | Some diff =>
                let similarity :=
                  PyFloat.sub 1.0
                    (PyFloat.div (inject_Z diff) (inject_Z maxbits)) in
                PyFloat.max 0.0 (PyFloat.min 1.0 similarity)
            end
        end
    end.

(** The weighted sum of the five scores, added up from left to right. *)
Definition weighted_sum (w_bg w_blur w_cov w_det w_sim : Q)
    (background_score blur_score coverage_score detection_score
     similarity_score : Q) : Q :=
  PyFloat.add
    (PyFloat.add
       (PyFloat.add
          (PyFloat.add (PyFloat.mul w_bg background_score)
                       (PyFloat.mul w_blur blur_score))
          (PyFloat.mul w_cov coverage_score))
       (PyFloat.mul w_det detection_score))
    (PyFloat.mul w_sim similarity_score).

(** The overall score; a key missing from [self.weights] raises
    [KeyError]. *)
Definition weighted_score (self : ImageValidator)
    (background_score blur_score coverage_score detection_score
     similarity_score : Q) : outcome Q :=
  match weights self !! "background_white", weights self !! "blur",
        weights self !! "object_coverage", weights self !! "object_detection",
        weights self !! "perceptual_similarity" with
  | Some w_bg, Some w_blur, Some w_cov, Some w_det, Some w_sim =>
      Returns (weighted_sum w_bg w_blur w_cov w_det w_sim
                 background_score blur_score coverage_score detection_score
                 similarity_score)
  | _, _, _, _, _ => Raises KeyError
  end.

(** "Determine status": the two thresholds, tested in this order. *)
Definition determine_status (self : ImageValidator) (overall_score : Q)
    : ValidationStatus * Reason :=
  if PyFloat.ge overall_score (accept_score_threshold self) then
    (AUTO_ACCEPTED, All_checks_passed)
  else if PyFloat.ge overall_score (review_score_threshold self) then
    (NEEDS_REVIEW, Score_is_borderline overall_score)
  else
    (AUTO_REJECTED, Score_below_review_threshold overall_score).

(** The metrics returned on a failure before scoring. *)
Definition error_metrics (r : Reason) : ValidationMetrics :=
  {| background_white_score := 0.0; blur_score := 0.0; object_coverage := 0.0;
     perceptual_similarity := 0.0; overall_score := 0.0;
     status := ERROR; reason := r |}.

(** From "Compute weighted overall score" to the [return]: scoring and
    decision on the five check scores. *)
Definition score_checks (self : ImageValidator)
    (background_score blur_score coverage_score detection_score
     similarity_score : Q) : ValidationMetrics :=
  match weighted_score self background_score blur_score coverage_score
                       detection_score similarity_score with
  | Raises e => error_metrics (Validation_error e)
  | Returns overall =>
      let '(status, reason) := determine_status self overall in
      {| background_white_score := background_score;
         blur_score := blur_score;
         object_coverage := coverage_score;
         perceptual_similarity := similarity_score;
         overall_score := overall;
         status := status;
         reason := reason |}
  end.

(** The similarity score chosen by [validate_image]: [1.0] unless a
    reference path is given ([if reference_image_path:], so [None] and the
    empty path both count as absent). *)
Definition similarity_of (env : Env) (image_path : str)
    (reference_image_path : option str) : Q :=
  match reference_image_path with
  | Some ref =>
      if falsy ref then 1.0
      else _check_perceptual_similarity env image_path ref
  | None => 1.0
  end.

(** [validate_image(image_path, reference_image_path=None)] *)
Definition validate_image (env : Env) (self : ImageValidator)
    (image_path : str) (reference_image_path : option str)
    : ValidationMetrics :=
  if negb (path_exists env image_path) then error_metrics Image_file_not_found
  else
    let background_score := _check_background_white env image_path in
    let blur_score := _check_blur env image_path in
    let '(coverage_score, is_coverage_ok) :=
      _check_object_coverage env image_path in
    let detection_score := _check_object_detection image_path in
    let similarity_score := similarity_of env image_path reference_image_path in
    score_checks self background_score blur_score coverage_score
                 detection_score similarity_score.

End scoring.

(** The tiers from most to least favourable. *)
Definition strictness (s : ValidationStatus) : Z :=
  match s with
  | AUTO_ACCEPTED => 0%Z
  | NEEDS_REVIEW => 1%Z
  | AUTO_REJECTED => 2%Z
  | ERROR => 3%Z
  end.

(** The five named checks, and a vector of their scores. *)
Inductive check : Set :=
| background_white | blur | coverage | object_detection | similarity.

Definition check_eqb (a b : check) : bool :=
  match a, b with
  | background_white, background_white | blur, blur | coverage, coverage
  | object_detection, object_detection | similarity, similarity => true
  | _, _ => false
  end.

Definition score_vector := check -> Q.

(** The vector [v] with the score of check [i] replaced by [x]. *)
Definition with_score (v : score_vector) (i : check) (x : Q) : score_vector :=
  fun j => if check_eqb i j then x else v j.

Definition score_vector_status {rounding : PyFloat.Rounding}
    (self : ImageValidator) (v : score_vector) : ValidationStatus :=
  status (score_checks self (v background_white) (v blur) (v coverage)
                       (v object_detection) (v similarity)).


(** Every configured weight is non-negative. *)
Definition nonnegative_weights (self : ImageValidator) : Prop :=
  forall (k : string) (w : Q), weights self !! k = Some w -> 0 <= w.

(** An environment for examples: every file exists, [imagehash] is
    installed, the pixel checks return fixed scores. *)
Definition example_env (bg bl cov : Q) : Env :=
  {| path_exists := fun _ => true;
     IMAGEHASH_AVAILABLE := true;
     _check_background_white := fun _ => bg;
     _check_blur := fun _ => bl;
     _check_object_coverage := fun _ => (cov, true);
     phash := fun _ => Returns (repeat false 64) |}.


(** The weights the scorer looks up. *)
Definition weight_keys : list string :=
  ["background_white"; "blur"; "object_coverage"; "object_detection";
   "perceptual_similarity"]%string.

End image_validator.


(** ** [image_validator.py]: the blur and coverage checks *)

Module image_checks.
Import PyStr.
Local Open Scope Q_scope.

(** The constructor arguments of [ImageValidator] read by the two checks. *)
Record Thresholds := {
  blur_threshold : Q;
  object_coverage_min : Q;
  object_coverage_max : Q
}.

(** [ImageValidator()] with the default arguments. *)
Definition default_thresholds : Thresholds :=
  {| blur_threshold := 100.0;
     object_coverage_min := 0.30;
     object_coverage_max := 0.90 |}.

(** What the checks get from OpenCV for a file.  [laplacian_variance p] is
    [cv2.Laplacian(cv2.imread(p, GRAYSCALE), CV_64F).var()]; [contours p] is
    the list of [cv2.contourArea] of the external contours of the thresholded
    image, with the area [shape[0] * shape[1]] of the image.  Both are [None]
    when [cv2.imread] returns [None], and both may raise. *)
Record Cv2 := {
  CV2_AVAILABLE : bool;
  laplacian_variance : str -> outcome (option Q);
  contours : str -> outcome (option (list Q * Z))
}.

(** Division of two Python floats: [None] stands for [ZeroDivisionError]. *)
Definition truediv `{PyFloat.Rounding} (a b : Q) : option Q :=
  if Qeq_bool b 0 then None else Some (PyFloat.div a b).

Section checks.
Context {rounding : PyFloat.Rounding}.
Variable cv2 : Cv2.
Variable self : Thresholds.

(** [_check_blur(image_path)].  The variance is a NumPy float, whose division
    by zero gives an infinity or NaN instead of raising; these are not values of
    this model, and the result is [None] for a zero [blur_threshold]. *)
Definition _check_blur (image_path : str) : option Q :=
  if negb (CV2_AVAILABLE cv2) then Some 0.5
  else
    match laplacian_variance cv2 image_path with
    | Raises _ => Some 0.5
    | Returns None => Some 0.5
    | Returns (Some var) =>
        if Qeq_bool (blur_threshold self) 0 then None
        else Some (PyFloat.min 1.0 (PyFloat.div var (blur_threshold self)))
    end.

(** [max(cv2.contourArea(c) for c in contours)]: the first largest area. *)
Definition largest (first : Q) (rest : list Q) : Q :=
  fold_left PyFloat.max rest first.

(** The score of a coverage, from "Score based on min/max thresholds" on;
    [None] stands for a [ZeroDivisionError]. *)
Definition coverage_score (coverage : Q) : option (Q * bool) :=
  if PyFloat.lt coverage (object_coverage_min self) then
    match truediv coverage (object_coverage_min self) with
    | None => None
    | Some ratio => Some (PyFloat.mul ratio 0.5, false)
    end
  else if PyFloat.gt coverage (object_coverage_max self) then
    match truediv (PyFloat.sub coverage (object_coverage_max self))
                  (PyFloat.sub 1.0 (object_coverage_max self)) with
    | None => None
    | Some excess =>
        Some (PyFloat.max 0.0 (PyFloat.sub 1.0 (PyFloat.mul excess 0.5)), false)
    end
  else Some (1.0, true).

(** [_check_object_coverage(image_path)] *)
Definition _check_object_coverage (image_path : str) : Q * bool :=
  if negb (CV2_AVAILABLE cv2) then (0.5, true)
  else
    match contours cv2 image_path with
    | Raises _ => (0.5, true)
    | Returns None => (0.5, true)
    | Returns (Some ([], _)) => (0.0, false)
    | Returns (Some (first :: rest, total_area)) =>
        let area := largest first rest in
        match truediv area (inject_Z total_area) with
        | None => (0.5, true)
        | Some coverage =>
            match coverage_score coverage with
            | None => (0.5, true)
            | Some result => result
            end
        end
    end.

End checks.

(** The numbers that rounding leaves as they are. *)
Definition representable `{PyFloat.Rounding} (x : Q) : Prop :=
  PyFloat.round x == x.

(** OpenCV answering with fixed measurements, for examples. *)
Definition example_cv2 (var : Q) (areas : list Q) (total_area : Z) : Cv2 :=
  {| CV2_AVAILABLE := true;
     laplacian_variance := fun _ => Returns (Some var);
     contours := fun _ => Returns (Some (areas, total_area)) |}.

End image_checks.

(** ** [backend/services/review_queue.py] *)

Module review_queue.
Import PyStr.

Module ReviewStatus.
Inductive t : Set :=
| PENDING | IN_PROGRESS | ACCEPTED | REJECTED | REQUIRES_EDIT.
End ReviewStatus.

Module ReviewDecision.
Inductive t : Set :=
| ACCEPTED | REJECTED | REQUIRES_EDIT | NEEDS_REGENERATION.
End ReviewDecision.

Record ReviewTask := {
  id : Z;
  task_uuid : str;
  product_id : Z;
  product_image_id : Z;
  product_name : str;
  vendor_code : str;
  canonical_sku : str;
  image_url : str;
  validation_score : Q;
  validation_checks : gmap string Q;
  failure_reason : str;
  status : ReviewStatus.t;
  created_at : Z;
  due_by : Z;
  assigned_to : option Z;
  priority : Z
}.

(** A task of the second example of the module, already accepted. *)
Definition accepted_task : ReviewTask :=
  {| id := 7;
     task_uuid := lit "0f8fad5b";
     product_id := 102;
     product_image_id := 1002;
     product_name := lit "Widget B";
     vendor_code := lit "BRITC10G";
     canonical_sku := lit "BRIT-BRITC10G-3F4E1A";
     image_url := lit "https://cdn/image2.jpg";
     validation_score := 0.72;
     validation_checks := ∅;
     failure_reason := lit "Background not entirely white";
     status := ReviewStatus.ACCEPTED;
     created_at := 1762128000000000;
     due_by := 1762300800000000;
     assigned_to := Some 42;
     priority := 4 |}.

(** [ReviewTask.is_overdue], with [datetime.now()] as an argument. *)
Definition is_overdue (now : Z) (task : ReviewTask) : bool := due_by task <? now.

(** The states the specification calls terminal. *)
Definition terminal (s : ReviewStatus.t) : bool :=
  match s with
  | ReviewStatus.ACCEPTED | ReviewStatus.REJECTED
  | ReviewStatus.REQUIRES_EDIT => true
  | ReviewStatus.PENDING | ReviewStatus.IN_PROGRESS => false
  end.

Record ReviewQueue := {
  default_sla_hours : Z;
  enable_priority_assignment : bool
}.

(** [ReviewQueue(db_connection)] with the default arguments. *)
Definition default_queue : ReviewQueue :=
  {| default_sla_hours := 48; enable_priority_assignment := true |}.

(** The methods of [ReviewQueue] never use [self.db]: every read and write of
    the task table is a placeholder comment.  What a call leaves behind is its
    return value and the lines it hands to the logger, which are kept here as
    the state of the queue. *)
Inductive LogRecord : Type :=
| Created_review_task (task_uuid : str) (product_id : Z) (canonical_sku : str)
    (validation_score : Q) (priority : Z)
| Assigning_task (task_id reviewer_id : Z)
| Recording_review_decision (review_task_id : Z) (decision : ReviewDecision.t)
    (reviewer_id : Z) (reviewer_confidence : Z)
| Marked_for_training (review_task_id : Z)
| Failed_to_create_review_task (e : exn).

Definition Log := list LogRecord.

(** [_compute_priority(validation_score)] *)
Definition _compute_priority (validation_score : Q) : Z :=
  if PyFloat.lt validation_score 0.40 then 1
  else if PyFloat.lt validation_score 0.55 then 2
  else if PyFloat.lt validation_score 0.70 then 3
  else if PyFloat.lt validation_score 0.80 then 4
  else 5.

(** [x or d] on an optional [int]: [None] and [0] give [d]. *)
Definition int_or (x : option Z) (d : Z) : Z :=
  match x with
  | Some v => if v =? 0 then d else v
  | None => d
  end.

(** [x is None] *)
Definition is_None {A} (x : option A) : bool :=
  match x with None => true | Some _ => false end.

(** [timedelta(hours=h)] in microseconds. *)
Definition timedelta_hours (h : Z) : Z := h * 3600000000.

(** [timedelta(hours=h)] as the constructor builds it: the duration is
    normalised to days, seconds and microseconds, and [OverflowError] is
    raised when the number of days, [h // 24], exceeds 999999999 in
    magnitude. *)
Definition timedelta (hours : Z) : outcome Z :=
  if (-999999999 <=? hours / 24) && (hours / 24 <=? 999999999)
  then Returns (timedelta_hours hours)
  else Raises OverflowError.

(** [datetime.min] (0001-01-01T00:00:00) and [datetime.max]
    (9999-12-31T23:59:59.999999). *)
Definition datetime_min : Z := -62135596800000000.
Definition datetime_max : Z := 253402300799999999.

(** [t + d] for a [datetime] and a [timedelta]: [OverflowError] when the
    result leaves the years 1 to 9999. *)
Definition datetime_add (t d : Z) : outcome Z :=
  if (datetime_min <=? t + d) && (t + d <=? datetime_max)
  then Returns (t + d)
  else Raises OverflowError.

(** The hours that [datetime.now() + timedelta(hours=...)] accepts at the
    time [now]. *)
Definition valid_due_date (now hours : Z) : Prop :=
  -999999999 <= hours / 24 <= 999999999
  /\ datetime_min <= now + timedelta_hours hours <= datetime_max.

(** What [create_review_task] reads from outside: the clock, a fresh UUID
    and the built-in [hash] of strings. *)
Record Runtime := {
  now : Z;
  uuid4 : str;
  hash : str -> Z
}.

(** The values bound in [create_review_task] when it returns.  The insert of
    the task is a placeholder in the source, so the task exists as these
    locals only; [created_id] is the value returned. *)
Record Created := {
  created_priority : Z;
  created_sla_hours : Z;
  created_due_by : Z;
  created_task_uuid : str;
  created_id : Z
}.

(** [create_review_task(..., validation_score, ..., priority=None,
    sla_hours=None)]; the arguments that are only logged or ignored are
    [product_id] and [canonical_sku].  The body is a [try] block whose
    handler logs the exception and raises it again: that is what happens
    when the due date cannot be computed. *)
Definition create_review_task (rt : Runtime) (self : ReviewQueue)
    (product_id : Z) (canonical_sku : str) (validation_score : Q)
    (priority : option Z) (sla_hours : option Z) (log : Log)
    : outcome Created * Log :=
  let priority :=
    if is_None priority && enable_priority_assignment self
    then _compute_priority validation_score
    else int_or priority 3 in
  let sla_hours := int_or sla_hours (default_sla_hours self) in
  match timedelta sla_hours with
  | Raises e => (Raises e, log ++ [Failed_to_create_review_task e])
  | Returns delta =>
      match datetime_add (now rt) delta with
      | Raises e => (Raises e, log ++ [Failed_to_create_review_task e])
      | Returns due_by =>
          let task_uuid := uuid4 rt in
          (Returns {| created_priority := priority;
                      created_sla_hours := sla_hours;
                      created_due_by := due_by;
                      created_task_uuid := task_uuid;
                      created_id := hash rt task_uuid mod 1000000 |},
           log ++ [Created_review_task task_uuid product_id canonical_sku
                     validation_score priority])
      end
  end.

(** [assign_task(task_id, reviewer_id)] *)
Definition assign_task (self : ReviewQueue) (task_id reviewer_id : Z)
    (log : Log) : bool * Log :=
  (true, log ++ [Assigning_task task_id reviewer_id]).

(** [submit_review_decision(review_task_id, decision, reviewer_id,
    decision_reason=None, reviewer_notes=None, reviewer_confidence=5,
    corrected_image_url=None)] *)
Definition submit_review_decision (self : ReviewQueue) (review_task_id : Z)
    (decision : ReviewDecision.t) (reviewer_id : Z)
    (decision_reason reviewer_notes : option str) (reviewer_confidence : Z)
    (corrected_image_url : option str) (log : Log) : bool * Log :=
  let log :=
    log ++ [Recording_review_decision review_task_id decision reviewer_id
              reviewer_confidence] in
  let log :=
    match decision with
    | ReviewDecision.ACCEPTED | ReviewDecision.REJECTED =>
        log ++ [Marked_for_training review_task_id]
    | _ => log
    end in
  (true, log).

(** The decisions recorded for a task, oldest first. *)
Definition decisions_recorded (task_id : Z) (log : Log)
    : list ReviewDecision.t :=
  flat_map (fun r =>
    match r with
    | Recording_review_decision t d _ _ => if t =? task_id then [d] else []
    | _ => []
    end) log.

(** A reviewer submitting decisions one after the other for one task. *)
Fixpoint submit_all (self : ReviewQueue) (review_task_id reviewer_id : Z)
    (decisions : list ReviewDecision.t) (log : Log) : list bool * Log :=
  match decisions with
  | [] => ([], log)
  | d :: rest =>
      let '(ok, log1) :=
        submit_review_decision self review_task_id d reviewer_id
                               None None 5 None log in
      let '(oks, log2) := submit_all self review_task_id reviewer_id rest log1 in
      (ok :: oks, log2)
  end.

End review_queue.

(** ** [run_server.py]: the in-memory review endpoint *)

Module run_server.
Import PyStr.

#[export] Instance Q_eq_dec : EqDecision Q.
Proof. solve_decision. Defined.

(** The values held by the task and submission dictionaries. *)
Inductive value : Type :=
| VNone
| VInt (z : Z)
| VStr (s : str)
| VIso (t : Z)    (* [datetime.isoformat()] of the time [t] *)
| VFloat (q : Q)
| VDict (d : gmap string Q).

#[export] Instance value_eq_dec : EqDecision value.
Proof. solve_decision. Defined.

(** [SubmitReviewDecisionRequest] *)
Record SubmitReviewDecisionRequest := {
  review_task_id : Z;
  decision : str;
  reviewer_id : Z;
  reviewer_notes : option str;
  reviewer_confidence : Z;
  feedback_message : option str
}.

(** The module-level registries [review_tasks] and [submissions_db]. *)
Record Registry := {
  review_tasks : list (gmap string value);
  submissions_db : list (gmap string value)
}.

Inductive Response : Set :=
| Recorded (task_id : Z) (decision : str)
| HTTP_404.

Definition opt_value (o : option str) : value :=
  match o with Some s => VStr s | None => VNone end.

(** [a or b] on optional strings. *)
Definition str_or (a b : option str) : option str :=
  match a with
  | Some s => if falsy s then b else a
  | None => b
  end.

(** The first dictionary of [l] satisfying [p] is replaced by its image
    under [f]; this is the in-place update of a dictionary found by a [for]
    loop that stops at the first match. *)
Fixpoint update_first {A} (p : A -> bool) (f : A -> A) (l : list A) : list A :=
  match l with
  | [] => []
  | x :: l' => if p x then f x :: l' else x :: update_first p f l'
  end.

Definition has_id (v : value) (d : gmap string value) : bool :=
  bool_decide (d !! "id" = Some v).

(** [submit_review_decision(request, user)], with the reviewer's name and
    the clock as arguments.  Every dictionary of the registries carries an
    ["id"] key: they are built by the upload endpoint. *)
Definition submit_review_decision (request : SubmitReviewDecisionRequest)
    (user_name : str) (now : Z) (reg : Registry) : Response * Registry :=
  match find (has_id (VInt (review_task_id request))) (review_tasks reg) with
  | None => (HTTP_404, reg)
  | Some task =>
      let feedback :=
        opt_value (str_or (feedback_message request) (reviewer_notes request)) in
      let decide_task (task : gmap string value) :=
        <["reviewed_at" := VIso now]>
        (<["reviewer_confidence" := VInt (reviewer_confidence request)]>
        (<["feedback" := feedback]>
        (<["reviewer_notes" := opt_value (reviewer_notes request)]>
        (<["reviewed_by" := VStr user_name]>
        (<["status" := VStr (decision request)]> task))))) in
      let decide_submission (sub : gmap string value) :=
        <["reviewed_at" := VIso now]>
        (<["reviewed_by" := VStr user_name]>
        (<["feedback" := feedback]>
        (<["status" := VStr (decision request)]> sub))) in
      let submission_id := default VNone (task !! "submission_id") in
      (Recorded (review_task_id request) (decision request),
       {| review_tasks :=
            update_first (has_id (VInt (review_task_id request))) decide_task
                         (review_tasks reg);
          submissions_db :=
            update_first (has_id submission_id) decide_submission
                         (submissions_db reg) |})
  end.

(** The [status] of the task with a given id. *)
Definition task_status (task_id : Z) (reg : Registry) : option value :=
  match find (has_id (VInt task_id)) (review_tasks reg) with
  | Some task => task !! "status"
  | None => None
  end.

End run_server.

(** ** [run_server.py]: users, sessions and the endpoints *)

Module run_server_app.
Import PyStr run_server.

(** [UserRole] and its [.value] *)
Inductive UserRole : Set := VENDOR | OFFICIAL.

Definition UserRole_value (r : UserRole) : str :=
  match r with
  | VENDOR => lit "vendor"
  | OFFICIAL => lit "official"
  end.

Module RegisterRequest.
Record t := { name : str; email : str; password : str; role : UserRole }.
End RegisterRequest.

Module LoginRequest.
Record t := { email : str; password : str }.
End LoginRequest.

Module CreateReviewTaskRequest.
Record t := {
  product_id : Z;
  product_image_id : Z;
  product_name : str;
  vendor_code : str;
  canonical_sku : str;
  image_url : str;
  validation_score : Q;
  validation_checks : gmap string Q;
  failure_reason : str
}.
End CreateReviewTaskRequest.

(** A value of [users_db].  The dictionary is built in one place, by
    [register], always with these five keys; it is kept as a record, and as a
    dictionary that is not empty it is true in a condition. *)
Module User.
Record t := {
  name : str;
  email : str;
  password : str;   (* the SHA-256 digest, in hexadecimal *)
  role : str;
  created_at : Z
}.
End User.

(** The module-level state: [users_db], [tokens_db], the two registries and
    the two counters. *)
Record App := {
  users_db : gmap str User.t;
  tokens_db : gmap str str;
  registry : Registry;
  submission_counter : Z;
  task_counter : Z
}.

(** The state of a server that has just started. *)
Definition startup_state : App :=
  {| users_db := ∅;
     tokens_db := ∅;
     registry := {| review_tasks := []; submissions_db := [] |};
     submission_counter := 0;
     task_counter := 0 |}.

(** What a call raises: an [HTTPException] of the code, answered with its
    status, or another exception, answered by the framework with 500. *)
Inductive raised : Set :=
| HTTPException (status_code : Z)
| Exception (e : exn).

Inductive result (A : Type) : Type :=
| Ok (a : A)
| Raise (r : raised).
Arguments Ok {A} a.
Arguments Raise {A} r.

(** The status of the HTTP response. *)
Definition http_status {A} (r : result A) : Z :=
  match r with
  | Ok _ => 200
  | Raise (HTTPException status_code) => status_code
  | Raise (Exception _) => 500
  end.

(** [hash_password(password)] *)
Definition hash_password (password : str) : outcome str :=
  match encode_utf8 password with
  | Some bytes => Returns (Sha256.sha256_hexdigest bytes)
  | None => Raises UnicodeEncodeError
  end.

(** [get_current_user(credentials)]; [credentials] is the bearer token of
    the request, [None] without one. *)
Definition get_current_user (credentials : option str) (s : App)
    : option User.t :=
  match credentials with
  | None => None
  | Some token =>
      match tokens_db s !! token with
      | None => None
      | Some email => if falsy email then None else users_db s !! email
      end
  end.

(** [require_auth(credentials)] *)
Definition require_auth (credentials : option str) (s : App) : result User.t :=
  match get_current_user credentials s with
  | None => Raise (HTTPException 401)
  | Some user => Ok user
  end.

(** [require_official(credentials)] *)
Definition require_official (credentials : option str) (s : App)
    : result User.t :=
  match require_auth credentials s with
  | Raise r => Raise r
  | Ok user =>
      if bool_decide (User.role user <> lit "official")
      then Raise (HTTPException 403)
      else Ok user
  end.

(** [require_vendor(credentials)] *)
Definition require_vendor (credentials : option str) (s : App)
    : result User.t :=
  match require_auth credentials s with
  | Raise r => Raise r
  | Ok user =>
      if bool_decide (User.role user <> lit "vendor")
      then Raise (HTTPException 403)
      else Ok user
  end.

(** The body of the answers of [register] and [login]; the three fields of
    the inner ["user"] dictionary are [name], [email] and [role]. *)
Module Session.
Record t := {
  message : str;
  token : str;
  name : str;
  email : str;
  role : str
}.
End Session.

(** [register(request)], with the token drawn by [generate_token()] and the
    clock as arguments. *)
Definition register (request : RegisterRequest.t) (token : str) (now : Z)
    (s : App) : result Session.t * App :=
  let email := RegisterRequest.email request in
  if bool_decide (is_Some (users_db s !! email))
  then (Raise (HTTPException 400), s)
  else
    match hash_password (RegisterRequest.password request) with
    | Raises e => (Raise (Exception e), s)
    | Returns digest =>
        let user :=
          {| User.name := RegisterRequest.name request;
             User.email := email;
             User.password := digest;
             User.role := UserRole_value (RegisterRequest.role request);
             User.created_at := now |} in
        (Ok {| Session.message := lit "Registration successful";
               Session.token := token;
               Session.name := RegisterRequest.name request;
               Session.email := email;
               Session.role := UserRole_value (RegisterRequest.role request) |},
         {| users_db := <[email := user]> (users_db s);
            tokens_db := <[token := email]> (tokens_db s);
            registry := registry s;
            submission_counter := submission_counter s;
            task_counter := task_counter s |})
    end.

(** [login(request)], with the token drawn by [generate_token()]. *)
Definition login (request : LoginRequest.t) (token : str) (s : App)
    : result Session.t * App :=
  match users_db s !! LoginRequest.email request with
  | None => (Raise (HTTPException 401), s)
  | Some user =>
      match hash_password (LoginRequest.password request) with
      | Raises e => (Raise (Exception e), s)
      | Returns digest =>
          if bool_decide (User.password user <> digest)
          then (Raise (HTTPException 401), s)
          else
            (Ok {| Session.message := lit "Login successful";
                   Session.token := token;
                   Session.name := User.name user;
                   Session.email := User.email user;
                   Session.role := User.role user |},
             {| users_db := users_db s;
                tokens_db := <[token := LoginRequest.email request]>
                               (tokens_db s);
                registry := registry s;
                submission_counter := submission_counter s;
                task_counter := task_counter s |})
      end
  end.

(** [get_me(user)], behind [require_auth]: name, email and role. *)
Definition get_me (credentials : option str) (s : App)
    : result (str * str * str) :=
  match require_auth credentials s with
  | Raise r => Raise r
  | Ok user => Ok (User.name user, User.email user, User.role user)
  end.

(** [logout(credentials)] *)
Definition logout (credentials : option str) (s : App) : App :=
  match credentials with
  | Some token =>
      if bool_decide (is_Some (tokens_db s !! token))
      then {| users_db := users_db s;
              tokens_db := delete token (tokens_db s);
              registry := registry s;
              submission_counter := submission_counter s;
              task_counter := task_counter s |}
      else s
  | None => s
  end.

(** [needle in haystack] on strings *)
Fixpoint starts_with (prefix s : str) : bool :=
  match prefix, s with
  | [], _ => true
  | _ :: _, [] => false
  | a :: prefix', b :: s' => (a =? b)%N && starts_with prefix' s'
  end.

Fixpoint contains (needle haystack : str) : bool :=
  starts_with needle haystack
  || match haystack with
     | [] => false
     | _ :: haystack' => contains needle haystack'
     end.

(** [l[:n]] on a list: a negative bound counts from the end. *)
Definition list_slice_to {A} (l : list A) (n : Z) : list A :=
  if 0 <=? n then firstn (Z.to_nat n) l
  else firstn (length l - Z.to_nat (- n)) l.

(** The dictionary literals of [upload_image] and
    [create_review_task_public]. *)
Definition submission_record (id : Z) (vendor_email vendor_name product_name
    vendor_code filename : str) (now : Z) : gmap string value :=
  <["id" := VInt id]>
  (<["vendor_email" := VStr vendor_email]>
  (<["vendor_name" := VStr vendor_name]>
  (<["product_name" := VStr product_name]>
  (<["vendor_code" := VStr vendor_code]>
  (<["filename" := VStr filename]>
  (<["image_url" := VStr (lit "/uploads/" ++ filename)]>
  (<["status" := VStr (lit "pending")]>
  (<["feedback" := VNone]>
  (<["reviewed_by" := VNone]>
  (<["created_at" := VIso now]>
  (<["reviewed_at" := VNone]> ∅))))))))))).

Definition pending_checks : gmap string Q :=
  <["background_white" := 0.75%Q]>
  (<["blur" := 0.80%Q]>
  (<["object_coverage" := 0.70%Q]>
  (<["perceptual_similarity" := 0.65%Q]> ∅))).

(** The keys shared by the tasks of the two endpoints that create one. *)
Definition task_record (id product_id product_image_id : Z)
    (product_name vendor_code vendor_name vendor_email canonical_sku
     image_url : str) (validation_score : Q)
    (validation_checks : gmap string Q) (failure_reason : str) (now : Z)
    : gmap string value :=
  <["id" := VInt id]>
  (<["product_id" := VInt product_id]>
  (<["product_image_id" := VInt product_image_id]>
  (<["product_name" := VStr product_name]>
  (<["vendor_code" := VStr vendor_code]>
  (<["vendor_name" := VStr vendor_name]>
  (<["vendor_email" := VStr vendor_email]>
  (<["canonical_sku" := VStr canonical_sku]>
  (<["image_url" := VStr image_url]>
  (<["validation_score" := VFloat validation_score]>
  (<["validation_checks" := VDict validation_checks]>
  (<["failure_reason" := VStr failure_reason]>
  (<["priority" := VInt 3]>
  (<["status" := VStr (lit "pending")]>
  (<["feedback" := VNone]>
  (<["created_at" := VIso now]>
  (<["due_by" := VIso (now + review_queue.timedelta_hours 48)]>
     ∅)))))))))))))))).

(** The body of the answer of [upload_image]. *)
Module Uploaded.
Record t := { message : str; submission_id : Z; status : str }.
End Uploaded.

Section upload.
Context {case : CaseMapping}.

(** [upload_image(file, product_name, vendor_code, user)].  [content_type]
    is [file.content_type]; [disk] is the outcome of reading the upload and
    writing it to the uploads directory; the clock reads of one call are
    taken at one time [now]. *)
Definition upload_image (content_type : option str)
    (product_name vendor_code : str) (credentials : option str)
    (disk : outcome unit) (now : Z) (s : App) : result Uploaded.t * App :=
  match require_vendor credentials s with
  | Raise r => (Raise r, s)
  | Ok user =>
      match content_type with
      | None => (Raise (HTTPException 400), s)
      | Some content_type =>
          if negb (bool_decide (content_type = lit "image/jpeg")
                   || bool_decide (content_type = lit "image/png"))
          then (Raise (HTTPException 400), s)
          else
            let submission_counter := submission_counter s + 1 in
            let ext := if contains (lit "jpeg") content_type
                       then lit "jpg" else lit "png" in
            let filename :=
              lit "submission_" ++ str_of_int submission_counter
              ++ lit "." ++ ext in
            match disk with
            | Raises e =>
                (Raise (Exception e),
                 {| users_db := users_db s;
                    tokens_db := tokens_db s;
                    registry := registry s;
                    submission_counter := submission_counter;
                    task_counter := task_counter s |})
            | Returns _ =>
                let submission :=
                  submission_record submission_counter (User.email user)
                    (User.name user) product_name vendor_code filename now in
                let task_counter := task_counter s + 1 in
                let task :=
                  <["submission_id" := VInt submission_counter]>
                  (task_record task_counter submission_counter
                     submission_counter product_name vendor_code
                     (User.name user) (User.email user)
                     (slice_to (upper vendor_code) 4 ++ lit "-"
                      ++ upper vendor_code)
                     (lit "/uploads/" ++ filename) 0.70 pending_checks
                     (lit "Awaiting human review") now) in
                (Ok {| Uploaded.message := lit "Image uploaded successfully";
                       Uploaded.submission_id := submission_counter;
                       Uploaded.status := lit "pending" |},
                 {| users_db := users_db s;
                    tokens_db := tokens_db s;
                    registry :=
                      {| review_tasks := review_tasks (registry s) ++ [task];
                         submissions_db :=
                           submissions_db (registry s) ++ [submission] |};
                    submission_counter := submission_counter;
                    task_counter := task_counter |})
            end
      end
  end.

End upload.

(** [create_review_task_public(request)]: the answer carries the new
    [task_id]. *)
Definition create_review_task_public (request : CreateReviewTaskRequest.t)
    (now : Z) (s : App) : Z * App :=
  let task_counter := task_counter s + 1 in
  let task :=
    task_record task_counter
      (CreateReviewTaskRequest.product_id request)
      (CreateReviewTaskRequest.product_image_id request)
      (CreateReviewTaskRequest.product_name request)
      (CreateReviewTaskRequest.vendor_code request)
      (lit "Demo Vendor") (lit "demo@vendor.com")
      (CreateReviewTaskRequest.canonical_sku request)
      (CreateReviewTaskRequest.image_url request)
      (CreateReviewTaskRequest.validation_score request)
      (CreateReviewTaskRequest.validation_checks request)
      (CreateReviewTaskRequest.failure_reason request) now in
  (task_counter,
   {| users_db := users_db s;
      tokens_db := tokens_db s;
      registry := {| review_tasks := review_tasks (registry s) ++ [task];
                     submissions_db := submissions_db (registry s) |};
      submission_counter := submission_counter s;
      task_counter := task_counter |}).

(** [value == n] for an [int] [n]: an [int] or a [float] of the same
    number. *)
Definition eq_int (v : value) (n : Z) : bool :=
  match v with
  | VInt z => z =? n
  | VFloat q => Qeq_bool q (inject_Z n)
  | _ => false
  end.

(** [[t for t in tasks if t[key] == ...]]: a dictionary without the key
    raises [KeyError]. *)
Fixpoint select (key : string) (test : value -> bool)
    (tasks : list (gmap string value)) : result (list (gmap string value)) :=
  match tasks with
  | [] => Ok []
  | t :: tasks' =>
      match t !! key with
      | None => Raise (Exception KeyError)
      | Some v =>
          match select key test tasks' with
          | Raise r => Raise r
          | Ok rest => Ok (if test v then t :: rest else rest)
          end
      end
  end.

(** [get_pending_review_tasks(limit, priority, user)]: the answer is
    [task_count] and [tasks]. *)
Definition get_pending_review_tasks (limit : Z) (priority : option Z)
    (credentials : option str) (s : App)
    : result (Z * list (gmap string value)) :=
  match require_official credentials s with
  | Raise r => Raise r
  | Ok user =>
      match select "status" (fun v => bool_decide (v = VStr (lit "pending")))
                   (review_tasks (registry s)) with
      | Raise r => Raise r
      | Ok pending =>
          let filtered :=
            match priority with
            | None => Ok pending
            | Some p =>
                if p =? 0 then Ok pending
                else select "priority" (fun v => eq_int v p) pending
            end in
          match filtered with
          | Raise r => Raise r
          | Ok pending =>
              Ok (Z.of_nat (length (list_slice_to pending limit)),
                  list_slice_to pending limit)
          end
      end
  end.

(** The loop of [get_review_task]: the first task whose ["id"] equals
    [task_id]. *)
Fixpoint first_with_id (task_id : Z) (tasks : list (gmap string value))
    : result (gmap string value) :=
  match tasks with
  | [] => Raise (HTTPException 404)
  | task :: tasks' =>
      match task !! "id" with
      | None => Raise (Exception KeyError)
      | Some v =>
          if eq_int v task_id then Ok task else first_with_id task_id tasks'
      end
  end.

(** [get_review_task(task_id, user)] *)
Definition get_review_task (task_id : Z) (credentials : option str) (s : App)
    : result (gmap string value) :=
  match require_official credentials s with
  | Raise r => Raise r
  | Ok user => first_with_id task_id (review_tasks (registry s))
  end.

(** [submit_review_decision(request, user)] behind [require_official]: the
    endpoint of the registries, with the name of the official. *)
Definition submit_review_decision (request : SubmitReviewDecisionRequest)
    (credentials : option str) (now : Z) (s : App) : result Response * App :=
  match require_official credentials s with
  | Raise r => (Raise r, s)
  | Ok user =>
      match run_server.submit_review_decision request (User.name user) now
              (registry s) with
      | (HTTP_404, _) => (Raise (HTTPException 404), s)
      | (response, reg) =>
          (Ok response,
           {| users_db := users_db s;
              tokens_db := tokens_db s;
              registry := reg;
              submission_counter := submission_counter s;
              task_counter := task_counter s |})
      end
  end.

(** The calls that change the state of the server. *)
Inductive Call : Type :=
| Register (request : RegisterRequest.t) (token : str) (now : Z)
| Login (request : LoginRequest.t) (token : str)
| Logout (credentials : option str)
| UploadImage (content_type : option str) (product_name vendor_code : str)
    (credentials : option str) (disk : outcome unit) (now : Z)
| CreateReviewTask (request : CreateReviewTaskRequest.t) (now : Z)
| SubmitReviewDecision (request : SubmitReviewDecisionRequest)
    (credentials : option str) (now : Z).

(** The state after a call, and after a sequence of calls on a server that
    has just started.  The calls are served one after the other: no other
    handler runs while [upload_image] awaits the content of the file. *)
Definition serve {case : CaseMapping} (s : App) (c : Call) : App :=
  match c with
  | Register request token now => snd (register request token now s)
  | Login request token => snd (login request token s)
  | Logout credentials => logout credentials s
  | UploadImage content_type product_name vendor_code credentials disk now =>
      snd (upload_image content_type product_name vendor_code credentials
                        disk now s)
  | CreateReviewTask request now =>
      snd (create_review_task_public request now s)
  | SubmitReviewDecision request credentials now =>
      snd (submit_review_decision request credentials now s)
  end.

Definition run {case : CaseMapping} (calls : list Call) : App :=
  fold_left serve calls startup_state.

(** *** Registries and their ids *)

(** The ["id"] entries of a registry; the registries whose ids are the
    integers [ks], in this order; the integers [1, ..., n]. *)
Definition ids (l : list (gmap string value)) : list (option value) :=
  List.map (fun d => d !! "id") l.

Definition has_ids (ks : list Z) (l : list (gmap string value)) : Prop :=
  ids l = List.map (fun k => Some (VInt k)) ks.

Definition upto (n : Z) : list Z := List.map Z.of_nat (seq 1 (Z.to_nat n)).

(** [ks] is strictly increasing, above [lo]. *)
Fixpoint increasing (lo : Z) (ks : list Z) : Prop :=
  match ks with
  | [] => True
  | k :: ks' => lo < k /\ increasing k ks'
  end.

(** The invariant of the submissions: their ids increase, none exceeds
    [submission_counter], and the ["submission_id"] of a task is the id of a
    submission. *)
Definition linked (ks : list Z) (task : gmap string value) : Prop :=
  forall v, task !! "submission_id" = Some v -> exists k, v = VInt k /\ In k ks.

Definition submissions_invariant (s : App) (ks : list Z) : Prop :=
  0 <= submission_counter s
  /\ has_ids ks (submissions_db (registry s))
  /\ increasing 0 ks
  /\ Forall (fun k => k <= submission_counter s) ks
  /\ Forall (linked ks) (review_tasks (registry s)).

(** The test of a comprehension [[t for t in tasks if t[key] ...]] on a
    dictionary that has the key. *)
Definition key_test (key : string) (test : value -> bool)
    (t : gmap string value) : bool :=
  match t !! key with
  | Some v => test v
  | None => false
  end.

(** The shape of the tasks of the server: a status, and the priority 3. *)
Definition task_shape (t : gmap string value) : Prop :=
  is_Some (t !! "status") /\ t !! "priority" = Some (VInt 3).

(** *** A server for examples

    An official and a vendor register, the vendor uploads an image, and a
    task is created through the public endpoint. *)
Definition example_official : RegisterRequest.t :=
  {| RegisterRequest.name := lit "Olga";
     RegisterRequest.email := lit "olga@example.com";
     RegisterRequest.password := lit "review";
     RegisterRequest.role := OFFICIAL |}.

Definition example_vendor : RegisterRequest.t :=
  {| RegisterRequest.name := lit "Vera";
     RegisterRequest.email := lit "vera@example.com";
     RegisterRequest.password := lit "upload";
     RegisterRequest.role := VENDOR |}.

Definition example_task : CreateReviewTaskRequest.t :=
  {| CreateReviewTaskRequest.product_id := 101;
     CreateReviewTaskRequest.product_image_id := 1001;
     CreateReviewTaskRequest.product_name := lit "Widget A";
     CreateReviewTaskRequest.vendor_code := lit "BRIT10G";
     CreateReviewTaskRequest.canonical_sku := lit "BRIT-BRIT10G";
     CreateReviewTaskRequest.image_url := lit "https://cdn/image1.jpg";
     CreateReviewTaskRequest.validation_score := 0.68;
     CreateReviewTaskRequest.validation_checks := ∅;
     CreateReviewTaskRequest.failure_reason := lit "Object coverage too low" |}.

Definition example_calls : list Call :=
  [Register example_official (lit "token-1") 1000;
   Register example_vendor (lit "token-2") 2000;
   UploadImage (Some (lit "image/png")) (lit "Widget B") (lit "brit10g")
     (Some (lit "token-2")) (Returns tt) 3000;
   CreateReviewTask example_task 4000].

(** The records of [users_db] for the two users. *)
Definition example_official_user : User.t :=
  {| User.name := lit "Olga";
     User.email := lit "olga@example.com";
     User.password := Sha256.sha256_hexdigest (lit "review");
     User.role := lit "official";
     User.created_at := 1000 |}.

Definition example_vendor_user : User.t :=
  {| User.name := lit "Vera";
     User.email := lit "vera@example.com";
     User.password := Sha256.sha256_hexdigest (lit "upload");
     User.role := lit "vendor";
     User.created_at := 2000 |}.

Definition example_decision : SubmitReviewDecisionRequest :=
  {| review_task_id := 1;
     decision := lit "rejected";
     reviewer_id := 7;
     reviewer_notes := Some (lit "Product cut off at bottom");
     reviewer_confidence := 4;
     feedback_message := None |}.

End run_server_app.

(** ** [backend/main.py]: the SKU endpoint *)

Module main.
Import PyStr sku_generator run_server_app.

(** [GenerateSKUResponse] *)
Record GenerateSKUResponse := {
  canonical_sku : str;
  status : str;
  message : str
}.

(** [try: ... except Exception as e: raise HTTPException(status_code=500)]
    around the body of a handler.  [HTTPException] is an [Exception]: the
    ones raised by the body are caught as the others are. *)
Definition except_Exception {A} (body : result A) : result A :=
  match body with
  | Ok a => Ok a
  | Raise _ => Raise (HTTPException 500)
  end.

Section generate_sku.
Context {unicode : CaseMapping} {store : Store}.

(** The [try] block of [generate_sku(request)].  [service] is the global
    [sku_generator], [None] until [startup] has run. *)
Definition generate_sku_body (service : option SKUGenerator)
    (raw_code : str) (vendor_id : Z) (vendor_short : str) (db : DB)
    : result GenerateSKUResponse * DB :=
  match service with
  | None => (Raise (HTTPException 503), db)
  | Some self =>
      match sku_generator.generate_sku self raw_code vendor_id vendor_short
              None 5 db with
      | (Raises e, db') => (Raise (Exception e), db')
      | (Returns (canonical_sku, status), db') =>
          if falsy canonical_sku then
            (Ok {| canonical_sku := [];
                   status := lit "error";
                   message := lit "Failed to generate SKU: "
                              ++ SKUStatus_value status |}, db')
          else
            (Ok {| canonical_sku := canonical_sku;
                   status := SKUStatus_value status;
                   message := lit "SKU generated successfully: "
                              ++ canonical_sku |}, db')
      end
  end.

(** [generate_sku(request)] *)
Definition generate_sku (service : option SKUGenerator)
    (raw_code : str) (vendor_id : Z) (vendor_short : str) (db : DB)
    : result GenerateSKUResponse * DB :=
  let '(answer, db') :=
    generate_sku_body service raw_code vendor_id vendor_short db in
  (except_Exception answer, db').

End generate_sku.

End main.


(** * Properties *)

(** ** The SHA-1 model against the standard test vectors *)

Example sha1_abc :
  Hashlib.sha1_hexdigest (PyStr.lit "abc")
  = PyStr.lit "a9993e364706816aba3e25717850c26c9cd0d89d".
Proof. vm_compute. reflexivity. Qed.

Example sha1_empty :
  Hashlib.sha1_hexdigest []
  = PyStr.lit "da39a3ee5e6b4b0d3255bfef95601890afd80709".
Proof. vm_compute. reflexivity. Qed.

Example sha1_two_blocks :
  Hashlib.sha1_hexdigest
    (PyStr.lit "abcdbcdecdefdefgefghfghighijhijkijkljklmklmnlmnomnopnopq")
  = PyStr.lit "84983e441c3bd26ebaae4aa1f95129e5e54670f1".
Proof. vm_compute. reflexivity. Qed.

(** ** Strings *)

Module PyStrFacts.
Import PyStr.

Lemma len_app (a b : str) : len (a ++ b) = len a + len b.
Proof. unfold len. rewrite length_app. lia. Qed.

Lemma len_nonneg (s : str) : 0 <= len s.
Proof. unfold len. lia. Qed.

Lemma len_lit_dash : len (lit "-") = 1.
Proof. reflexivity. Qed.

Lemma falsy_true (s : str) : falsy s = true <-> s = [].
Proof. destruct s; simpl; split; congruence. Qed.

Lemma falsy_false (s : str) : falsy s = false <-> s <> [].
Proof. destruct s; simpl; split; congruence. Qed.

(** A slice with a non-negative bound is no longer than the bound. *)
Lemma len_slice_to_le (s : str) (n : Z) : 0 <= n -> len (slice_to s n) <= n.
Proof.
  intros Hn. unfold slice_to, len.
  destruct (Z.leb_spec 0 n); [|lia].
  rewrite length_firstn. lia.
Qed.

(** The length of a slice, for either sign of the bound. *)
Lemma len_slice_to (s : str) (n : Z) :
  len (slice_to s n)
  = if 0 <=? n then Z.min n (len s) else Z.max 0 (len s + n).
Proof.
  unfold slice_to, len.
  destruct (Z.leb_spec 0 n); rewrite length_firstn; lia.
Qed.

Lemma slice_to_all (s : str) (n : Z) : len s <= n -> slice_to s n = s.
Proof.
  intros Hn. unfold slice_to, len in *.
  destruct (Z.leb_spec 0 n); [|lia].
  apply firstn_all2. lia.
Qed.

Lemma slice_to_Forall (P : codepoint -> Prop) (s : str) (n : Z) :
  Forall P s -> Forall P (slice_to s n).
Proof.
  intros Hs. unfold slice_to.
  destruct (0 <=? n); apply Forall_take; exact Hs.
Qed.

(** Upper-casing leaves a string of [A-Z0-9] characters as it is. *)
Lemma upper_AZ09 `{CaseMapping} (s : str) :
  Forall (fun c => is_AZ09 c = true) s -> upper s = s.
Proof.
  unfold upper. induction 1 as [|c s Hc Hs IH]; simpl; [reflexivity|].
  rewrite (upper_full_AZ09 c Hc), IH. reflexivity.
Qed.

Lemma filter_AZ09_Forall (s : str) :
  Forall (fun c => is_AZ09 c = true) (List.filter is_AZ09 s).
Proof.
  apply List.Forall_forall. intros c Hc. apply List.filter_In in Hc. tauto.
Qed.

Lemma filter_AZ09_id (s : str) :
  Forall (fun c => is_AZ09 c = true) s -> List.filter is_AZ09 s = s.
Proof.
  induction 1 as [|c s Hc Hs IH]; simpl; [reflexivity|].
  rewrite Hc, IH. reflexivity.
Qed.

End PyStrFacts.

(** ** The SKU generator *)

Module sku_generator_spec.
Import PyStr PyStrFacts sku_generator.

(** *** Canonicalization *)

Lemma slugify_AZ09 `{CaseMapping} (x : str) (n : Z) :
  Forall (fun c => is_AZ09 c = true) (_slugify x n).
Proof.
  unfold _slugify. destruct (falsy x); [constructor|].
  apply slice_to_Forall, filter_AZ09_Forall.
Qed.

Lemma slugify_bounded `{CaseMapping} (x : str) (n : Z) :
  0 <= n -> len (_slugify x n) <= n.
Proof.
  intros Hn. unfold _slugify. destruct (falsy x).
  - cbn. exact Hn.
  - apply len_slice_to_le, Hn.
Qed.

(** C9.  Canonicalization is idempotent and length-bounded: for every string
    [x] and every bound [n >= 0], slugifying a slug gives the slug back, and a
    slug has at most [n] characters. *)
Theorem slugify_idempotent_bounded `{CaseMapping} (x : str) (n : Z) :
  0 <= n ->
  _slugify (_slugify x n) n = _slugify x n /\ len (_slugify x n) <= n.
Proof.
  intros Hn.
  pose proof (slugify_bounded x n Hn) as Hb.
  pose proof (slugify_AZ09 x n) as Hall.
  split; [|exact Hb].
  set (r := _slugify x n) in *.
  unfold _slugify. destruct (falsy r) eqn:E.
  - apply falsy_true in E. symmetry. exact E.
  - rewrite (upper_AZ09 r Hall), (filter_AZ09_id r Hall).
    apply slice_to_all, Hb.
Qed.

Lemma slugify_idempotent_bounded_witness :
  0 <= 5 /\
  (_slugify (_slugify (lit "Brit-10-G") 5) 5 = _slugify (lit "Brit-10-G") 5
   /\ len (_slugify (lit "Brit-10-G") 5) <= 5).
Proof.
  split; [lia|].
  apply (slugify_idempotent_bounded (lit "Brit-10-G") 5). lia.
Defined.

Example slugify_examples :
  _slugify (lit "BRIT10G") 40 = lit "BRIT10G"
  /\ _slugify (lit "britc10g") 40 = lit "BRITC10G"
  /\ _slugify (lit "Brit-10-G") 40 = lit "BRIT10G"
  /\ _slugify (lit "BRIT_10.G") 40 = lit "BRIT10G"
  /\ _slugify (lit "Brit-10-G") 5 = lit "BRIT1"
  /\ _slugify (lit "") 40 = lit "".
Proof. repeat split. Qed.

(** *** The base candidate *)

Lemma len_base (vendor_short slug : str) :
  len (vendor_short ++ lit "-" ++ slug) = len vendor_short + 1 + len slug.
Proof. rewrite !len_app, len_lit_dash. lia. Qed.

Lemma base_candidate_cut (self : SKUGenerator) (vendor_short slug : str) :
  max_sku_length self <= len (vendor_short ++ lit "-" ++ slug) ->
  base_candidate self vendor_short slug
  = vendor_short ++ lit "-"
      ++ slice_to slug (max_sku_length self - len vendor_short - 2).
Proof.
  intros Hlen. unfold base_candidate, available_for_suffix.
  destruct (Z.ltb_spec (max_sku_length self
                        - len (vendor_short ++ lit "-" ++ slug) - 1) 0);
    [reflexivity | lia].
Qed.

Lemma base_candidate_kept (self : SKUGenerator) (vendor_short slug : str) :
  len (vendor_short ++ lit "-" ++ slug) < max_sku_length self ->
  base_candidate self vendor_short slug = vendor_short ++ lit "-" ++ slug.
Proof.
  intros Hlen. unfold base_candidate, available_for_suffix.
  destruct (Z.ltb_spec (max_sku_length self
                        - len (vendor_short ++ lit "-" ++ slug) - 1) 0);
    [lia | reflexivity].
Qed.

(** With room for the namespace and two separators, the base candidate always
    leaves one character free. *)
Lemma base_candidate_fits (self : SKUGenerator) (vendor_short slug : str) :
  len vendor_short + 2 <= max_sku_length self ->
  len (base_candidate self vendor_short slug) <= max_sku_length self - 1.
Proof.
  intros Hroom.
  destruct (Z.le_gt_cases (max_sku_length self)
                          (len (vendor_short ++ lit "-" ++ slug))) as [Hc|Hk].
  - rewrite (base_candidate_cut _ _ _ Hc), len_base, len_slice_to.
    destruct (Z.leb_spec 0 (max_sku_length self - len vendor_short - 2)); lia.
  - rewrite (base_candidate_kept _ _ _ Hk). lia.
Qed.

(** C7, as the code has it.  The truncation branch is taken exactly when the
    base identifier has at least [max_sku_length] characters: then the slug is
    cut, otherwise the base is kept as it is.  When the namespace leaves room
    for the two separators the rebuilt base has exactly [max_sku_length - 1]
    characters: one character stays reserved for the separator of a suffix. *)
Theorem truncation_branch (self : SKUGenerator) (vendor_short slug : str) :
  (available_for_suffix self vendor_short slug < 0
   <-> max_sku_length self <= len (vendor_short ++ lit "-" ++ slug))
  /\ (max_sku_length self <= len (vendor_short ++ lit "-" ++ slug) ->
     base_candidate self vendor_short slug
     = vendor_short ++ lit "-"
         ++ slice_to slug (max_sku_length self - len vendor_short - 2))
  /\ (len (vendor_short ++ lit "-" ++ slug) < max_sku_length self ->
     base_candidate self vendor_short slug = vendor_short ++ lit "-" ++ slug)
  /\ (max_sku_length self <= len (vendor_short ++ lit "-" ++ slug) ->
     len vendor_short + 2 <= max_sku_length self ->
     len (base_candidate self vendor_short slug) = max_sku_length self - 1).
Proof.
  split; [unfold available_for_suffix; lia|].
  split; [apply base_candidate_cut|].
  split; [apply base_candidate_kept|].
  intros Hc Hroom.
  rewrite (base_candidate_cut _ _ _ Hc), len_base, len_slice_to.
  rewrite len_base in Hc.
  destruct (Z.leb_spec 0 (max_sku_length self - len vendor_short - 2)); lia.
Qed.

Lemma truncation_branch_witness :
  (10 <= len (lit "AB" ++ lit "-" ++ lit "ABCDEFGH") /\ len (lit "AB") + 2 <= 10)
  /\ len (base_candidate (generator_of_length 10) (lit "AB") (lit "ABCDEFGH"))
     = 10 - 1.
Proof.
  assert (H1 : 10 <= len (lit "AB" ++ lit "-" ++ lit "ABCDEFGH"))
    by (vm_compute; discriminate).
  assert (H2 : len (lit "AB") + 2 <= 10) by (vm_compute; discriminate).
  split; [split; assumption|].
  exact (proj2 (proj2 (proj2 (truncation_branch (generator_of_length 10)
                                (lit "AB") (lit "ABCDEFGH")))) H1 H2).
Defined.

(** C7, as stated, fails: with [max_sku_length = 10] the base "AB-ABCDEFG" has
    exactly ten characters and does not exceed the maximum, yet the slug is cut,
    and the rebuilt base "AB-ABCDEF" has nine characters, not ten. *)
Lemma truncation_branch_counterexample :
  let self := generator_of_length 10 in
  let vendor_short := lit "AB" in
  let slug := lit "ABCDEFG" in
  ~ (max_sku_length self < len (vendor_short ++ lit "-" ++ slug))
  /\ available_for_suffix self vendor_short slug < 0
  /\ base_candidate self vendor_short slug = lit "AB-ABCDEF"
  /\ len (base_candidate self vendor_short slug) <> max_sku_length self
  /\ generate_sku (store := mock_store) self (lit "ABCDEFG") 1 vendor_short
       None 5 tt
     = (Returns (lit "AB-ABCDEF", INSERTED), tt).
Proof. vm_compute. repeat split; congruence. Qed.

(** *** Validation failures *)

(** C10.  When [raw_code] is empty, [vendor_short] is empty, or the slug of
    [raw_code] is empty, [generate_sku] returns the empty identifier with
    [ERROR] and hands back the state of the store it was given.  This holds
    for every store, in particular for one that records each call in its
    state: no insert or update is attempted. *)
Theorem validation_failure_atomic {unicode : CaseMapping} {store : Store}
    (self : SKUGenerator) (raw_code : str) (vendor_id : Z) (vendor_short : str)
    (product_id : option Z) (max_retries : Z) (db : DB) :
  raw_code = [] \/ vendor_short = [] \/ _slugify raw_code 40 = [] ->
  generate_sku self raw_code vendor_id vendor_short product_id max_retries db
  = (Returns ([], ERROR), db).
Proof.
  intros Hbad. unfold generate_sku.
  destruct (falsy raw_code || falsy vendor_short) eqn:E; [reflexivity|].
  apply orb_false_elim in E as [Er Ev].
  apply falsy_false in Er, Ev.
  destruct Hbad as [Hr|[Hv|Hs]]; [contradiction | contradiction |].
  rewrite Hs. reflexivity.
Qed.

Lemma validation_failure_atomic_witness :
  (lit "--/--" = [] \/ lit "VEND" = [] \/ _slugify (lit "--/--") 40 = [])
  /\ generate_sku (store := failing_store (fun _ => OperationalError))
       default_generator (lit "--/--") 42 (lit "VEND") None 5 []
     = (Returns ([], ERROR), []).
Proof.
  assert (H : lit "--/--" = [] \/ lit "VEND" = []
              \/ _slugify (lit "--/--") 40 = [])
    by (right; right; reflexivity).
  split; [exact H|].
  exact (validation_failure_atomic
           (store := failing_store (fun _ => OperationalError))
           default_generator (lit "--/--") 42 (lit "VEND") None 5 [] H).
Defined.

(** *** The length of the identifiers returned *)

(** The retry loop returns either nothing, or a suffixed candidate that passed
    the length test. *)
Lemma resolve_bounded {store : Store} (self : SKUGenerator) (raw_code : str)
    (vendor_id : Z) (product_id : option Z) (base : str) (attempts : list Z) :
  forall (db db' : DB) (sku : str) (st : SKUStatus),
  resolve self raw_code vendor_id product_id base attempts db
  = (Returns (sku, st), db') ->
  (st = CONFLICT_UNRESOLVED /\ sku = [])
  \/ (st = CONFLICT_RESOLVED /\ len sku <= max_sku_length self).
Proof.
  induction attempts as [|attempt rest IH]; intros db db' sku st Hres.
  - cbn [resolve] in Hres. injection Hres as <- <- _. left. split; reflexivity.
  - cbn [resolve] in Hres.
    destruct (_short_hash _ _) as [suffix|e]; [|discriminate].
    destruct (Z.ltb_spec (max_sku_length self) (len (base ++ lit "-" ++ suffix)))
      as [Hlong|Hfit].
    + eapply IH, Hres.
    + destruct (write product_id _ vendor_id raw_code db) as [[[|]|e] db1].
      * injection Hres as <- <- _. right. split; [reflexivity | exact Hfit].
      * eapply IH, Hres.
      * eapply IH, Hres.
Qed.

(** Where the namespace leaves room for two separators, every identifier
    returned with [INSERTED] or [CONFLICT_RESOLVED] fits in
    [max_sku_length]. *)
Lemma generate_sku_length_bound {unicode : CaseMapping} {store : Store}
    (self : SKUGenerator) (raw_code : str) (vendor_id : Z) (vendor_short : str)
    (product_id : option Z) (max_retries : Z) (db db' : DB)
    (sku : str) (st : SKUStatus) :
  len vendor_short + 2 <= max_sku_length self ->
  generate_sku self raw_code vendor_id vendor_short product_id max_retries db
  = (Returns (sku, st), db') ->
  st = INSERTED \/ st = CONFLICT_RESOLVED ->
  len sku <= max_sku_length self.
Proof.
  intros Hroom Hgen Hst. unfold generate_sku in Hgen.
  destruct (falsy raw_code || falsy vendor_short).
  { injection Hgen as _ <- _. destruct Hst; discriminate. }
  destruct (falsy (_slugify raw_code 40)).
  { injection Hgen as _ <- _. destruct Hst; discriminate. }
  pose proof (base_candidate_fits self vendor_short (_slugify raw_code 40) Hroom)
    as Hbase.
  destruct (write product_id _ vendor_id raw_code db) as [[[|]|e] db1].
  - injection Hgen as <- _ _. lia.
  - apply resolve_bounded in Hgen as [[-> _]|[_ Hlen]];
      [destruct Hst; discriminate | exact Hlen].
  - apply resolve_bounded in Hgen as [[-> _]|[_ Hlen]];
      [destruct Hst; discriminate | exact Hlen].
Qed.

(** C6 fails on the code: with the default [max_sku_length] of 64, a vendor
    namespace of 64 characters and the raw code "AB", the bound of the slice
    is [64 - 64 - 2 = -2], the slice ["AB"[:-2]] is empty, and the base
    candidate, the namespace followed by the separator, is inserted with its
    65 characters. *)
Theorem generate_sku_exceeds_max_length :
  let vendor_short :=
    lit "VVVVVVVVVVVVVVVVVVVVVVVVVVVVVVVVVVVVVVVVVVVVVVVVVVVVVVVVVVVVVVVV" in
  len vendor_short = 64
  /\ generate_sku (store := mock_store) default_generator (lit "AB") 1
       vendor_short None 5 tt
     = (Returns (vendor_short ++ lit "-", INSERTED), tt)
  /\ len (vendor_short ++ lit "-") = 65
  /\ max_sku_length default_generator = 64.
Proof. vm_compute. repeat split. Qed.

(** *** Store errors during collision resolution *)

Lemma encode_utf8_app_Some (a b : str) (x y : list N) :
  encode_utf8 a = Some x -> encode_utf8 b = Some y ->
  encode_utf8 (a ++ b) = Some (x ++ y).
Proof.
  revert x. induction a as [|c a IH]; intros x Ha Hb.
  - injection Ha as <-. exact Hb.
  - cbn [encode_utf8 app] in *.
    destruct (utf8_char c) as [bs|]; [|discriminate].
    destruct (encode_utf8 a) as [r|]; [|discriminate].
    injection Ha as <-.
    rewrite (IH r eq_refl Hb), <- app_assoc. reflexivity.
Qed.

Lemma encode_utf8_ascii (s : str) :
  Forall (fun c => (c < 128)%N) s -> exists bs, encode_utf8 s = Some bs.
Proof.
  induction 1 as [|c s Hc Hs [bs IH]]; [exists []; reflexivity|].
  cbn [encode_utf8]. unfold utf8_char.
  apply N.ltb_lt in Hc. rewrite Hc, IH. eexists. reflexivity.
Qed.

Lemma digits_fuel_ascii (fuel : nat) :
  forall (n : N) (acc : str),
  Forall (fun c => (c < 128)%N) acc ->
  Forall (fun c => (c < 128)%N) (digits_fuel fuel n acc).
Proof.
  induction fuel as [|fuel IH]; intros n acc Hacc; cbn [digits_fuel];
    [exact Hacc|].
  assert (Hd : (48 + n mod 10 < 128)%N).
  { pose proof (N.mod_upper_bound n 10). lia. }
  destruct (n <? 10)%N; [|apply IH]; constructor; assumption.
Qed.

Lemma str_of_int_ascii (z : Z) : Forall (fun c => (c < 128)%N) (str_of_int z).
Proof.
  unfold str_of_int, str_of_N.
  destruct (z <? 0); [constructor; [reflexivity|]|];
    apply digits_fuel_ascii; constructor.
Qed.

(** The hash input can be encoded whenever the raw code can. *)
Lemma hash_input_encodable (raw_code : str) (vendor_id attempt : Z) :
  encode_utf8 raw_code <> None ->
  exists bs, encode_utf8 (hash_input raw_code vendor_id attempt) = Some bs.
Proof.
  intros Hraw. unfold hash_input.
  destruct (encode_utf8 raw_code) as [r|] eqn:Er; [|contradiction].
  destruct (encode_utf8_ascii (str_of_int vendor_id) (str_of_int_ascii _))
    as [v Ev].
  destruct (encode_utf8_ascii (str_of_int attempt) (str_of_int_ascii _))
    as [a Ea].
  assert (Hcolon : encode_utf8 (lit ":") = Some [58%N]) by reflexivity.
  eexists.
  repeat (eapply encode_utf8_app_Some; [eassumption|]). exact Ea.
Qed.

Lemma short_hash_returns (value : str) (length : Z) :
  (exists bs, encode_utf8 value = Some bs) ->
  exists suffix, _short_hash value length = Returns suffix.
Proof.
  intros [bs Hbs]. unfold _short_hash. rewrite Hbs. eexists. reflexivity.
Qed.

Lemma write_failing (err : str -> exn) (product_id : option Z)
    (candidate : str) (vendor_id : Z) (raw_code : str) (db : list str) :
  write (store := failing_store err) product_id candidate vendor_id raw_code db
  = (Raises (err candidate), db ++ [candidate]).
Proof.
  unfold write. destruct product_id as [pid|]; [destruct (pid =? 0)|];
    reflexivity.
Qed.

Lemma resolve_failing (err : str -> exn) (self : SKUGenerator)
    (raw_code : str) (vendor_id : Z) (product_id : option Z) (base : str)
    (attempts : list Z) :
  encode_utf8 raw_code <> None ->
  forall db : list str,
  resolve (store := failing_store err) self raw_code vendor_id product_id base
          attempts db
  = (Returns ([], CONFLICT_UNRESOLVED),
     db ++ fitting_candidates self raw_code vendor_id base attempts).
Proof.
  intros Hraw.
  induction attempts as [|attempt rest IH]; intros db;
    cbn [resolve fitting_candidates].
  - rewrite app_nil_r. reflexivity.
  - destruct (short_hash_returns _
                (Z.min (hash_suffix_length self + attempt) 10)
                (hash_input_encodable raw_code vendor_id attempt Hraw))
      as [suffix ->].
    destruct (max_sku_length self <? len (base ++ lit "-" ++ suffix)).
    + apply IH.
    + rewrite write_failing, IH, <- app_assoc. reflexivity.
Qed.

Lemma write_raises {store : Store} (product_id : option Z) (candidate : str)
    (vendor_id : Z) (raw_code : str) (db : DB) :
  always_raises store ->
  exists e db',
    write product_id candidate vendor_id raw_code db = (Raises e, db').
Proof.
  intros [Hins Hupd]. unfold write.
  destruct product_id as [pid|]; [destruct (pid =? 0)|]; auto.
Qed.

Lemma resolve_raising {store : Store} (self : SKUGenerator) (raw_code : str)
    (vendor_id : Z) (product_id : option Z) (base : str) (attempts : list Z) :
  always_raises store -> encode_utf8 raw_code <> None ->
  forall db : DB, exists db',
  resolve self raw_code vendor_id product_id base attempts db
  = (Returns ([], CONFLICT_UNRESOLVED), db').
Proof.
  intros Hstore Hraw.
  induction attempts as [|attempt rest IH]; intros db; cbn [resolve].
  - eexists. reflexivity.
  - destruct (short_hash_returns _
                (Z.min (hash_suffix_length self + attempt) 10)
                (hash_input_encodable raw_code vendor_id attempt Hraw))
      as [suffix ->].
    destruct (max_sku_length self <? len (base ++ lit "-" ++ suffix)).
    + apply IH.
    + destruct (write_raises product_id (base ++ lit "-" ++ suffix) vendor_id
                  raw_code db Hstore) as (e & db1 & ->).
      apply IH.
Qed.

(** C1, as the code has it.  [generate_sku] catches every exception of a
    store write in the same way, whatever its kind, and goes on to the next
    candidate.  For every input that passes validation (and whose raw code can
    be encoded for hashing), when every write raises, the result is the empty
    identifier with [CONFLICT_UNRESOLVED]; and a store that records the
    writes it refuses shows that the base identifier and then each suffixed
    candidate that fits were all attempted, in order. *)
Theorem store_errors_are_retried {unicode : CaseMapping}
    (self : SKUGenerator) (raw_code : str) (vendor_id : Z) (vendor_short : str)
    (product_id : option Z) (max_retries : Z) :
  raw_code <> [] -> vendor_short <> [] -> _slugify raw_code 40 <> [] ->
  encode_utf8 raw_code <> None ->
  let base := base_candidate self vendor_short (_slugify raw_code 40) in
  (forall (store : Store) (db : DB),
     always_raises store ->
     fst (generate_sku self raw_code vendor_id vendor_short product_id
                       max_retries db)
     = Returns ([], CONFLICT_UNRESOLVED))
  /\ (forall (err : str -> exn) (db : list str),
        generate_sku (store := failing_store err) self raw_code vendor_id
                     vendor_short product_id max_retries db
        = (Returns ([], CONFLICT_UNRESOLVED),
           db ++ base :: fitting_candidates self raw_code vendor_id base
                           (range max_retries))).
Proof.
  intros Hraw Hvendor Hslug Henc base.
  apply falsy_false in Hraw, Hvendor, Hslug.
  split.
  - intros store db Hstore. unfold generate_sku.
    rewrite Hraw, Hvendor, Hslug. cbn [orb]. fold base.
    destruct (write_raises product_id base vendor_id raw_code db Hstore)
      as (e & db1 & ->).
    destruct (resolve_raising self raw_code vendor_id product_id base
                (range max_retries) Hstore Henc db1) as [db2 ->].
    reflexivity.
  - intros err db. unfold generate_sku.
    rewrite Hraw, Hvendor, Hslug. cbn [orb]. fold base.
    rewrite write_failing, (resolve_failing err); [|exact Henc].
    rewrite <- app_assoc. reflexivity.
Qed.

Lemma store_errors_are_retried_witness :
  (lit "BRIT10G" <> [] /\ lit "VEND" <> [] /\ _slugify (lit "BRIT10G") 40 <> []
   /\ encode_utf8 (lit "BRIT10G") <> None)
  /\ generate_sku (store := failing_store (fun _ => OperationalError))
       default_generator (lit "BRIT10G") 42 (lit "VEND") None 2 []
     = (Returns ([], CONFLICT_UNRESOLVED),
        [lit "VEND-BRIT10G"; lit "VEND-BRIT10G-MH3TU3";
         lit "VEND-BRIT10G-DHAATFZ"]).
Proof.
  assert (H1 : lit "BRIT10G" <> []) by discriminate.
  assert (H2 : lit "VEND" <> []) by discriminate.
  assert (H3 : _slugify (lit "BRIT10G") 40 <> []) by discriminate.
  assert (H4 : encode_utf8 (lit "BRIT10G") <> None) by discriminate.
  split; [repeat split; assumption|].
  exact (proj2 (store_errors_are_retried default_generator (lit "BRIT10G") 42
                  (lit "VEND") None 2 H1 H2 H3 H4)
               (fun _ => OperationalError) []).
Defined.

(** C1, as stated, fails: against a store whose every insert raises an error
    that is not a uniqueness conflict, [generate_sku] with the default five
    retries makes six insert attempts and reports [CONFLICT_UNRESOLVED]. *)
Lemma store_error_counterexample :
  generate_sku (store := failing_store (fun _ => OperationalError))
    default_generator (lit "BRIT10G") 42 (lit "VEND") None 5 []
  = (Returns ([], CONFLICT_UNRESOLVED),
     [lit "VEND-BRIT10G"; lit "VEND-BRIT10G-MH3TU3";
      lit "VEND-BRIT10G-DHAATFZ"; lit "VEND-BRIT10G-A6W1XJRZ";
      lit "VEND-BRIT10G-17291LN6X"; lit "VEND-BRIT10G-05L9Y64Q02"]).
Proof. vm_compute. reflexivity. Qed.

(** *** Scenarios *)

Example scenario_A :
  generate_sku (store := unique_store) default_generator (lit "BRIT10G") 100
    (lit "BRIT") None 5 []
  = (Returns (lit "BRIT-BRIT10G", INSERTED), [lit "BRIT-BRIT10G"]).
Proof. vm_compute. reflexivity. Qed.

Example scenario_B :
  generate_sku (store := unique_store) default_generator (lit "britc10g") 100
    (lit "BRIT") None 5 [lit "BRIT-BRIT10G"]
  = (Returns (lit "BRIT-BRITC10G", INSERTED),
     [lit "BRIT-BRITC10G"; lit "BRIT-BRIT10G"]).
Proof. vm_compute. reflexivity. Qed.

Example collision_resolved :
  generate_sku (store := unique_store) default_generator (lit "BRIT10G") 42
    (lit "VEND") None 5 [lit "VEND-BRIT10G"]
  = (Returns (lit "VEND-BRIT10G-MH3TU3", CONFLICT_RESOLVED),
     [lit "VEND-BRIT10G-MH3TU3"; lit "VEND-BRIT10G"]).
Proof. vm_compute. reflexivity. Qed.

End sku_generator_spec.

(** ** Comparisons *)

Module PyFloatFacts.
Local Open Scope Q_scope.

Lemma ge_true (a b : Q) : PyFloat.ge a b = true <-> b <= a.
Proof. unfold PyFloat.ge. apply Qle_bool_iff. Qed.

Lemma ge_false (a b : Q) : PyFloat.ge a b = false <-> a < b.
Proof.
  unfold PyFloat.ge. rewrite <- not_true_iff_false, Qle_bool_iff.
  split; [apply Qnot_le_lt | apply Qlt_not_le].
Qed.

Lemma lt_true (a b : Q) : PyFloat.lt a b = true <-> a < b.
Proof.
  unfold PyFloat.lt. rewrite negb_true_iff. apply (ge_false a b).
Qed.

Lemma lt_false (a b : Q) : PyFloat.lt a b = false <-> b <= a.
Proof.
  unfold PyFloat.lt. rewrite negb_false_iff. apply (ge_true a b).
Qed.

End PyFloatFacts.

(** ** The image validator *)

Module image_validator_spec.
Import PyStr image_validator PyFloatFacts.
Local Open Scope Q_scope.

(** *** The decision policy *)

Ltac policy_cases :=
  repeat split; intros;
  repeat match goal with H : _ /\ _ |- _ => destruct H end;
  try discriminate; try reflexivity; try lra; auto.

(** C4.  With [accept_score_threshold > review_score_threshold], every score
    gets one of the three statuses, with both boundaries inclusive on the
    upper tier: accepted exactly from the accept threshold up, needing review
    exactly from the review threshold up to but not including the accept
    threshold, rejected exactly below the review threshold.  The statement
    holds for every rational score, so for every score of [0,1]. *)
Theorem decision_policy_total (self : ImageValidator) (overall_score : Q) :
  review_score_threshold self < accept_score_threshold self ->
  let st := fst (determine_status self overall_score) in
  (st = AUTO_ACCEPTED \/ st = NEEDS_REVIEW \/ st = AUTO_REJECTED)
  /\ (st = AUTO_ACCEPTED <-> accept_score_threshold self <= overall_score)
  /\ (st = NEEDS_REVIEW <->
        review_score_threshold self <= overall_score
        /\ overall_score < accept_score_threshold self)
  /\ (st = AUTO_REJECTED <-> overall_score < review_score_threshold self).
Proof.
  intros Hthr. unfold determine_status.
  destruct (PyFloat.ge overall_score (accept_score_threshold self)) eqn:Ea;
    [|destruct (PyFloat.ge overall_score (review_score_threshold self)) eqn:Er];
    cbn [fst].
  - apply ge_true in Ea. policy_cases.
  - apply ge_false in Ea. apply ge_true in Er. policy_cases.
  - apply ge_false in Ea, Er. policy_cases.
Qed.

Lemma decision_policy_total_witness :
  review_score_threshold default_validator
    < accept_score_threshold default_validator
  /\ (let st := fst (determine_status default_validator 0.72) in
      (st = AUTO_ACCEPTED \/ st = NEEDS_REVIEW \/ st = AUTO_REJECTED)
      /\ (st = AUTO_ACCEPTED
          <-> accept_score_threshold default_validator <= 0.72)
      /\ (st = NEEDS_REVIEW <->
            review_score_threshold default_validator <= 0.72
            /\ 0.72 < accept_score_threshold default_validator)
      /\ (st = AUTO_REJECTED
          <-> 0.72 < review_score_threshold default_validator)).
Proof.
  assert (H : review_score_threshold default_validator
              < accept_score_threshold default_validator) by reflexivity.
  split; [exact H|].
  exact (decision_policy_total default_validator 0.72 H).
Defined.

Example scenario_C : fst (determine_status default_validator 0.92) = AUTO_ACCEPTED.
Proof. reflexivity. Qed.

Example scenario_D : fst (determine_status default_validator 0.72) = NEEDS_REVIEW.
Proof. reflexivity. Qed.

Example scenario_E : fst (determine_status default_validator 0.55) = AUTO_REJECTED.
Proof. reflexivity. Qed.

Example boundaries :
  fst (determine_status default_validator 0.85) = AUTO_ACCEPTED
  /\ fst (determine_status default_validator 0.70) = NEEDS_REVIEW.
Proof. split; reflexivity. Qed.


(** *** Monotonicity *)

Lemma determine_status_monotone (self : ImageValidator) (o o' : Q) :
  o <= o' ->
  (strictness (fst (determine_status self o'))
   <= strictness (fst (determine_status self o)))%Z.
Proof.
  intros Hle. unfold determine_status.
  destruct (PyFloat.ge o (accept_score_threshold self)) eqn:Ea;
    destruct (PyFloat.ge o' (accept_score_threshold self)) eqn:Ea';
    destruct (PyFloat.ge o (review_score_threshold self)) eqn:Er;
    destruct (PyFloat.ge o' (review_score_threshold self)) eqn:Er';
    cbn [fst strictness]; try lia;
    repeat match goal with
           | H : PyFloat.ge _ _ = true |- _ => apply ge_true in H
           | H : PyFloat.ge _ _ = false |- _ => apply ge_false in H
           end; lra.
Qed.

(** A rounded product by a non-negative weight, and a rounded sum, grow with
    their arguments. *)
Lemma mul_monotone {rounding : PyFloat.Rounding} (w a b : Q) :
  0 <= w -> a <= b -> PyFloat.mul w a <= PyFloat.mul w b.
Proof. intros Hw Hab. apply PyFloat.round_le. nra. Qed.

Lemma add_monotone {rounding : PyFloat.Rounding} (a a' b b' : Q) :
  a <= a' -> b <= b' -> PyFloat.add a b <= PyFloat.add a' b'.
Proof. intros Ha Hb. apply PyFloat.round_le. lra. Qed.

Lemma weighted_sum_monotone {rounding : PyFloat.Rounding}
    (w1 w2 w3 w4 w5 bg bl cov det sim bg' bl' cov' det' sim' : Q) :
  0 <= w1 -> 0 <= w2 -> 0 <= w3 -> 0 <= w4 -> 0 <= w5 ->
  bg <= bg' -> bl <= bl' -> cov <= cov' -> det <= det' -> sim <= sim' ->
  weighted_sum w1 w2 w3 w4 w5 bg bl cov det sim
  <= weighted_sum w1 w2 w3 w4 w5 bg' bl' cov' det' sim'.
Proof.
  intros. unfold weighted_sum.
  repeat first [apply add_monotone | apply mul_monotone]; assumption.
Qed.

Lemma status_score_checks {rounding : PyFloat.Rounding} (self : ImageValidator)
    (bg bl cov det sim o : Q) :
  weighted_score self bg bl cov det sim = Returns o ->
  status (score_checks self bg bl cov det sim) = fst (determine_status self o).
Proof.
  intros Ho. unfold score_checks. rewrite Ho.
  destruct (determine_status self o). reflexivity.
Qed.

(** Raising any of the five scores never gives a stricter tier. *)
Lemma score_checks_monotone {rounding : PyFloat.Rounding}
    (self : ImageValidator) (bg bl cov det sim bg' bl' cov' det' sim' : Q) :
  nonnegative_weights self ->
  bg <= bg' -> bl <= bl' -> cov <= cov' -> det <= det' -> sim <= sim' ->
  (strictness (status (score_checks self bg' bl' cov' det' sim'))
   <= strictness (status (score_checks self bg bl cov det sim)))%Z.
Proof.
  intros Hw Hbg Hbl Hcov Hdet Hsim.
  destruct (weighted_score self bg bl cov det sim) as [o|e] eqn:Eo.
  - unfold weighted_score in Eo.
    destruct (weights self !! "background_white"%string) as [w1|] eqn:E1;
      [|discriminate].
    destruct (weights self !! "blur"%string) as [w2|] eqn:E2; [|discriminate].
    destruct (weights self !! "object_coverage"%string) as [w3|] eqn:E3;
      [|discriminate].
    destruct (weights self !! "object_detection"%string) as [w4|] eqn:E4;
      [|discriminate].
    destruct (weights self !! "perceptual_similarity"%string) as [w5|] eqn:E5;
      [|discriminate].
    injection Eo as <-.
    apply Hw in E1 as P1. apply Hw in E2 as P2. apply Hw in E3 as P3.
    apply Hw in E4 as P4. apply Hw in E5 as P5.
    erewrite !status_score_checks;
      [| unfold weighted_score; rewrite E1, E2, E3, E4, E5; reflexivity
       | unfold weighted_score; rewrite E1, E2, E3, E4, E5; reflexivity].
    apply determine_status_monotone, weighted_sum_monotone; assumption.
  - assert (Eo' : weighted_score self bg' bl' cov' det' sim' = Raises KeyError).
    { unfold weighted_score in *.
      destruct (weights self !! "background_white"%string); [|reflexivity].
      destruct (weights self !! "blur"%string); [|reflexivity].
      destruct (weights self !! "object_coverage"%string); [|reflexivity].
      destruct (weights self !! "object_detection"%string); [|reflexivity].
      destruct (weights self !! "perceptual_similarity"%string);
        [discriminate | reflexivity]. }
    unfold score_checks. rewrite Eo, Eo'. cbn. lia.
Qed.

(** C5.  Under non-negative weights, replacing the score of a single check by
    a higher one, the other four being held fixed, never moves the outcome to
    a stricter tier ([AUTO_ACCEPTED] before [NEEDS_REVIEW] before
    [AUTO_REJECTED]).  The statement holds for all scores, so for those of
    [0,1]^5, for any pair of thresholds, and whatever the rounding of the
    products and sums, as long as it is monotone. *)
Theorem monotone_outcome {rounding : PyFloat.Rounding} (self : ImageValidator)
    (v : score_vector) (i : check) (x : Q) :
  nonnegative_weights self ->
  v i <= x ->
  (strictness (score_vector_status self (with_score v i x))
   <= strictness (score_vector_status self v))%Z.
Proof.
  intros Hw Hx. unfold score_vector_status.
  apply score_checks_monotone; [exact Hw|..];
    destruct i; cbn [with_score check_eqb]; first [exact Hx | apply Qle_refl].
Qed.

Lemma default_weights_nonnegative : nonnegative_weights default_validator.
Proof.
  intros k w H. cbn [weights default_validator] in H. unfold default_weights in H.
  repeat (apply lookup_insert_Some in H as [[_ <-]|[_ H]]; [discriminate|]).
  rewrite lookup_empty in H. discriminate.
Qed.

Lemma monotone_outcome_witness :
  (nonnegative_weights default_validator /\ (0.5 <= 0.9))
  /\ (strictness (score_vector_status (rounding := PyFloat.exact) default_validator
                    (with_score (fun _ => 0.5%Q) blur 0.9%Q))
      <= strictness (score_vector_status (rounding := PyFloat.exact) default_validator
                       (fun _ => 0.5%Q)))%Z.
Proof.
  assert (H1 : nonnegative_weights default_validator)
    by exact default_weights_nonnegative.
  assert (H2 : 0.5 <= 0.9) by discriminate.
  split; [split; assumption|].
  exact (monotone_outcome (rounding := PyFloat.exact) default_validator
           (fun _ => 0.5) blur 0.9 H1 H2).
Defined.

(** *** The similarity score without a reference *)







End image_validator_spec.

(** ** The review queue *)

Module review_queue_spec.
Import PyStr review_queue PyFloatFacts.

(** *** Priority and due date of a new task *)

Lemma compute_priority_bands (validation_score : Q) :
  ((validation_score < 0.40)%Q -> _compute_priority validation_score = 1)
  /\ ((0.40 <= validation_score)%Q -> (validation_score < 0.55)%Q ->
      _compute_priority validation_score = 2)
  /\ ((0.55 <= validation_score)%Q -> (validation_score < 0.70)%Q ->
      _compute_priority validation_score = 3)
  /\ ((0.70 <= validation_score)%Q -> (validation_score < 0.80)%Q ->
      _compute_priority validation_score = 4)
  /\ ((0.80 <= validation_score)%Q -> _compute_priority validation_score = 5).
Proof.
  unfold _compute_priority.
  destruct (PyFloat.lt validation_score 0.40) eqn:E1;
    [|destruct (PyFloat.lt validation_score 0.55) eqn:E2;
      [|destruct (PyFloat.lt validation_score 0.70) eqn:E3;
        [|destruct (PyFloat.lt validation_score 0.80) eqn:E4]]];
    repeat match goal with
           | H : PyFloat.lt _ _ = true |- _ => apply lt_true in H
           | H : PyFloat.lt _ _ = false |- _ => apply lt_false in H
           end;
    repeat split; intros; try reflexivity; lra.
Qed.

Lemma timedelta_valid (hours : Z) :
  -999999999 <= hours / 24 <= 999999999 ->
  timedelta hours = Returns (timedelta_hours hours).
Proof.
  intros [Hlo Hhi]. unfold timedelta.
  rewrite (proj2 (Z.leb_le _ _) Hlo), (proj2 (Z.leb_le _ _) Hhi). reflexivity.
Qed.

Lemma datetime_add_valid (t d : Z) :
  datetime_min <= t + d <= datetime_max -> datetime_add t d = Returns (t + d).
Proof.
  intros [Hlo Hhi]. unfold datetime_add.
  rewrite (proj2 (Z.leb_le _ _) Hlo), (proj2 (Z.leb_le _ _) Hhi). reflexivity.
Qed.

(** [create_review_task] returns exactly when the due date can be computed,
    and raises [OverflowError] otherwise, after logging the failure. *)
Lemma create_review_task_outcome (rt : Runtime) (self : ReviewQueue)
    (product_id : Z) (canonical_sku : str) (validation_score : Q)
    (priority sla_hours : option Z) (log : Log) :
  let hours := int_or sla_hours (default_sla_hours self) in
  let chosen :=
    if is_None priority && enable_priority_assignment self
    then _compute_priority validation_score
    else int_or priority 3 in
  (valid_due_date (now rt) hours ->
   create_review_task rt self product_id canonical_sku validation_score
                      priority sla_hours log
   = (Returns {| created_priority := chosen;
                 created_sla_hours := hours;
                 created_due_by := now rt + timedelta_hours hours;
                 created_task_uuid := uuid4 rt;
                 created_id := hash rt (uuid4 rt) mod 1000000 |},
      log ++ [Created_review_task (uuid4 rt) product_id canonical_sku
                validation_score chosen]))
  /\ (~ valid_due_date (now rt) hours ->
      create_review_task rt self product_id canonical_sku validation_score
                         priority sla_hours log
      = (Raises OverflowError,
         log ++ [Failed_to_create_review_task OverflowError])).
Proof.
  cbv zeta. unfold create_review_task, valid_due_date.
  set (hours := int_or sla_hours (default_sla_hours self)). split.
  - intros [Hdays Hdate].
    rewrite (timedelta_valid hours Hdays), (datetime_add_valid _ _ Hdate).
    reflexivity.
  - intros Hno. unfold timedelta.
    destruct ((-999999999 <=? hours / 24) && (hours / 24 <=? 999999999))
      eqn:Edays; [|reflexivity].
    unfold datetime_add.
    destruct ((datetime_min <=? now rt + timedelta_hours hours)
              && (now rt + timedelta_hours hours <=? datetime_max))
      eqn:Edate; [|reflexivity].
    exfalso. apply Hno.
    apply andb_prop in Edays as [H1 H2]. apply andb_prop in Edate as [H3 H4].
    apply Z.leb_le in H1, H2, H3, H4. repeat split; assumption.
Qed.

(** C8, as the code has it.  The hours of the due date are [sla_hours] when a
    non-zero value is passed, and [default_sla_hours] (48 unless configured)
    when [sla_hours] is left out or zero.  When the creation time plus these
    hours is a date that [datetime] can hold, the task is created with that
    due date; without a priority override, a queue built with
    [enable_priority_assignment] (the default) gives it the priority of the
    score's band, and a queue built without it gives priority 3.  Otherwise
    no task is created: the call raises [OverflowError]. *)
Theorem create_review_task_priority_and_due (rt : Runtime) (self : ReviewQueue)
    (product_id : Z) (canonical_sku : str) (validation_score : Q)
    (sla_hours : option Z) (log : Log) :
  let hours := int_or sla_hours (default_sla_hours self) in
  let result :=
    fst (create_review_task rt self product_id canonical_sku validation_score
                            None sla_hours log) in
  (forall h : Z, sla_hours = Some h -> h <> 0 -> hours = h)
  /\ (sla_hours = None \/ sla_hours = Some 0 -> hours = default_sla_hours self)
  /\ (valid_due_date (now rt) hours ->
      exists task : Created,
        result = Returns task
        /\ (enable_priority_assignment self = true ->
            ((validation_score < 0.40)%Q -> created_priority task = 1)
            /\ ((0.40 <= validation_score)%Q -> (validation_score < 0.55)%Q ->
                created_priority task = 2)
            /\ ((0.55 <= validation_score)%Q -> (validation_score < 0.70)%Q ->
                created_priority task = 3)
            /\ ((0.70 <= validation_score)%Q -> (validation_score < 0.80)%Q ->
                created_priority task = 4)
            /\ ((0.80 <= validation_score)%Q -> created_priority task = 5))
        /\ (enable_priority_assignment self = false ->
            created_priority task = 3)
        /\ created_due_by task = now rt + timedelta_hours hours)
  /\ (~ valid_due_date (now rt) hours -> result = Raises OverflowError).
Proof.
  cbv zeta.
  destruct (create_review_task_outcome rt self product_id canonical_sku
              validation_score None sla_hours log) as [Hret Hraise].
  cbv zeta in Hret, Hraise. cbn [is_None andb] in Hret.
  split; [|split; [|split]].
  - intros h -> Hh. cbn [int_or]. apply Z.eqb_neq in Hh. rewrite Hh. reflexivity.
  - intros [->| ->]; reflexivity.
  - intros Hvalid. rewrite (Hret Hvalid). cbn [fst].
    eexists. split; [reflexivity|]. cbn [created_priority created_due_by].
    split; [intros ->; apply compute_priority_bands|].
    split; [intros ->; reflexivity | reflexivity].
  - intros Hno. rewrite (Hraise Hno). reflexivity.
Qed.

(** Scenario D: a score of 0.72 on the default queue gives priority 4 and a due
    date exactly 48 hours after creation. *)
Lemma create_review_task_priority_and_due_witness :
  let rt := {| now := 1762128000000000; uuid4 := lit "0f8fad5b";
               hash := fun _ => 7 |} in
  (valid_due_date (now rt) 48
   /\ enable_priority_assignment default_queue = true
   /\ (0.70 <= 0.72)%Q /\ (0.72 < 0.80)%Q)
  /\ exists task : Created,
       fst (create_review_task rt default_queue 123 (lit "BRIT-BRIT10G") 0.72
                               None None [])
       = Returns task
       /\ created_priority task = 4
       /\ created_due_by task = now rt + 48 * 3600000000.
Proof.
  intros rt.
  assert (Hv : valid_due_date (now rt) 48) by (vm_compute; intuition discriminate).
  assert (H0 : enable_priority_assignment default_queue = true) by reflexivity.
  assert (H1 : (0.70 <= 0.72)%Q) by discriminate.
  assert (H2 : (0.72 < 0.80)%Q) by reflexivity.
  split; [repeat split; assumption|].
  destruct (create_review_task_priority_and_due rt default_queue 123
              (lit "BRIT-BRIT10G") 0.72 None []) as (_ & _ & Hret & _).
  destruct (Hret Hv) as (task & Htask & Hp & _ & Hd).
  exists task. split; [exact Htask|]. split.
  - exact (proj1 (proj2 (proj2 (proj2 (Hp H0)))) H1 H2).
  - exact Hd.
Defined.

(** C8, as stated, fails: on a queue built with
    [enable_priority_assignment=False], a task with score 0.20 and no priority
    override gets priority 3, not 1. *)
Lemma priority_gate_counterexample :
  let rt := {| now := 1762128000000000; uuid4 := lit "0f8fad5b";
               hash := fun _ => 7 |} in
  let self := {| default_sla_hours := 48; enable_priority_assignment := false |} in
  (0.20 < 0.40)%Q
  /\ exists task : Created,
       fst (create_review_task rt self 123 (lit "BRIT-BRIT10G") 0.20
                               None None [])
       = Returns task
       /\ created_priority task = 3 /\ created_priority task <> 1.
Proof.
  intros rt self. split; [reflexivity|].
  eexists. split; [vm_compute; reflexivity|]. split; [reflexivity | discriminate].
Qed.

(** An SLA of ten thousand years has no due date: the call raises
    [OverflowError] and only the failure is logged. *)
Example create_review_task_overflow :
  let rt := {| now := 1762128000000000; uuid4 := lit "0f8fad5b";
               hash := fun _ => 7 |} in
  create_review_task rt default_queue 123 (lit "BRIT-BRIT10G") 0.72
                     None (Some 87660000) []
  = (Raises OverflowError, [Failed_to_create_review_task OverflowError]).
Proof. vm_compute. reflexivity. Qed.

(** *** Decisions *)

Lemma decisions_recorded_app (task_id : Z) (l1 l2 : Log) :
  decisions_recorded task_id (l1 ++ l2)
  = decisions_recorded task_id l1 ++ decisions_recorded task_id l2.
Proof. unfold decisions_recorded. apply flat_map_app. Qed.

Lemma submit_review_decision_records (self : ReviewQueue) (review_task_id : Z)
    (decision : ReviewDecision.t) (reviewer_id : Z)
    (decision_reason reviewer_notes : option str) (reviewer_confidence : Z)
    (corrected_image_url : option str) (log : Log) :
  fst (submit_review_decision self review_task_id decision reviewer_id
         decision_reason reviewer_notes reviewer_confidence
         corrected_image_url log) = true
  /\ decisions_recorded review_task_id
       (snd (submit_review_decision self review_task_id decision reviewer_id
               decision_reason reviewer_notes reviewer_confidence
               corrected_image_url log))
     = decisions_recorded review_task_id log ++ [decision].
Proof.
  split; [reflexivity|].
  unfold submit_review_decision. cbn [snd].
  destruct decision; rewrite ?decisions_recorded_app;
    cbn [decisions_recorded flat_map]; rewrite Z.eqb_refl;
    cbn [app]; rewrite ?app_nil_r; reflexivity.
Qed.

(** C3, as the code has it.  [submit_review_decision] looks at no task state:
    for every task, terminal or not, and every sequence of decisions
    submitted for it, each call returns [True] and each decision is recorded
    after those already there. *)
Theorem submit_review_decision_always_succeeds (self : ReviewQueue)
    (task : ReviewTask) (reviewer_id : Z) (decisions : list ReviewDecision.t) :
  forall log : Log,
  fst (submit_all self (id task) reviewer_id decisions log)
  = repeat true (length decisions)
  /\ decisions_recorded (id task)
       (snd (submit_all self (id task) reviewer_id decisions log))
     = decisions_recorded (id task) log ++ decisions.
Proof.
  induction decisions as [|d rest IH]; intros log; cbn [submit_all].
  - cbn. rewrite app_nil_r. split; reflexivity.
  - destruct (submit_review_decision self (id task) d reviewer_id
                None None 5 None log) as [ok log1] eqn:E1.
    pose proof (submit_review_decision_records self (id task) d reviewer_id
                  None None 5 None log) as [Hok Hrec].
    rewrite E1 in Hok, Hrec. cbn [fst snd] in Hok, Hrec. subst ok.
    destruct (submit_all self (id task) reviewer_id rest log1)
      as [oks log2] eqn:E2.
    specialize (IH log1). rewrite E2 in IH. cbn [fst snd] in IH.
    destruct IH as [IH1 IH2]. cbn [fst snd length repeat].
    rewrite IH1, IH2, Hrec, <- app_assoc. split; reflexivity.
Qed.

(** C3, as stated, fails: a task that is already [ACCEPTED], with its decision
    on record, is submitted a [REJECTED] decision; the call returns [True] and
    a second decision is recorded. *)
Lemma redecision_counterexample :
  let log :=
    [Recording_review_decision 7 ReviewDecision.ACCEPTED 42 5;
     Marked_for_training 7] in
  let second :=
    submit_review_decision default_queue (id accepted_task)
      ReviewDecision.REJECTED 42 None None 5 None log in
  terminal (status accepted_task) = true
  /\ fst second = true
  /\ decisions_recorded (id accepted_task) (snd second)
     = [ReviewDecision.ACCEPTED; ReviewDecision.REJECTED].
Proof. vm_compute. repeat split. Qed.

End review_queue_spec.

(** ** The in-memory endpoint of [run_server.py] *)

Module run_server_spec.
Import PyStr run_server.

Lemma has_id_decided (v : value) (d : gmap string value) (a b c e f g : value) :
  has_id v
    (<["reviewed_at" := a]> (<["reviewer_confidence" := b]>
     (<["feedback" := c]> (<["reviewer_notes" := e]>
     (<["reviewed_by" := f]> (<["status" := g]> d))))))
  = has_id v d.
Proof.
  unfold has_id. rewrite !lookup_insert_ne by discriminate. reflexivity.
Qed.

Lemma find_update_first {A} (p : A -> bool) (f : A -> A) (l : list A) (x : A) :
  (forall y, p (f y) = p y) ->
  find p l = Some x -> find p (update_first p f l) = Some (f x).
Proof.
  intros Hp. induction l as [|y l IH]; cbn [find update_first]; [discriminate|].
  destruct (p y) eqn:E.
  - intros [= ->]. cbn [find]. rewrite Hp, E. reflexivity.
  - intros Hx. cbn [find]. rewrite E. apply IH, Hx.
Qed.

(** The endpoint has no guard either: whatever the status of the task found,
    the decision of the request replaces it. *)
Lemma submit_overwrites_status (request : SubmitReviewDecisionRequest)
    (user_name : str) (now : Z) (reg : Registry) (task : gmap string value) :
  find (has_id (VInt (review_task_id request))) (review_tasks reg) = Some task ->
  fst (submit_review_decision request user_name now reg)
  = Recorded (review_task_id request) (decision request)
  /\ task_status (review_task_id request)
       (snd (submit_review_decision request user_name now reg))
     = Some (VStr (decision request)).
Proof.
  intros Hfind. unfold submit_review_decision, task_status. rewrite Hfind.
  cbn [fst snd review_tasks]. split; [reflexivity|].
  erewrite find_update_first; [| intros y; apply has_id_decided | exact Hfind].
  rewrite !lookup_insert_ne by discriminate. apply lookup_insert_eq.
Qed.

Example accepted_then_rejected :
  let task : gmap string value :=
    <["id" := VInt 1]> (<["submission_id" := VInt 1]>
    (<["status" := VStr (lit "accepted")]> ∅)) in
  let reg := {| review_tasks := [task]; submissions_db := [] |} in
  let request :=
    {| review_task_id := 1; decision := lit "rejected"; reviewer_id := 3;
       reviewer_notes := None; reviewer_confidence := 5;
       feedback_message := None |} in
  task_status 1 reg = Some (VStr (lit "accepted"))
  /\ fst (submit_review_decision request (lit "official") 0 reg)
     = Recorded 1 (lit "rejected")
  /\ task_status 1 (snd (submit_review_decision request (lit "official") 0 reg))
     = Some (VStr (lit "rejected")).
Proof. vm_compute. repeat split. Qed.

End run_server_spec.

(** * Further properties of the code *)

(** ** The SKU generator: what it returns *)

Module sku_generator_results.
Import PyStr PyStrFacts sku_generator sku_generator_spec.

(** *** Slugs and suffixes *)

(** X1.  A slug is made of the characters [A]..[Z] and [0]..[9] only, whatever
    the bound of the slice; in particular the separator never occurs in it. *)
Theorem slug_characters `{CaseMapping} (code : str) (max_len : Z) (c : codepoint) :
  In c (_slugify code max_len) ->
  ((65 <= c <= 90)%N \/ (48 <= c <= 57)%N) /\ c <> 45%N.
Proof.
  intros Hin.
  pose proof (slugify_AZ09 code max_len) as Hall.
  rewrite List.Forall_forall in Hall. specialize (Hall c Hin).
  unfold is_AZ09 in Hall.
  apply orb_prop in Hall as [Hc|Hc]; apply andb_prop in Hc as [H1 H2];
    apply N.leb_le in H1, H2; split; lia.
Qed.

Lemma slug_characters_witness :
  In 66%N (_slugify (lit "a-b") 40)
  /\ (((65 <= 66 <= 90)%N \/ (48 <= 66 <= 57)%N) /\ 66%N <> 45%N).
Proof.
  assert (Hin : In 66%N (_slugify (lit "a-b") 40)) by (vm_compute; tauto).
  split; [exact Hin|].
  exact (slug_characters (lit "a-b") 40 66%N Hin).
Defined.

Lemma alphabet_AZ09 : Forall (fun c => is_AZ09 c = true) alphabet.
Proof. unfold alphabet. vm_compute. repeat constructor. Qed.

Lemma base36_digits_shape (count : nat) :
  forall val : Z,
  length (base36_digits count val) = count
  /\ Forall (fun c => is_AZ09 c = true) (base36_digits count val).
Proof.
  induction count as [|count IH]; intros val; cbn [base36_digits].
  - split; [reflexivity | constructor].
  - destruct (IH (val / len alphabet)) as [Hlen Hall].
    split; [cbn [length]; rewrite Hlen; reflexivity|].
    constructor; [|exact Hall].
    pose proof alphabet_AZ09 as Ha. rewrite List.Forall_forall in Ha.
    apply Ha, nth_In.
    assert (Hl : len alphabet = 36) by reflexivity.
    assert (Hn : length alphabet = 36%nat) by reflexivity.
    rewrite Hl, Hn.
    pose proof (Z.mod_pos_bound val 36 ltac:(lia)). lia.
Qed.

(** X2.  For a value that can be encoded, [_short_hash] returns a string of
    exactly [max(0, length)] characters, each of them a digit or an upper-case
    letter. *)
Theorem short_hash_shape (value : str) (length : Z) :
  encode_utf8 value <> None ->
  exists suffix : str,
    _short_hash value length = Returns suffix
    /\ len suffix = Z.max 0 length
    /\ Forall (fun c => is_AZ09 c = true) suffix.
Proof.
  intros Henc. unfold _short_hash.
  destruct (encode_utf8 value) as [bytes|]; [|contradiction].
  eexists. split; [reflexivity|].
  destruct (base36_digits_shape (Z.to_nat length)
              (Hashlib.int16 (slice_to (Hashlib.sha1_hexdigest bytes) 12)))
    as [Hlen Hall].
  split; [unfold len; rewrite Hlen; lia | exact Hall].
Qed.

Lemma short_hash_shape_witness :
  encode_utf8 (lit "BRIT10G:42:0") <> None
  /\ exists suffix : str,
       _short_hash (lit "BRIT10G:42:0") 6 = Returns suffix
       /\ len suffix = Z.max 0 6
       /\ Forall (fun c => is_AZ09 c = true) suffix.
Proof.
  assert (H : encode_utf8 (lit "BRIT10G:42:0") <> None) by discriminate.
  split; [exact H|].
  exact (short_hash_shape (lit "BRIT10G:42:0") 6 H).
Defined.

(** *** The identifier and status returned *)

Lemma in_range (n a : Z) : In a (range n) <-> 0 <= a < n.
Proof.
  unfold range. rewrite in_map_iff. split.
  - intros (k & <- & Hk). apply in_seq in Hk. lia.
  - intros Ha. exists (Z.to_nat a). split; [lia|]. apply in_seq. lia.
Qed.

Lemma base_candidate_prefix (self : SKUGenerator) (vendor_short slug : str) :
  exists rest, base_candidate self vendor_short slug
               = vendor_short ++ lit "-" ++ rest.
Proof.
  unfold base_candidate.
  destruct (available_for_suffix self vendor_short slug <? 0); eexists;
    reflexivity.
Qed.

(** What the retry loop can return, and from which write. *)
Lemma resolve_outcome {store : Store} (self : SKUGenerator) (raw_code : str)
    (vendor_id : Z) (product_id : option Z) (base : str) (attempts : list Z) :
  forall (db db' : DB) (sku : str) (st : SKUStatus),
  resolve self raw_code vendor_id product_id base attempts db
  = (Returns (sku, st), db') ->
  (st = CONFLICT_UNRESOLVED /\ sku = [])
  \/ (st = CONFLICT_RESOLVED
      /\ exists (attempt : Z) (suffix : str) (db0 : DB),
           In attempt attempts
           /\ _short_hash (hash_input raw_code vendor_id attempt)
                (Z.min (hash_suffix_length self + attempt) 10)
              = Returns suffix
           /\ sku = base ++ lit "-" ++ suffix
           /\ len sku <= max_sku_length self
           /\ write product_id sku vendor_id raw_code db0 = (Returns true, db')).
Proof.
  induction attempts as [|attempt rest IH]; intros db db' sku st Hres;
    cbn [resolve] in Hres.
  - injection Hres as <- <- _. left. split; reflexivity.
  - assert (Hrest : forall db1,
      resolve self raw_code vendor_id product_id base rest db1
      = (Returns (sku, st), db') ->
      (st = CONFLICT_UNRESOLVED /\ sku = [])
      \/ (st = CONFLICT_RESOLVED
          /\ exists (a : Z) (suffix : str) (db0 : DB),
               In a (attempt :: rest)
               /\ _short_hash (hash_input raw_code vendor_id a)
                    (Z.min (hash_suffix_length self + a) 10)
                  = Returns suffix
               /\ sku = base ++ lit "-" ++ suffix
               /\ len sku <= max_sku_length self
               /\ write product_id sku vendor_id raw_code db0
                  = (Returns true, db'))).
    { intros db1 H1. destruct (IH _ _ _ _ H1) as [Hl|[Hs (a & sf & db0 & Hin & Hr)]];
        [left; exact Hl|].
      right. split; [exact Hs|]. exists a, sf, db0.
      split; [right; exact Hin | exact Hr]. }
    destruct (_short_hash _ _) as [suffix|e] eqn:Eh; [|discriminate].
    destruct (Z.ltb_spec (max_sku_length self) (len (base ++ lit "-" ++ suffix)))
      as [Hlong|Hfit]; [eapply Hrest, Hres|].
    destruct (write product_id _ vendor_id raw_code db) as [[[|]|e] db1] eqn:Ew;
      [| eapply Hrest, Hres | eapply Hrest, Hres].
    injection Hres as <- <- <-. right. split; [reflexivity|].
    exists attempt, suffix, db.
    repeat split; [left; reflexivity | exact Eh | exact Hfit | exact Ew].
Qed.

(** What [generate_sku] can return, and from which write. *)
Lemma generate_sku_outcome {unicode : CaseMapping} {store : Store}
    (self : SKUGenerator) (raw_code : str) (vendor_id : Z) (vendor_short : str)
    (product_id : option Z) (max_retries : Z) (db db' : DB)
    (sku : str) (st : SKUStatus) :
  generate_sku self raw_code vendor_id vendor_short product_id max_retries db
  = (Returns (sku, st), db') ->
  let base := base_candidate self vendor_short (_slugify raw_code 40) in
  (st = ERROR /\ sku = [] /\ db' = db)
  \/ (st = INSERTED /\ sku = base
      /\ write product_id sku vendor_id raw_code db = (Returns true, db'))
  \/ (st = CONFLICT_UNRESOLVED /\ sku = [])
  \/ (st = CONFLICT_RESOLVED
      /\ exists (attempt : Z) (suffix : str) (db0 : DB),
           0 <= attempt < max_retries
           /\ _short_hash (hash_input raw_code vendor_id attempt)
                (Z.min (hash_suffix_length self + attempt) 10)
              = Returns suffix
           /\ sku = base ++ lit "-" ++ suffix
           /\ len sku <= max_sku_length self
           /\ write product_id sku vendor_id raw_code db0 = (Returns true, db')).
Proof.
  intros Hgen base. unfold generate_sku in Hgen. fold base in Hgen.
  destruct (falsy raw_code || falsy vendor_short).
  { injection Hgen as <- <- <-. left. repeat split. }
  destruct (falsy (_slugify raw_code 40)).
  { injection Hgen as <- <- <-. left. repeat split. }
  assert (Hloop : forall db1,
    resolve self raw_code vendor_id product_id base (range max_retries) db1
    = (Returns (sku, st), db') ->
    (st = CONFLICT_UNRESOLVED /\ sku = [])
    \/ (st = CONFLICT_RESOLVED
        /\ exists (attempt : Z) (suffix : str) (db0 : DB),
             0 <= attempt < max_retries
             /\ _short_hash (hash_input raw_code vendor_id attempt)
                  (Z.min (hash_suffix_length self + attempt) 10)
                = Returns suffix
             /\ sku = base ++ lit "-" ++ suffix
             /\ len sku <= max_sku_length self
             /\ write product_id sku vendor_id raw_code db0
                = (Returns true, db'))).
  { intros db1 H1.
    destruct (resolve_outcome _ _ _ _ _ _ _ _ _ _ H1)
      as [Hl|[Hs (a & sf & db0 & Hin & Hr)]]; [left; exact Hl|].
    right. split; [exact Hs|]. exists a, sf, db0.
    split; [apply in_range, Hin | exact Hr]. }
  destruct (write product_id base vendor_id raw_code db)
    as [[[|]|e] db1] eqn:Ew.
  - injection Hgen as <- <- <-. right. left. repeat split. exact Ew.
  - right. right. eapply Hloop, Hgen.
  - right. right. eapply Hloop, Hgen.
Qed.

Lemma base_nonempty (self : SKUGenerator) (vendor_short slug : str) :
  base_candidate self vendor_short slug <> [].
Proof.
  destruct (base_candidate_prefix self vendor_short slug) as [rest ->].
  destruct vendor_short; discriminate.
Qed.

Lemma suffixed_nonempty (base suffix : str) : base ++ lit "-" ++ suffix <> [].
Proof. destruct base; discriminate. Qed.

(** X3.  Whatever the store does, [generate_sku] returns the empty identifier
    exactly with the statuses [ERROR] and [CONFLICT_UNRESOLVED]; this is what
    lets a caller test the identifier alone for failure. *)
Theorem empty_identifier_iff_failure {unicode : CaseMapping} {store : Store}
    (self : SKUGenerator) (raw_code : str) (vendor_id : Z) (vendor_short : str)
    (product_id : option Z) (max_retries : Z) (db db' : DB)
    (sku : str) (st : SKUStatus) :
  generate_sku self raw_code vendor_id vendor_short product_id max_retries db
  = (Returns (sku, st), db') ->
  (sku = [] <-> st = ERROR \/ st = CONFLICT_UNRESOLVED).
Proof.
  intros Hgen.
  destruct (generate_sku_outcome _ _ _ _ _ _ _ _ _ _ Hgen)
    as [(-> & -> & _)|[(-> & -> & _)|[(-> & ->)|(-> & a & sf & db0 & _ & _ & -> & _)]]].
  - split; auto.
  - split; [intros H; exfalso; exact (base_nonempty _ _ _ H)|].
    intros [H|H]; discriminate.
  - split; auto.
  - split; [intros H; exfalso; exact (suffixed_nonempty _ _ H)|].
    intros [H|H]; discriminate.
Qed.

Lemma empty_identifier_iff_failure_witness :
  generate_sku (store := failing_store (fun _ => UniqueViolation))
    default_generator (lit "BRIT10G") 42 (lit "VEND") None 1 []
  = (Returns ([], CONFLICT_UNRESOLVED),
     [lit "VEND-BRIT10G"; lit "VEND-BRIT10G-MH3TU3"])
  /\ ([] = @nil codepoint
      <-> CONFLICT_UNRESOLVED = ERROR
          \/ CONFLICT_UNRESOLVED = CONFLICT_UNRESOLVED).
Proof.
  assert (H : generate_sku (store := failing_store (fun _ => UniqueViolation))
                default_generator (lit "BRIT10G") 42 (lit "VEND") None 1 []
              = (Returns ([], CONFLICT_UNRESOLVED),
                 [lit "VEND-BRIT10G"; lit "VEND-BRIT10G-MH3TU3"]))
    by (vm_compute; reflexivity).
  split; [exact H|].
  exact (empty_identifier_iff_failure
           (store := failing_store (fun _ => UniqueViolation))
           default_generator (lit "BRIT10G") 42 (lit "VEND") None 1 [] _ _ _ H).
Defined.

Lemma short_hash_returned_shape (value : str) (length : Z) (suffix : str) :
  _short_hash value length = Returns suffix ->
  len suffix = Z.max 0 length /\ Forall (fun c => is_AZ09 c = true) suffix.
Proof.
  unfold _short_hash. destruct (encode_utf8 value) as [bytes|]; [|discriminate].
  intros [= <-].
  destruct (base36_digits_shape (Z.to_nat length)
              (Hashlib.int16 (slice_to (Hashlib.sha1_hexdigest bytes) 12)))
    as [Hlen Hall].
  split; [unfold len; rewrite Hlen; lia | exact Hall].
Qed.

(** X4.  Every identifier returned with [INSERTED] or [CONFLICT_RESOLVED]
    starts with the vendor namespace and the separator.  With [INSERTED] it is
    the base candidate; with [CONFLICT_RESOLVED] it is the base candidate, a
    separator and the suffix of one of the attempts, whose length is the suffix
    length plus the attempt number, capped at ten, and it fits in
    [max_sku_length]. *)
Theorem identifier_structure {unicode : CaseMapping} {store : Store}
    (self : SKUGenerator) (raw_code : str) (vendor_id : Z) (vendor_short : str)
    (product_id : option Z) (max_retries : Z) (db db' : DB)
    (sku : str) (st : SKUStatus) :
  generate_sku self raw_code vendor_id vendor_short product_id max_retries db
  = (Returns (sku, st), db') ->
  st = INSERTED \/ st = CONFLICT_RESOLVED ->
  let base := base_candidate self vendor_short (_slugify raw_code 40) in
  (exists rest, sku = vendor_short ++ lit "-" ++ rest)
  /\ (st = INSERTED -> sku = base)
  /\ (st = CONFLICT_RESOLVED ->
      exists (attempt : Z) (suffix : str),
        0 <= attempt < max_retries
        /\ sku = base ++ lit "-" ++ suffix
        /\ len suffix = Z.max 0 (Z.min (hash_suffix_length self + attempt) 10)
        /\ Forall (fun c => is_AZ09 c = true) suffix
        /\ len sku <= max_sku_length self).
Proof.
  intros Hgen Hst base. subst base.
  destruct (base_candidate_prefix self vendor_short (_slugify raw_code 40))
    as [rest Hrest].
  destruct (generate_sku_outcome _ _ _ _ _ _ _ _ _ _ Hgen)
    as [(-> & _)|[(-> & -> & _)|[(-> & _)|(-> & a & sf & db0 & Ha & Hh & -> & Hl & _)]]].
  - destruct Hst; discriminate.
  - split; [exists rest; exact Hrest|]. split; [reflexivity | discriminate].
  - destruct Hst; discriminate.
  - split; [exists (rest ++ lit "-" ++ sf); rewrite Hrest, <- !app_assoc;
            reflexivity|].
    split; [discriminate|]. intros _.
    destruct (short_hash_returned_shape _ _ _ Hh) as [Hlen Hall].
    exists a, sf. repeat split; assumption || lia.
Qed.

Lemma identifier_structure_witness :
  (generate_sku (store := unique_store) default_generator (lit "BRIT10G") 42
     (lit "VEND") None 5 [lit "VEND-BRIT10G"]
   = (Returns (lit "VEND-BRIT10G-MH3TU3", CONFLICT_RESOLVED),
      [lit "VEND-BRIT10G-MH3TU3"; lit "VEND-BRIT10G"])
   /\ (CONFLICT_RESOLVED = INSERTED \/ CONFLICT_RESOLVED = CONFLICT_RESOLVED))
  /\ exists rest, lit "VEND-BRIT10G-MH3TU3" = lit "VEND" ++ lit "-" ++ rest.
Proof.
  assert (H : generate_sku (store := unique_store) default_generator
                (lit "BRIT10G") 42 (lit "VEND") None 5 [lit "VEND-BRIT10G"]
              = (Returns (lit "VEND-BRIT10G-MH3TU3", CONFLICT_RESOLVED),
                 [lit "VEND-BRIT10G-MH3TU3"; lit "VEND-BRIT10G"]))
    by (vm_compute; reflexivity).
  assert (H' : CONFLICT_RESOLVED = INSERTED
               \/ CONFLICT_RESOLVED = CONFLICT_RESOLVED) by (right; reflexivity).
  split; [split; assumption|].
  exact (proj1 (identifier_structure (store := unique_store) default_generator
                  (lit "BRIT10G") 42 (lit "VEND") None 5 _ _ _ _ H H')).
Defined.

(** X5.  An identifier is reported as [INSERTED] or [CONFLICT_RESOLVED] only
    when the store returned [True] for a write of that very identifier, and the
    state handed back is the state right after that write: nothing is written
    after a success. *)
Theorem reported_identifier_was_accepted {unicode : CaseMapping} {store : Store}
    (self : SKUGenerator) (raw_code : str) (vendor_id : Z) (vendor_short : str)
    (product_id : option Z) (max_retries : Z) (db db' : DB)
    (sku : str) (st : SKUStatus) :
  generate_sku self raw_code vendor_id vendor_short product_id max_retries db
  = (Returns (sku, st), db') ->
  st = INSERTED \/ st = CONFLICT_RESOLVED ->
  exists db0 : DB,
    write product_id sku vendor_id raw_code db0 = (Returns true, db').
Proof.
  intros Hgen Hst.
  destruct (generate_sku_outcome _ _ _ _ _ _ _ _ _ _ Hgen)
    as [(-> & _)|[(_ & _ & Hw)|[(-> & _)|(_ & a & sf & db0 & _ & _ & _ & _ & Hw)]]].
  - destruct Hst; discriminate.
  - exists db. exact Hw.
  - destruct Hst; discriminate.
  - exists db0. exact Hw.
Qed.

Lemma reported_identifier_was_accepted_witness :
  (generate_sku (store := unique_store) default_generator (lit "BRIT10G") 42
     (lit "VEND") None 5 [lit "VEND-BRIT10G"]
   = (Returns (lit "VEND-BRIT10G-MH3TU3", CONFLICT_RESOLVED),
      [lit "VEND-BRIT10G-MH3TU3"; lit "VEND-BRIT10G"])
   /\ (CONFLICT_RESOLVED = INSERTED \/ CONFLICT_RESOLVED = CONFLICT_RESOLVED))
  /\ exists db0 : list str,
       write (store := unique_store) None (lit "VEND-BRIT10G-MH3TU3") 42
             (lit "BRIT10G") db0
       = (Returns true, [lit "VEND-BRIT10G-MH3TU3"; lit "VEND-BRIT10G"]).
Proof.
  assert (H : generate_sku (store := unique_store) default_generator
                (lit "BRIT10G") 42 (lit "VEND") None 5 [lit "VEND-BRIT10G"]
              = (Returns (lit "VEND-BRIT10G-MH3TU3", CONFLICT_RESOLVED),
                 [lit "VEND-BRIT10G-MH3TU3"; lit "VEND-BRIT10G"]))
    by (vm_compute; reflexivity).
  assert (H' : CONFLICT_RESOLVED = INSERTED
               \/ CONFLICT_RESOLVED = CONFLICT_RESOLVED) by (right; reflexivity).
  split; [split; assumption|].
  exact (reported_identifier_was_accepted (store := unique_store)
           default_generator (lit "BRIT10G") 42 (lit "VEND") None 5 _ _ _ _ H H').
Defined.

(** X6.  Where the namespace leaves room for the two separators
    ([len(vendor_short) + 2 <= max_sku_length]), every identifier returned
    fits, for every store: with [INSERTED] it has at most [max_sku_length - 1]
    characters, with [CONFLICT_RESOLVED] at most [max_sku_length]. *)
Theorem returned_identifier_fits {unicode : CaseMapping} {store : Store}
    (self : SKUGenerator) (raw_code : str) (vendor_id : Z) (vendor_short : str)
    (product_id : option Z) (max_retries : Z) (db db' : DB)
    (sku : str) (st : SKUStatus) :
  len vendor_short + 2 <= max_sku_length self ->
  generate_sku self raw_code vendor_id vendor_short product_id max_retries db
  = (Returns (sku, st), db') ->
  (st = INSERTED -> len sku <= max_sku_length self - 1)
  /\ (st = CONFLICT_RESOLVED -> len sku <= max_sku_length self).
Proof.
  intros Hroom Hgen.
  pose proof (base_candidate_fits self vendor_short (_slugify raw_code 40) Hroom)
    as Hbase.
  destruct (generate_sku_outcome _ _ _ _ _ _ _ _ _ _ Hgen)
    as [(-> & _)|[(-> & -> & _)|[(-> & _)|(-> & a & sf & db0 & _ & _ & _ & Hl & _)]]];
    split; intros H; try discriminate; assumption.
Qed.

Lemma returned_identifier_fits_witness :
  (len (lit "VENDOR") + 2 <= max_sku_length (generator_of_length 30)
   /\ generate_sku (store := mock_store) (generator_of_length 30)
        (lit "AVERYLONGPRODUCTCODEWITHMANYCHARACTERS") 1 (lit "VENDOR") None 5 tt
      = (Returns (lit "VENDOR-AVERYLONGPRODUCTCODEWI", INSERTED), tt))
  /\ (INSERTED = INSERTED -> len (lit "VENDOR-AVERYLONGPRODUCTCODEWI") <= 30 - 1).
Proof.
  assert (H1 : len (lit "VENDOR") + 2 <= max_sku_length (generator_of_length 30))
    by (vm_compute; discriminate).
  assert (H2 : generate_sku (store := mock_store) (generator_of_length 30)
                 (lit "AVERYLONGPRODUCTCODEWITHMANYCHARACTERS") 1 (lit "VENDOR")
                 None 5 tt
               = (Returns (lit "VENDOR-AVERYLONGPRODUCTCODEWI", INSERTED), tt))
    by (vm_compute; reflexivity).
  split; [split; assumption|].
  exact (proj1 (returned_identifier_fits (store := mock_store)
                  (generator_of_length 30)
                  (lit "AVERYLONGPRODUCTCODEWITHMANYCHARACTERS") 1 (lit "VENDOR")
                  None 5 tt tt _ _ H1 H2)).
Defined.

(** *** The number of writes *)

Lemma write_counted {store : Store} (product_id : option Z) (candidate : str)
    (vendor_id : Z) (raw_code : str) (db : DB) (n : nat) :
  write (store := counted store) product_id candidate vendor_id raw_code (db, n)
  = (fst (write product_id candidate vendor_id raw_code db),
     (snd (write product_id candidate vendor_id raw_code db), S n)).
Proof.
  unfold write. destruct product_id as [pid|]; [destruct (pid =? 0)|];
    cbn [counted _insert_product_sku _update_product_sku fst snd].
  - destruct (_insert_product_sku candidate vendor_id raw_code db); reflexivity.
  - destruct (_update_product_sku pid candidate db); reflexivity.
  - destruct (_insert_product_sku candidate vendor_id raw_code db); reflexivity.
Qed.

Lemma resolve_counted {store : Store} (self : SKUGenerator) (raw_code : str)
    (vendor_id : Z) (product_id : option Z) (base : str) (attempts : list Z) :
  forall (db : DB) (n : nat),
  exists k : nat,
    (k <= length attempts)%nat
    /\ resolve (store := counted store) self raw_code vendor_id product_id base
               attempts (db, n)
       = (fst (resolve self raw_code vendor_id product_id base attempts db),
          (snd (resolve self raw_code vendor_id product_id base attempts db),
           (n + k)%nat)).
Proof.
  induction attempts as [|attempt rest IH]; intros db n; cbn [resolve length].
  - exists 0%nat. rewrite Nat.add_0_r. split; [lia | reflexivity].
  - destruct (_short_hash _ _) as [suffix|e].
    2:{ exists 0%nat. rewrite Nat.add_0_r. split; [lia | reflexivity]. }
    destruct (max_sku_length self <? len (base ++ lit "-" ++ suffix)).
    { destruct (IH db n) as (k & Hk & ->). exists k. split; [lia | reflexivity]. }
    rewrite write_counted.
    destruct (write product_id (base ++ lit "-" ++ suffix) vendor_id raw_code db)
      as [[[|]|e] db1]; cbn [fst snd].
    + exists 1%nat. rewrite Nat.add_1_r. split; [lia | reflexivity].
    + destruct (IH db1 (S n)) as (k & Hk & ->). exists (S k).
      rewrite Nat.add_succ_comm. split; [lia | reflexivity].
    + destruct (IH db1 (S n)) as (k & Hk & ->). exists (S k).
      rewrite Nat.add_succ_comm. split; [lia | reflexivity].
Qed.

Lemma length_range (n : Z) : length (range n) = Z.to_nat n.
Proof. unfold range. rewrite length_map, length_seq. reflexivity. Qed.

(** X7.  The retries are bounded: run against any store that counts its writes,
    [generate_sku] returns what it returns against the store itself, and makes
    at most [1 + max_retries] writes (one when [max_retries] is negative). *)
Theorem writes_are_bounded {unicode : CaseMapping} {store : Store}
    (self : SKUGenerator) (raw_code : str) (vendor_id : Z) (vendor_short : str)
    (product_id : option Z) (max_retries : Z) (db : DB) (n : nat) :
  exists k : nat,
    (k <= 1 + Z.to_nat max_retries)%nat
    /\ generate_sku (store := counted store) self raw_code vendor_id
         vendor_short product_id max_retries (db, n)
       = (fst (generate_sku self raw_code vendor_id vendor_short product_id
                            max_retries db),
          (snd (generate_sku self raw_code vendor_id vendor_short product_id
                             max_retries db),
           (n + k)%nat)).
Proof.
  unfold generate_sku.
  destruct (falsy raw_code || falsy vendor_short).
  { exists 0%nat. rewrite Nat.add_0_r. split; [lia | reflexivity]. }
  destruct (falsy (_slugify raw_code 40)).
  { exists 0%nat. rewrite Nat.add_0_r. split; [lia | reflexivity]. }
  rewrite write_counted.
  destruct (write product_id _ vendor_id raw_code db) as [[[|]|e] db1];
    cbn [fst snd].
  - exists 1%nat. rewrite Nat.add_1_r. split; [lia | reflexivity].
  - destruct (resolve_counted self raw_code vendor_id product_id
                (base_candidate self vendor_short (_slugify raw_code 40))
                (range max_retries) db1 (S n)) as (k & Hk & ->).
    rewrite length_range in Hk. exists (S k).
    split; [lia|]. do 2 f_equal. lia.
  - destruct (resolve_counted self raw_code vendor_id product_id
                (base_candidate self vendor_short (_slugify raw_code 40))
                (range max_retries) db1 (S n)) as (k & Hk & ->).
    rewrite length_range in Hk. exists (S k).
    split; [lia|]. do 2 f_equal. lia.
Qed.

(** *** The generator as it ships *)

(** X8.  With the placeholder methods of the repository, which accept every
    write, an input that passes validation is answered with the base candidate
    and [INSERTED], whatever was generated before: two raw codes with the same
    slug get the same identifier, and the retry loop is never entered. *)
Theorem placeholder_always_inserts {unicode : CaseMapping}
    (self : SKUGenerator) (raw_code : str) (vendor_id : Z) (vendor_short : str)
    (product_id : option Z) (max_retries : Z) :
  raw_code <> [] -> vendor_short <> [] -> _slugify raw_code 40 <> [] ->
  generate_sku (store := mock_store) self raw_code vendor_id vendor_short
               product_id max_retries tt
  = (Returns (base_candidate self vendor_short (_slugify raw_code 40), INSERTED),
     tt).
Proof.
  intros Hraw Hvendor Hslug. unfold generate_sku.
  apply falsy_false in Hraw, Hvendor, Hslug.
  rewrite Hraw, Hvendor, Hslug. cbn [orb].
  unfold write. destruct product_id as [pid|]; [destruct (pid =? 0)|];
    reflexivity.
Qed.

Lemma placeholder_always_inserts_witness :
  (lit "brit-10-g" <> [] /\ lit "VEND" <> []
   /\ _slugify (lit "brit-10-g") 40 <> [])
  /\ generate_sku (store := mock_store) default_generator (lit "brit-10-g") 7
       (lit "VEND") None 5 tt
     = (Returns (lit "VEND-BRIT10G", INSERTED), tt).
Proof.
  assert (H1 : lit "brit-10-g" <> []) by discriminate.
  assert (H2 : lit "VEND" <> []) by discriminate.
  assert (H3 : _slugify (lit "brit-10-g") 40 <> []) by discriminate.
  split; [repeat split; assumption|].
  exact (placeholder_always_inserts default_generator (lit "brit-10-g") 7
           (lit "VEND") None 5 H1 H2 H3).
Defined.

End sku_generator_results.

(** ** The review queue: priorities and identifiers *)

Module review_queue_results.
Import PyStr review_queue PyFloatFacts.

Ltac float_facts :=
  repeat match goal with
         | H : PyFloat.lt _ _ = true |- _ => apply lt_true in H
         | H : PyFloat.lt _ _ = false |- _ => apply lt_false in H
         end.

Lemma compute_priority_range (s : Q) : 1 <= _compute_priority s <= 5.
Proof.
  unfold _compute_priority.
  destruct (PyFloat.lt s 0.40); [lia|]. destruct (PyFloat.lt s 0.55); [lia|].
  destruct (PyFloat.lt s 0.70); [lia|]. destruct (PyFloat.lt s 0.80); lia.
Qed.

(** X9.  The priority computed from a score is one of 1..5, and a higher score
    never gets a more urgent (smaller) priority. *)
Theorem compute_priority_monotone (s s' : Q) :
  (s <= s')%Q ->
  1 <= _compute_priority s <= 5
  /\ _compute_priority s <= _compute_priority s'.
Proof.
  intros Hle. unfold _compute_priority.
  destruct (PyFloat.lt s 0.40) eqn:A1; destruct (PyFloat.lt s 0.55) eqn:A2;
    destruct (PyFloat.lt s 0.70) eqn:A3; destruct (PyFloat.lt s 0.80) eqn:A4;
    destruct (PyFloat.lt s' 0.40) eqn:B1; destruct (PyFloat.lt s' 0.55) eqn:B2;
    destruct (PyFloat.lt s' 0.70) eqn:B3; destruct (PyFloat.lt s' 0.80) eqn:B4;
    try (split; lia); float_facts; lra.
Qed.

Lemma compute_priority_monotone_witness :
  (0.35 <= 0.72)%Q
  /\ (1 <= _compute_priority 0.35 <= 5
      /\ _compute_priority 0.35 <= _compute_priority 0.72).
Proof.
  assert (H : (0.35 <= 0.72)%Q) by discriminate.
  split; [exact H|].
  exact (compute_priority_monotone 0.35 0.72 H).
Defined.

(** X10.  When the due date can be computed, [create_review_task] returns
    an identifier between 0 and 999999, whatever the UUID drawn and its hash,
    and the priority of the task is never 0: without an override it is between
    1 and 5; an override is kept as it is, whatever its value, except 0, which
    is replaced by 3.  When the due date cannot be computed, no identifier is
    returned: the call raises [OverflowError]. *)
Theorem create_review_task_id_and_priority (rt : Runtime) (self : ReviewQueue)
    (product_id : Z) (canonical_sku : str) (validation_score : Q)
    (priority sla_hours : option Z) (log : Log) :
  let hours := int_or sla_hours (default_sla_hours self) in
  let result :=
    fst (create_review_task rt self product_id canonical_sku validation_score
                            priority sla_hours log) in
  (valid_due_date (now rt) hours ->
   exists task : Created,
     result = Returns task
     /\ 0 <= created_id task < 1000000
     /\ created_priority task <> 0
     /\ (priority = None -> 1 <= created_priority task <= 5)
     /\ (forall p : Z, priority = Some p -> p <> 0 -> created_priority task = p)
     /\ (priority = Some 0 -> created_priority task = 3))
  /\ (~ valid_due_date (now rt) hours -> result = Raises OverflowError).
Proof.
  cbv zeta.
  destruct (review_queue_spec.create_review_task_outcome rt self product_id
              canonical_sku validation_score priority sla_hours log)
    as [Hret Hraise].
  cbv zeta in Hret, Hraise. split.
  - intros Hvalid. rewrite (Hret Hvalid). cbn [fst].
    eexists. split; [reflexivity|]. cbn [created_id created_priority].
    split; [apply Z.mod_pos_bound; lia|].
    pose proof (compute_priority_range validation_score) as Hband.
    destruct priority as [p|]; cbn [is_None andb int_or].
    + destruct (Z.eqb_spec p 0) as [->|Hp].
      * repeat split; try lia; try discriminate. intros q [= <-] Hq. lia.
      * repeat split; try lia; try discriminate.
        -- intros q [= <-] _. reflexivity.
        -- intros [= ->]. lia.
    + destruct (enable_priority_assignment self);
        repeat split; try lia; try discriminate.
  - intros Hno. rewrite (Hraise Hno). reflexivity.
Qed.

Lemma create_review_task_id_and_priority_witness :
  let rt := {| now := 1762128000000000; uuid4 := lit "0f8fad5b";
               hash := fun _ => -7 |} in
  valid_due_date (now rt) 48
  /\ exists task : Created,
       fst (create_review_task rt default_queue 123 (lit "BRIT-BRIT10G") 0.72
                               (Some 0) None [])
       = Returns task
       /\ 0 <= created_id task < 1000000
       /\ created_priority task = 3.
Proof.
  intros rt.
  assert (Hv : valid_due_date (now rt) 48) by (vm_compute; intuition discriminate).
  split; [exact Hv|].
  destruct (create_review_task_id_and_priority rt default_queue 123
              (lit "BRIT-BRIT10G") 0.72 (Some 0) None []) as [Hret _].
  destruct (Hret Hv) as (task & Htask & Hid & _ & _ & _ & H0).
  exists task. repeat split; try assumption; try apply Hid. exact (H0 eq_refl).
Defined.

End review_queue_results.

(** ** The image validator: scores and errors *)

Module image_validator_results.
Import PyStr image_validator PyFloatFacts.
Local Open Scope Q_scope.

Lemma gt_true (a b : Q) : PyFloat.gt a b = true <-> b < a.
Proof.
  unfold PyFloat.gt. rewrite negb_true_iff, <- not_true_iff_false, Qle_bool_iff.
  split; [apply Qnot_le_lt | apply Qlt_not_le].
Qed.

Lemma gt_false (a b : Q) : PyFloat.gt a b = false <-> a <= b.
Proof. unfold PyFloat.gt. rewrite negb_false_iff. apply Qle_bool_iff. Qed.

Lemma min_bounds (a b : Q) :
  PyFloat.min a b <= a /\ PyFloat.min a b <= b
  /\ (PyFloat.min a b = a \/ PyFloat.min a b = b).
Proof.
  unfold PyFloat.min. destruct (PyFloat.lt b a) eqn:E.
  - apply lt_true in E. repeat split; try lra. right. reflexivity.
  - apply lt_false in E. repeat split; try lra. left. reflexivity.
Qed.

Lemma max_bounds (a b : Q) :
  a <= PyFloat.max a b /\ b <= PyFloat.max a b
  /\ (PyFloat.max a b = a \/ PyFloat.max a b = b).
Proof.
  unfold PyFloat.max. destruct (PyFloat.gt b a) eqn:E.
  - apply gt_true in E. repeat split; try lra. right. reflexivity.
  - apply gt_false in E. repeat split; try lra. left. reflexivity.
Qed.

(** The clamp [max(0.0, min(1.0, x))] *)
Lemma clamp_range (x : Q) : 0 <= PyFloat.max 0.0 (PyFloat.min 1.0 x) <= 1.
Proof.
  destruct (min_bounds 1.0 x) as (H1 & _ & _).
  destruct (max_bounds 0.0 (PyFloat.min 1.0 x)) as (H2 & _ & Hc).
  split; [lra|]. destruct Hc as [E|E]; rewrite E; lra.
Qed.

(** Rounding gives equal results on equal numbers. *)
Lemma round_eq {rounding : PyFloat.Rounding} (x y : Q) :
  x == y -> PyFloat.round x == PyFloat.round y.
Proof.
  intros E. apply Qle_antisym; apply PyFloat.round_le; rewrite E; apply Qle_refl.
Qed.

(** *** Perceptual similarity *)

(** X11.  Whatever the files, the hashes and the rounding, the similarity
    returned by [_check_perceptual_similarity] lies between 0 and 1. *)
Theorem perceptual_similarity_range {rounding : PyFloat.Rounding} (env : Env)
    (image_path reference_image_path : str) :
  0 <= _check_perceptual_similarity env image_path reference_image_path <= 1.
Proof.
  unfold _check_perceptual_similarity.
  destruct (negb (IMAGEHASH_AVAILABLE env)); [lra|].
  destruct (negb (path_exists env reference_image_path)); [lra|].
  destruct (phash env image_path) as [h1|]; [|lra].
  destruct (phash env reference_image_path) as [h2|]; [|lra].
  destruct (hamming h1 h2); [apply clamp_range | lra].
Qed.

Lemma hamming_same (h : list bool) : hamming h h = Some 0%Z.
Proof.
  unfold hamming. rewrite Nat.eqb_refl. do 2 f_equal.
  induction h as [|b h IH]; [reflexivity|].
  cbn [combine List.filter fst snd]. rewrite xorb_nilpotent. exact IH.
Qed.

Lemma hamming_opposite (h : list bool) :
  hamming h (List.map negb h) = Some (Z.of_nat (length h)).
Proof.
  unfold hamming. rewrite length_map, Nat.eqb_refl. do 3 f_equal.
  induction h as [|b h IH]; [reflexivity|].
  cbn [List.map combine List.filter fst snd length].
  destruct b; cbn [xorb negb length]; rewrite IH; reflexivity.
Qed.

(** X12.  With [imagehash] installed, the reference on disk and both files
    hashed, two equal hashes give the similarity [1.0], and two hashes that
    differ in every bit give [0.0]; 0 and 1 are floats. *)
Theorem perceptual_similarity_extremes {rounding : PyFloat.Rounding} (env : Env)
    (image_path reference_image_path : str) (h1 h2 : list bool) :
  PyFloat.round 0 == 0 -> PyFloat.round 1 == 1 ->
  IMAGEHASH_AVAILABLE env = true ->
  path_exists env reference_image_path = true ->
  phash env image_path = Returns h1 ->
  phash env reference_image_path = Returns h2 ->
  h1 <> [] ->
  (h2 = h1 ->
   _check_perceptual_similarity env image_path reference_image_path = 1.0)
  /\ (h2 = List.map negb h1 ->
      _check_perceptual_similarity env image_path reference_image_path = 0.0).
Proof.
  intros R0 R1 Hav Hex Hp1 Hp2 Hne.
  unfold _check_perceptual_similarity.
  rewrite Hav, Hex, Hp1, Hp2. cbn [negb].
  assert (Hlen : ~ inject_Z (Z.of_nat (length h1)) == 0).
  { destruct h1; [contradiction|]. cbn [length]. unfold Qeq, inject_Z. cbn. lia. }
  split; intros ->.
  - rewrite hamming_same.
    assert (E : PyFloat.sub 1.0
                  (PyFloat.div (inject_Z 0) (inject_Z (Z.of_nat (length h1))))
                == 1).
    { unfold PyFloat.sub, PyFloat.div.
      etransitivity; [|exact R1]. apply round_eq.
      assert (E0 : PyFloat.round (inject_Z 0 / inject_Z (Z.of_nat (length h1)))
                   == 0).
      { etransitivity; [|exact R0]. apply round_eq.
        unfold Qdiv. apply Qmult_0_l. }
      rewrite E0. reflexivity. }
    unfold PyFloat.min, PyFloat.max.
    assert (L : PyFloat.lt
                  (PyFloat.sub 1.0
                     (PyFloat.div (inject_Z 0)
                        (inject_Z (Z.of_nat (length h1))))) 1.0 = false).
    { apply lt_false. rewrite E. discriminate. }
    rewrite L. reflexivity.
  - rewrite hamming_opposite.
    set (m := inject_Z (Z.of_nat (length h1))) in *.
    assert (E : PyFloat.sub 1.0 (PyFloat.div m m) == 0).
    { unfold PyFloat.sub, PyFloat.div.
      etransitivity; [|exact R0]. apply round_eq.
      assert (E1 : PyFloat.round (m / m) == 1).
      { etransitivity; [|exact R1]. apply round_eq. field. exact Hlen. }
      rewrite E1. reflexivity. }
    unfold PyFloat.min, PyFloat.max.
    assert (L : PyFloat.lt (PyFloat.sub 1.0 (PyFloat.div m m)) 1.0 = true).
    { apply lt_true. rewrite E. reflexivity. }
    rewrite L.
    assert (G : PyFloat.gt (PyFloat.sub 1.0 (PyFloat.div m m)) 0.0 = false).
    { apply gt_false. rewrite E. discriminate. }
    rewrite G. reflexivity.
Qed.

Lemma perceptual_similarity_extremes_witness :
  let env := example_env 1 1 1 in
  (PyFloat.round (Rounding := PyFloat.exact) 0 == 0
   /\ PyFloat.round (Rounding := PyFloat.exact) 1 == 1
   /\ IMAGEHASH_AVAILABLE env = true
   /\ path_exists env (lit "ref.jpg") = true
   /\ phash env (lit "image.jpg") = Returns (repeat false 64)
   /\ phash env (lit "ref.jpg") = Returns (repeat false 64)
   /\ repeat false 64 <> [])
  /\ _check_perceptual_similarity (rounding := PyFloat.exact) env
       (lit "image.jpg") (lit "ref.jpg") = 1.0.
Proof.
  intros env.
  assert (R0 : PyFloat.round (Rounding := PyFloat.exact) 0 == 0) by reflexivity.
  assert (R1 : PyFloat.round (Rounding := PyFloat.exact) 1 == 1) by reflexivity.
  assert (Hne : repeat false 64 <> []) by discriminate.
  split; [repeat split; try assumption|].
  exact (proj1 (perceptual_similarity_extremes (rounding := PyFloat.exact) env
                  (lit "image.jpg") (lit "ref.jpg") (repeat false 64)
                  (repeat false 64) R0 R1 eq_refl eq_refl eq_refl eq_refl Hne)
               eq_refl).
Defined.

(** *** Errors of [validate_image] *)

Lemma determine_status_not_error (self : ImageValidator) (o : Q) :
  fst (determine_status self o) <> ERROR.
Proof.
  unfold determine_status.
  destruct (PyFloat.ge o (accept_score_threshold self));
    [|destruct (PyFloat.ge o (review_score_threshold self))]; discriminate.
Qed.

Lemma score_checks_status {rounding : PyFloat.Rounding} (self : ImageValidator)
    (bg bl cov det sim : Q) :
  match weighted_score self bg bl cov det sim with
  | Returns o =>
      status (score_checks self bg bl cov det sim)
      = fst (determine_status self o)
  | Raises _ =>
      score_checks self bg bl cov det sim
      = error_metrics (Validation_error KeyError)
  end.
Proof.
  unfold score_checks.
  destruct (weighted_score self bg bl cov det sim) as [o|e] eqn:E.
  - destruct (determine_status self o). reflexivity.
  - unfold weighted_score in E.
    repeat match type of E with
           | match ?x with _ => _ end = _ => destruct x
           end; try discriminate; injection E as <-; reflexivity.
Qed.

Lemma weighted_score_raises {rounding : PyFloat.Rounding}
    (self : ImageValidator) (bg bl cov det sim : Q) :
  (exists e, weighted_score self bg bl cov det sim = Raises e)
  <-> exists k, In k weight_keys /\ weights self !! k = None.
Proof.
  unfold weighted_score, weight_keys. split.
  - intros [e He].
    destruct (weights self !! "background_white"%string) eqn:E1;
      [|eexists; split; [|exact E1]; cbn; tauto].
    destruct (weights self !! "blur"%string) eqn:E2;
      [|eexists; split; [|exact E2]; cbn; tauto].
    destruct (weights self !! "object_coverage"%string) eqn:E3;
      [|eexists; split; [|exact E3]; cbn; tauto].
    destruct (weights self !! "object_detection"%string) eqn:E4;
      [|eexists; split; [|exact E4]; cbn; tauto].
    destruct (weights self !! "perceptual_similarity"%string) eqn:E5;
      [discriminate | eexists; split; [|exact E5]; cbn; tauto].
  - intros (k & Hk & Hnone). exists KeyError.
    cbn [In] in Hk.
    destruct Hk as [<-|[<-|[<-|[<-|[<-|[]]]]]]; rewrite Hnone;
      repeat match goal with
             | |- context [match ?x with _ => _ end] => destruct x
             end; reflexivity.
Qed.

(** X13.  [validate_image] answers with the status [ERROR] exactly when the
    image file is not found or one of the five weights is missing from the
    configuration; and then the five scores it reports are all [0.0]. *)
Theorem validate_image_error {rounding : PyFloat.Rounding} (env : Env)
    (self : ImageValidator) (image_path : str)
    (reference_image_path : option str) :
  let m := validate_image env self image_path reference_image_path in
  (status m = ERROR
   <-> path_exists env image_path = false
       \/ exists k, In k weight_keys /\ weights self !! k = None)
  /\ (status m = ERROR ->
      background_white_score m = 0.0 /\ blur_score m = 0.0
      /\ object_coverage m = 0.0 /\ perceptual_similarity m = 0.0
      /\ overall_score m = 0.0).
Proof.
  cbv zeta. unfold validate_image.
  destruct (path_exists env image_path) eqn:Hex; cbn [negb].
  2:{ split; [split; [left; reflexivity | reflexivity]|].
      intros _. repeat split. }
  destruct (_check_object_coverage env image_path) as [cov ok].
  set (bg := _check_background_white env image_path).
  set (bl := _check_blur env image_path).
  set (det := _check_object_detection image_path).
  set (sim := similarity_of env image_path reference_image_path).
  pose proof (score_checks_status self bg bl cov det sim) as Hs.
  pose proof (weighted_score_raises self bg bl cov det sim) as Hr.
  destruct (weighted_score self bg bl cov det sim) as [o|e] eqn:E.
  - rewrite Hs. split.
    + split.
      * intros H. exfalso. exact (determine_status_not_error _ _ H).
      * intros [H|H]; [discriminate|].
        apply Hr in H as [e He]. discriminate.
    + intros H. exfalso. exact (determine_status_not_error _ _ H).
  - rewrite Hs. cbn. split; [|intros _; repeat split].
    split; [|reflexivity]. intros _. right. apply Hr. exists e. reflexivity.
Qed.

(** X14.  When the accept threshold is not above the review threshold, no image
    is ever sent to review: [validate_image] never answers [NEEDS_REVIEW]. *)
Theorem inverted_thresholds_never_review {rounding : PyFloat.Rounding}
    (env : Env) (self : ImageValidator) (image_path : str)
    (reference_image_path : option str) :
  accept_score_threshold self <= review_score_threshold self ->
  status (validate_image env self image_path reference_image_path)
  <> NEEDS_REVIEW.
Proof.
  intros Hthr. unfold validate_image.
  destruct (negb (path_exists env image_path)); [discriminate|].
  destruct (_check_object_coverage env image_path) as [cov ok].
  set (bg := _check_background_white env image_path).
  set (bl := _check_blur env image_path).
  set (det := _check_object_detection image_path).
  set (sim := similarity_of env image_path reference_image_path).
  pose proof (score_checks_status self bg bl cov det sim) as Hs.
  destruct (weighted_score self bg bl cov det sim) as [o|e].
  - rewrite Hs. unfold determine_status.
    destruct (PyFloat.ge o (accept_score_threshold self)) eqn:Ea;
      [discriminate|].
    destruct (PyFloat.ge o (review_score_threshold self)) eqn:Er;
      [|discriminate].
    apply ge_false in Ea. apply ge_true in Er. lra.
  - rewrite Hs. discriminate.
Qed.

Lemma inverted_thresholds_never_review_witness :
  let self := {| weights := default_weights; accept_score_threshold := 0.70;
                 review_score_threshold := 0.85 |} in
  accept_score_threshold self <= review_score_threshold self
  /\ status (validate_image (rounding := PyFloat.exact) (example_env 0.9 0.8 0.9)
               self (lit "image.jpg") None) <> NEEDS_REVIEW.
Proof.
  intros self.
  assert (H : accept_score_threshold self <= review_score_threshold self)
    by discriminate.
  split; [exact H|].
  exact (inverted_thresholds_never_review (rounding := PyFloat.exact)
           (example_env 0.9 0.8 0.9) self (lit "image.jpg") None H).
Defined.

End image_validator_results.


Module image_checks_results.
Import PyStr image_checks PyFloatFacts image_validator_results.
Local Open Scope Q_scope.

Lemma round_nonneg {rounding : PyFloat.Rounding} (x : Q) :
  representable 0 -> 0 <= x -> 0 <= PyFloat.round x.
Proof.
  unfold representable. intros R0 Hx.
  pose proof (PyFloat.round_le 0 x Hx). lra.
Qed.

Lemma round_le_one {rounding : PyFloat.Rounding} (x : Q) :
  representable 1 -> x <= 1 -> PyFloat.round x <= 1.
Proof.
  unfold representable. intros R1 Hx.
  pose proof (PyFloat.round_le x 1 Hx). lra.
Qed.

Lemma round_ge_one {rounding : PyFloat.Rounding} (x : Q) :
  representable 1 -> 1 <= x -> 1 <= PyFloat.round x.
Proof.
  unfold representable. intros R1 Hx.
  pose proof (PyFloat.round_le 1 x Hx). lra.
Qed.

Lemma quotient_nonneg (a b : Q) : 0 <= a -> 0 < b -> 0 <= a / b.
Proof.
  intros Ha Hb. apply Qle_shift_div_l; [exact Hb | lra].
Qed.

Lemma quotient_le_one (a b : Q) : a <= b -> 0 < b -> a / b <= 1.
Proof.
  intros Hab Hb. apply Qle_shift_div_r; [exact Hb | lra].
Qed.

Lemma quotient_ge_one (a b : Q) : b <= a -> 0 < b -> 1 <= a / b.
Proof.
  intros Hab Hb. apply Qle_shift_div_l; [exact Hb | lra].
Qed.

(** *** Blur *)

(** X15.  With a positive threshold, and OpenCV reporting variances that are
    not negative, [_check_blur] returns a score between 0 and 1 for every file:
    exactly [0.5] when OpenCV is missing, cannot read the file or raises, and
    exactly [1.0] as soon as the variance reaches the threshold. *)
Theorem check_blur_score {rounding : PyFloat.Rounding} (cv2 : Cv2)
    (self : Thresholds) (image_path : str) :
  representable 0 -> representable 1 ->
  0 < blur_threshold self ->
  (forall var, laplacian_variance cv2 image_path = Returns (Some var) ->
               0 <= var) ->
  exists score,
    _check_blur cv2 self image_path = Some score
    /\ 0 <= score <= 1
    /\ ((CV2_AVAILABLE cv2 = false
         \/ laplacian_variance cv2 image_path = Returns None
         \/ exists e, laplacian_variance cv2 image_path = Raises e)
        -> score = 0.5)
    /\ (forall var, CV2_AVAILABLE cv2 = true ->
                    laplacian_variance cv2 image_path = Returns (Some var) ->
                    blur_threshold self <= var -> score = 1.0).
Proof.
  intros R0 R1 Hthr Hvar. unfold _check_blur.
  destruct (CV2_AVAILABLE cv2) eqn:Hcv; cbn [negb].
  2:{ exists 0.5. repeat split; try lra; try reflexivity. intros; discriminate. }
  destruct (laplacian_variance cv2 image_path) as [[var|]|e] eqn:Hlap.
  - specialize (Hvar var eq_refl).
    destruct (Qeq_bool (blur_threshold self) 0) eqn:Hz.
    { apply Qeq_bool_iff in Hz. lra. }
    eexists. split; [reflexivity|].
    pose proof (round_nonneg (var / blur_threshold self) R0
                  (quotient_nonneg _ _ Hvar Hthr)) as Hq.
    destruct (min_bounds 1.0 (PyFloat.div var (blur_threshold self)))
      as (Hm1 & Hm2 & [Hm|Hm]).
    + split; [rewrite Hm; lra|]. split.
      * intros [H|[H|[e H]]]; discriminate.
      * intros v _ Hv _. exact Hm.
    + split; [rewrite Hm in Hm1 |- *; split; [exact Hq | lra]|].
      split.
      * intros [H|[H|[e H]]]; discriminate.
      * intros v _ Hv Hle. injection Hv as <-.
        unfold PyFloat.min.
        destruct (PyFloat.lt (PyFloat.div var (blur_threshold self)) 1.0)
          eqn:Hlt; [|reflexivity].
        apply lt_true in Hlt. unfold PyFloat.div in Hlt.
        pose proof (round_ge_one (var / blur_threshold self) R1
                      (quotient_ge_one _ _ Hle Hthr)).
        lra.
  - exists 0.5. repeat split; try lra; try reflexivity. intros; discriminate.
  - exists 0.5. repeat split; try lra; try reflexivity. intros; discriminate.
Qed.

Lemma exact_representable (x : Q) : representable (H := PyFloat.exact) x.
Proof. unfold representable. cbn. apply Qeq_refl. Qed.

Lemma check_blur_score_witness :
  exists score,
    _check_blur (rounding := PyFloat.exact) (example_cv2 50 [] 0)
      default_thresholds (lit "image.jpg") = Some score
    /\ 0 <= score <= 1.
Proof.
  destruct (check_blur_score (rounding := PyFloat.exact) (example_cv2 50 [] 0)
              default_thresholds (lit "image.jpg")
              (exact_representable 0) (exact_representable 1))
    as (score & Hs & Hr & _).
  - reflexivity.
  - intros var H. injection H as <-. discriminate.
  - exists score. split; [exact Hs | exact Hr].
Defined.

(** *** Object coverage *)

Lemma largest_nonneg (first : Q) (rest : list Q) :
  0 <= first -> Forall (fun a => 0 <= a) rest -> 0 <= largest first rest.
Proof.
  unfold largest. revert first.
  induction rest as [|a rest IH]; intros first Hf Hr; [exact Hf|].
  cbn [fold_left]. inversion Hr as [|? ? Ha Hrest]; subst.
  apply IH; [|exact Hrest].
  destruct (max_bounds first a) as (H1 & _ & _). lra.
Qed.

Lemma truediv_some {rounding : PyFloat.Rounding} (a b q : Q) :
  truediv a b = Some q -> ~ b == 0 /\ q = PyFloat.round (a / b).
Proof.
  unfold truediv, PyFloat.div.
  destruct (Qeq_bool b 0) eqn:E; [discriminate|].
  intros H. injection H as <-. split; [|reflexivity].
  intros Hb. apply Qeq_bool_iff in Hb. congruence.
Qed.


(** The score of a coverage that is not negative lies between 0 and 1. *)
Lemma coverage_score_range {rounding : PyFloat.Rounding} (self : Thresholds)
    (coverage score : Q) (is_ok : bool) :
  representable 0 -> representable 1 ->
  object_coverage_max self <= 1 -> 0 <= coverage ->
  coverage_score self coverage = Some (score, is_ok) ->
  0 <= score <= 1.
Proof.
  intros R0 R1 Hmax Hc. unfold coverage_score.
  destruct (PyFloat.lt coverage (object_coverage_min self)) eqn:Hlt.
  - apply lt_true in Hlt.
    destruct (truediv coverage (object_coverage_min self)) as [ratio|] eqn:Hd;
      [|discriminate].
    apply truediv_some in Hd as [_ ->]. intros H. injection H as <- _.
    assert (Hmin : 0 < object_coverage_min self) by lra.
    pose proof (round_nonneg _ R0 (quotient_nonneg _ _ Hc Hmin)) as H1.
    pose proof (round_le_one (coverage / object_coverage_min self) R1) as H2.
    assert (Hle : coverage <= object_coverage_min self) by lra.
    specialize (H2 (quotient_le_one _ _ Hle Hmin)).
    unfold PyFloat.mul. split.
    + apply round_nonneg; [exact R0 | lra].
    + apply round_le_one; [exact R1 | lra].
  - destruct (PyFloat.gt coverage (object_coverage_max self)) eqn:Hgt.
    + apply gt_true in Hgt.
      destruct (truediv (PyFloat.sub coverage (object_coverage_max self))
                  (PyFloat.sub 1.0 (object_coverage_max self)))
        as [excess|] eqn:Hd; [|discriminate].
      apply truediv_some in Hd as [Hnz ->]. intros H. injection H as <- _.
      unfold PyFloat.sub in *.
      assert (Hd0 : 0 <= PyFloat.round (1.0 - object_coverage_max self))
        by (apply round_nonneg; [exact R0 | lra]).
      assert (Hd1 : 0 < PyFloat.round (1.0 - object_coverage_max self)).
      { destruct (Qlt_le_dec 0 (PyFloat.round (1.0 - object_coverage_max self)))
          as [Hpos|Hneg]; [exact Hpos|].
        exfalso. apply Hnz. lra. }
      assert (Hn : 0 <= PyFloat.round (coverage - object_coverage_max self))
        by (apply round_nonneg; [exact R0 | lra]).
      pose proof (round_nonneg _ R0 (quotient_nonneg _ _ Hn Hd1)) as He.
      set (excess := PyFloat.round _) in He |- *.
      assert (Hm : 0 <= PyFloat.mul excess 0.5)
        by (unfold PyFloat.mul; apply round_nonneg; [exact R0 | lra]).
      assert (Ht : PyFloat.round (1.0 - PyFloat.mul excess 0.5) <= 1)
        by (apply round_le_one; [exact R1 | lra]).
      destruct (max_bounds 0.0 (PyFloat.round (1.0 - PyFloat.mul excess 0.5)))
        as (Hlo & _ & [E|E]); rewrite E in Hlo |- *; split; lra.
    + intros H. injection H as <- _. lra.
Qed.

(** X16.  Whatever OpenCV finds in the file, as long as the areas it reports
    are not negative and the upper threshold is at most 1, the score returned
    by [_check_object_coverage] lies between 0 and 1. *)
Theorem check_object_coverage_range {rounding : PyFloat.Rounding} (cv2 : Cv2)
    (self : Thresholds) (image_path : str) :
  representable 0 -> representable 1 ->
  object_coverage_max self <= 1 ->
  (forall areas total_area,
     contours cv2 image_path = Returns (Some (areas, total_area)) ->
     Forall (fun a => 0 <= a) areas /\ (0 <= total_area)%Z) ->
  0 <= fst (_check_object_coverage cv2 self image_path) <= 1.
Proof.
  intros R0 R1 Hmax Hcv. unfold _check_object_coverage.
  destruct (negb (CV2_AVAILABLE cv2)); [cbn; lra|].
  destruct (contours cv2 image_path) as [[[[|first rest] total_area]|]|e];
    try (cbn; lra).
  destruct (Hcv _ _ eq_refl) as [Hareas Htotal].
  inversion Hareas as [|? ? Hfirst Hrest]; subst.
  cbv zeta.
  destruct (truediv (largest first rest) (inject_Z total_area))
    as [coverage|] eqn:Hd; [|cbn; lra].
  apply truediv_some in Hd as [Hnz ->].
  assert (Hpos : 0 < inject_Z total_area).
  { assert (H0 : 0 <= inject_Z total_area).
    { change 0 with (inject_Z 0). rewrite <- Zle_Qle. exact Htotal. }
    destruct (Qlt_le_dec 0 (inject_Z total_area)) as [H|H]; [exact H|].
    exfalso. apply Hnz. lra. }
  pose proof (round_nonneg _ R0
                (quotient_nonneg _ _ (largest_nonneg _ _ Hfirst Hrest) Hpos))
    as Hc.
  destruct (coverage_score self _) as [[score is_ok]|] eqn:Hs; [|cbn; lra].
  cbn [fst]. exact (coverage_score_range self _ score is_ok R0 R1 Hmax Hc Hs).
Qed.

Lemma check_object_coverage_range_witness :
  0 <= fst (_check_object_coverage (rounding := PyFloat.exact)
              (example_cv2 50 [15; 95; 20] 100) default_thresholds
              (lit "image.jpg")) <= 1.
Proof.
  apply (check_object_coverage_range (rounding := PyFloat.exact)
           (example_cv2 50 [15; 95; 20] 100) default_thresholds
           (lit "image.jpg") (exact_representable 0) (exact_representable 1)).
  - discriminate.
  - intros areas total_area H. injection H as <- <-.
    split; [repeat constructor; discriminate | lia].
Defined.



End image_checks_results.

(** ** The server of [run_server.py] *)

Module run_server_results.
Import PyStr run_server run_server_app run_server_spec.

Section server.
Context {case : CaseMapping}.

(** *** Tasks and submissions *)

Lemma run_snoc (calls : list Call) (c : Call) :
  run (calls ++ [c]) = serve (run calls) c.
Proof. unfold run. rewrite fold_left_app. reflexivity. Qed.

Lemma ids_app (l l' : list (gmap string value)) : ids (l ++ l') = ids l ++ ids l'.
Proof. unfold ids. apply List.map_app. Qed.

Lemma ids_update_first (p : gmap string value -> bool) (f : gmap string value -> gmap string value) (l : list (gmap string value)) :
  (forall d, f d !! "id" = d !! "id") -> ids (update_first p f l) = ids l.
Proof.
  intros Hf. induction l as [|d l IH]; [reflexivity|].
  cbn [update_first]. destruct (p d); cbn [ids List.map].
  - rewrite Hf. reflexivity.
  - f_equal. exact IH.
Qed.

Lemma upto_succ (n : Z) : 0 <= n -> upto (n + 1) = upto n ++ [n + 1].
Proof.
  intros Hn. unfold upto.
  replace (Z.to_nat (n + 1)) with (Z.to_nat n + 1)%nat by lia.
  rewrite seq_app, List.map_app. cbn [seq List.map]. do 2 f_equal. lia.
Qed.

(** What a call does to the tasks. *)
Lemma serve_tasks (s : App) (c : Call) :
  (ids (review_tasks (registry (serve s c))) = ids (review_tasks (registry s))
   /\ length (review_tasks (registry (serve s c)))
      = length (review_tasks (registry s))
   /\ task_counter (serve s c) = task_counter s)
  \/ (exists task,
        review_tasks (registry (serve s c))
        = review_tasks (registry s) ++ [task]
        /\ task !! "id" = Some (VInt (task_counter s + 1))
        /\ task_counter (serve s c) = task_counter s + 1).
Proof.
  destruct c as [request token now | request token | credentials
                | content_type product_name vendor_code credentials disk now
                | request now | request credentials now]; cbn [serve].
  - left. unfold register. destruct (bool_decide _); [tauto|].
    destruct (hash_password _); cbn; tauto.
  - left. unfold login. destruct (users_db s !! _); [|tauto].
    destruct (hash_password _); [|tauto]. destruct (bool_decide _); cbn; tauto.
  - left. unfold logout. destruct credentials; [|tauto].
    destruct (bool_decide _); cbn; tauto.
  - unfold upload_image. destruct (require_vendor credentials s); [|tauto].
    destruct content_type as [content_type|]; [|tauto].
    destruct (negb _); [tauto|]. destruct disk; [|cbn; tauto].
    right. eexists. cbn. split; [reflexivity|]. split; reflexivity.
  - right. eexists. cbn. split; [reflexivity|]. split; reflexivity.
  - left. unfold submit_review_decision.
    destruct (require_official credentials s); [|tauto].
    unfold run_server.submit_review_decision.
    destruct (find _ _); [|tauto]. cbn.
    split; [|split; [|reflexivity]].
    + apply ids_update_first. intros d.
      rewrite !lookup_insert_ne by discriminate. reflexivity.
    + clear. induction (review_tasks (registry s)) as [|d l IH]; [reflexivity|].
      cbn [update_first]. destruct (has_id _ d); cbn [length]; congruence.
Qed.

Lemma tasks_invariant (calls : list Call) :
  0 <= task_counter (run calls)
  /\ has_ids (upto (task_counter (run calls)))
             (review_tasks (registry (run calls))).
Proof.
  induction calls as [|c calls IH] using rev_ind.
  - split; [reflexivity | reflexivity].
  - rewrite run_snoc. destruct IH as [Hn Hids].
    destruct (serve_tasks (run calls) c) as [(Ei & _ & En)|(task & Et & Hid & En)].
    + rewrite En. split; [exact Hn|]. unfold has_ids. rewrite Ei. exact Hids.
    + rewrite En, Et. split; [lia|]. unfold has_ids in *.
      rewrite ids_app, Hids, upto_succ, List.map_app by exact Hn.
      cbn [ids List.map]. rewrite Hid. reflexivity.
Qed.


Lemma increasing_weaken (lo lo' : Z) (ks : list Z) :
  lo' <= lo -> increasing lo ks -> increasing lo' ks.
Proof. destruct ks as [|k ks]; cbn; [tauto|]. intros ? [? ?]. split; [lia|assumption]. Qed.

Lemma increasing_above (lo : Z) (ks : list Z) (k : Z) :
  increasing lo ks -> In k ks -> lo < k.
Proof.
  revert lo. induction ks as [|k0 ks IH]; intros lo; cbn; [tauto|].
  intros [Hlo Hks] [->|Hin]; [exact Hlo|].
  specialize (IH _ Hks Hin). lia.
Qed.

Lemma increasing_snoc (lo : Z) (ks : list Z) (k : Z) :
  increasing lo ks -> lo < k -> Forall (fun k' => k' < k) ks ->
  increasing lo (ks ++ [k]).
Proof.
  revert lo. induction ks as [|k0 ks IH]; intros lo; cbn.
  - tauto.
  - intros [Hlo Hks] _ Hall. inversion Hall as [|? ? Hk0 Hall']; subst.
    split; [exact Hlo|]. apply IH; assumption.
Qed.

Lemma increasing_upto (n : Z) : increasing 0 (upto n).
Proof.
  unfold upto. generalize (Z.to_nat n) as m. intros m.
  change 0 with (Z.of_nat 0). generalize 0%nat as a. 
  induction m as [|m IH]; intros a; cbn [seq List.map increasing]; [exact I|].
  split; [lia|]. apply IH.
Qed.

Lemma in_upto (n k : Z) : In k (upto n) <-> 1 <= k <= n.
Proof.
  unfold upto. rewrite in_map_iff. split.
  - intros (i & <- & Hi). apply in_seq in Hi. lia.
  - intros Hk. exists (Z.to_nat k). split; [lia|]. apply in_seq. lia.
Qed.

Lemma has_id_true (k : Z) (d : gmap string value) :
  has_id (VInt k) d = true <-> d !! "id" = Some (VInt k).
Proof. unfold has_id. apply bool_decide_eq_true. Qed.

Lemma has_ids_cons_inv (ks : list Z) (d : gmap string value)
    (l : list (gmap string value)) :
  has_ids ks (d :: l) ->
  exists k ks', ks = k :: ks' /\ d !! "id" = Some (VInt k) /\ has_ids ks' l.
Proof.
  unfold has_ids. destruct ks as [|k ks']; cbn [ids List.map]; [discriminate|].
  intros [= Hd Hl]. eauto.
Qed.

Lemma has_ids_absent (f : gmap string value -> gmap string value) (k : Z)
    (ks : list Z) (l : list (gmap string value)) :
  has_ids ks l -> ~ In k ks ->
  find (has_id (VInt k)) l = None /\ update_first (has_id (VInt k)) f l = l.
Proof.
  revert ks. induction l as [|d l IH]; intros ks Hids Hin; [split; reflexivity|].
  apply has_ids_cons_inv in Hids as (k0 & ks' & -> & Hd & Hl).
  cbn [find update_first].
  destruct (has_id (VInt k) d) eqn:E.
  - apply has_id_true in E. exfalso. apply Hin. left. congruence.
  - destruct (IH ks' Hl) as [-> ->]; [|split; reflexivity].
    intros H. apply Hin. right. exact H.
Qed.

(** In a registry with increasing ids, the loop that stops at the first
    dictionary of a given id finds the only one. *)
Lemma has_ids_present (f : gmap string value -> gmap string value) (k lo : Z)
    (ks : list Z) (l : list (gmap string value)) :
  has_ids ks l -> increasing lo ks -> In k ks ->
  exists i d,
    l !! i = Some d /\ d !! "id" = Some (VInt k)
    /\ find (has_id (VInt k)) l = Some d
    /\ update_first (has_id (VInt k)) f l = <[i := f d]> l
    /\ (forall j d', l !! j = Some d' -> d' !! "id" = Some (VInt k) -> j = i).
Proof.
  revert ks lo. induction l as [|d l IH]; intros ks lo Hids Hinc Hin.
  - destruct ks; [destruct Hin | discriminate].
  - apply has_ids_cons_inv in Hids as (k0 & ks' & -> & Hd & Hl).
    destruct Hinc as [Hlo Hinc]. cbn [find update_first].
    destruct (has_id (VInt k) d) eqn:E.
    + apply has_id_true in E. assert (k0 = k) as -> by congruence.
      exists 0%nat, d. repeat split; try reflexivity; try assumption.
      intros [|j] d' Hj Hd'; [reflexivity|]. exfalso.
      cbn in Hj.
      assert (Hk : In k ks').
      { unfold has_ids, ids in Hl.
        assert (In (Some (VInt k)) (List.map (fun d => d !! "id") l)).
        { apply in_map_iff. exists d'. split; [exact Hd'|].
          eapply list_elem_of_In, list_elem_of_lookup_2, Hj. }
        rewrite Hl in H. apply in_map_iff in H as (k' & [= ->] & Hk'). exact Hk'. }
      pose proof (increasing_above _ _ _ Hinc Hk). lia.
    + destruct Hin as [->|Hin].
      { apply not_true_iff_false in E. exfalso. apply E, has_id_true, Hd. }
      destruct (IH ks' k0 Hl Hinc Hin) as (i & d0 & Hi & Hd0 & Hfind & Hupd & Huniq).
      exists (S i), d0. repeat split; try assumption.
      * cbn. rewrite Hupd. reflexivity.
      * intros [|j] d' Hj Hd'.
        -- cbn in Hj. injection Hj as <-. apply not_true_iff_false in E.
           exfalso. apply E, has_id_true, Hd'.
        -- f_equal. eapply Huniq; eassumption.
Qed.


Lemma map_lookup {A B} (f : A -> B) (l : list A) (i : nat) :
  List.map f l !! i = f <$> (l !! i).
Proof.
  revert i. induction l as [|x l IH]; intros [|i]; cbn; try reflexivity.
  apply IH.
Qed.

Lemma upto_lookup (n : Z) (i : nat) (k : Z) :
  upto n !! i = Some k -> k = Z.of_nat i + 1.
Proof.
  unfold upto. rewrite map_lookup. intros H.
  destruct (seq 1 (Z.to_nat n) !! i) as [m|] eqn:E; [|discriminate].
  injection H as <-. apply lookup_seq in E as [-> _]. lia.
Qed.

Lemma has_ids_lookup (ks : list Z) (l : list (gmap string value)) (i : nat)
    (d : gmap string value) :
  has_ids ks l -> l !! i = Some d ->
  exists k, ks !! i = Some k /\ d !! "id" = Some (VInt k).
Proof.
  unfold has_ids, ids. intros Hids Hd.
  apply (f_equal (fun x => x !! i)) in Hids. rewrite !map_lookup, Hd in Hids.
  destruct (ks !! i) as [k|]; [|discriminate]. injection Hids as ->. eauto.
Qed.

Lemma has_ids_length (ks : list Z) (l : list (gmap string value)) :
  has_ids ks l -> length l = length ks.
Proof.
  unfold has_ids, ids. intros H. apply (f_equal (@length _)) in H.
  rewrite !length_map in H. exact H.
Qed.

Lemma upto_length (n : Z) : length (upto n) = Z.to_nat n.
Proof. unfold upto. rewrite length_map, length_seq. reflexivity. Qed.

(** X18.  In every state the server can reach, the tasks of [review_tasks] are
    numbered 1, 2, ... in the order of their creation, up to [task_counter]: no
    two tasks share an id and no id is skipped. *)
Theorem task_ids_are_consecutive (calls : list Call) :
  let s := run calls in
  Z.of_nat (length (review_tasks (registry s))) = task_counter s
  /\ forall (i : nat) (task : gmap string value),
       review_tasks (registry s) !! i = Some task ->
       task !! "id" = Some (VInt (Z.of_nat i + 1)).
Proof.
  cbv zeta. destruct (tasks_invariant calls) as [Hn Hids]. split.
  - rewrite (has_ids_length _ _ Hids), upto_length. lia.
  - intros i task Hi.
    destruct (has_ids_lookup _ _ _ _ Hids Hi) as (k & Hk & Hd).
    apply upto_lookup in Hk. congruence.
Qed.

Lemma first_with_id_find (k : Z) (ks : list Z)
    (l : list (gmap string value)) :
  has_ids ks l ->
  first_with_id k l
  = match find (has_id (VInt k)) l with
    | Some d => Ok d
    | None => Raise (HTTPException 404)
    end.
Proof.
  revert ks. induction l as [|d l IH]; intros ks Hids; [reflexivity|].
  apply has_ids_cons_inv in Hids as (k0 & ks' & -> & Hd & Hl).
  cbn [first_with_id find]. rewrite Hd. cbn [eq_int]. unfold has_id at 1.
  rewrite Hd. destruct (Z.eqb_spec k0 k) as [->|Hne].
  - rewrite bool_decide_eq_true_2 by reflexivity. reflexivity.
  - rewrite bool_decide_eq_false_2 by congruence. apply (IH ks' Hl).
Qed.

(** The task found for an id on the server: the one at position [id - 1]. *)
Lemma server_task (calls : list Call) (task_id : Z)
    (f : gmap string value -> gmap string value) :
  let tasks := review_tasks (registry (run calls)) in
  (1 <= task_id <= task_counter (run calls) ->
   exists task,
     tasks !! Z.to_nat (task_id - 1) = Some task
     /\ task !! "id" = Some (VInt task_id)
     /\ find (has_id (VInt task_id)) tasks = Some task
     /\ update_first (has_id (VInt task_id)) f tasks
        = <[Z.to_nat (task_id - 1) := f task]> tasks)
  /\ (~ 1 <= task_id <= task_counter (run calls) ->
      find (has_id (VInt task_id)) tasks = None
      /\ update_first (has_id (VInt task_id)) f tasks = tasks).
Proof.
  cbv zeta. destruct (tasks_invariant calls) as [Hn Hids]. split.
  - intros Hin. apply in_upto in Hin.
    destruct (has_ids_present f _ _ _ _ Hids (increasing_upto _) Hin)
      as (i & d & Hi & Hd & Hfind & Hupd & _).
    destruct (has_ids_lookup _ _ _ _ Hids Hi) as (k & Hk & Hd').
    apply upto_lookup in Hk.
    assert (Z.to_nat (task_id - 1) = i) as -> by (rewrite Hd in Hd'; injection Hd' as ->; lia).
    exists d. repeat split; assumption.
  - intros Hout. apply (has_ids_absent f _ _ _ Hids).
    intros H. apply Hout, in_upto, H.
Qed.

(** X19.  On the server, an official gets the task of every id between 1 and
    [task_counter], which is the task created with that number, and the answer
    404 for every other id. *)
Theorem get_review_task_on_server (calls : list Call)
    (credentials : option str) (user : User.t) (task_id : Z) :
  let s := run calls in
  require_official credentials s = Ok user ->
  (1 <= task_id <= task_counter s ->
   exists task,
     get_review_task task_id credentials s = Ok task
     /\ review_tasks (registry s) !! Z.to_nat (task_id - 1) = Some task
     /\ task !! "id" = Some (VInt task_id))
  /\ (~ 1 <= task_id <= task_counter s ->
      get_review_task task_id credentials s = Raise (HTTPException 404)).
Proof.
  cbv zeta. intros Hoff. unfold get_review_task. rewrite Hoff.
  destruct (tasks_invariant calls) as [_ Hids].
  rewrite (first_with_id_find _ _ _ Hids).
  destruct (server_task calls task_id (fun d => d)) as [Hin Hout]. split.
  - intros H. destruct (Hin H) as (task & Hi & Hd & Hfind & _).
    exists task. rewrite Hfind. repeat split; assumption.
  - intros H. destruct (Hout H) as [-> _]. reflexivity.
Qed.


(** X20.  On the server, the decision of an official is recorded exactly for
    the ids between 1 and [task_counter]; it changes the task of that id (its
    status becomes the decision, whatever the status was) and no other task, no
    user, no session and no counter.  For every other id the answer is 404 and
    nothing changes. *)
Theorem submit_review_decision_on_server (calls : list Call)
    (request : SubmitReviewDecisionRequest) (credentials : option str)
    (now : Z) (user : User.t) :
  let s := run calls in
  let r := submit_review_decision request credentials now s in
  let task_id := review_task_id request in
  let position := Z.to_nat (task_id - 1) in
  require_official credentials s = Ok user ->
  (1 <= task_id <= task_counter s ->
   fst r = Ok (Recorded task_id (decision request))
   /\ (exists task,
         review_tasks (registry (snd r)) !! position = Some task
         /\ task !! "id" = Some (VInt task_id)
         /\ task !! "status" = Some (VStr (decision request))
         /\ task !! "reviewed_by" = Some (VStr (User.name user)))
   /\ (forall i : nat, i <> position ->
         review_tasks (registry (snd r)) !! i
         = review_tasks (registry s) !! i)
   /\ users_db (snd r) = users_db s /\ tokens_db (snd r) = tokens_db s
   /\ task_counter (snd r) = task_counter s
   /\ submission_counter (snd r) = submission_counter s)
  /\ (~ 1 <= task_id <= task_counter s ->
      r = (Raise (HTTPException 404), s)).
Proof.
  cbv zeta. intros Hoff.
  unfold submit_review_decision, run_server.submit_review_decision.
  rewrite Hoff.
  match goal with
  | |- context [update_first _ ?f (review_tasks _)] => set (decide_task := f)
  end.
  destruct (server_task calls (review_task_id request) decide_task)
    as [Hin Hout].
  split.
  - intros H. destruct (Hin H) as (task & Hi & Hd & Hfind & Hupd).
    rewrite Hfind. cbn [fst snd registry review_tasks users_db tokens_db
                        task_counter submission_counter].
    rewrite Hupd. split; [reflexivity|]. split; [|split].
    + exists (decide_task task). split.
      * apply list_lookup_insert_eq. eapply lookup_lt_Some, Hi.
      * unfold decide_task. split; [|split].
        -- rewrite !lookup_insert_ne by discriminate. exact Hd.
        -- rewrite !lookup_insert_ne by discriminate. apply lookup_insert_eq.
        -- rewrite !lookup_insert_ne by discriminate. apply lookup_insert_eq.
    + intros i Hne. apply list_lookup_insert_ne. congruence.
    + repeat split.
  - intros H. destruct (Hout H) as [-> _]. reflexivity.
Qed.

Lemma Forall_update_first {A} (P : A -> Prop) (p : A -> bool) (f : A -> A)
    (l : list A) :
  (forall x, P x -> P (f x)) -> Forall P l -> Forall P (update_first p f l).
Proof.
  intros Hf. induction 1 as [|x l Hx Hl IH]; cbn [update_first]; [constructor|].
  destruct (p x); constructor; auto.
Qed.

Lemma linked_weaken (ks : list Z) (k : Z) (task : gmap string value) :
  linked ks task -> linked (ks ++ [k]) task.
Proof.
  intros H v Hv. destruct (H v Hv) as (k' & -> & Hin).
  exists k'. split; [reflexivity|]. apply in_or_app. left. exact Hin.
Qed.

Lemma task_record_unlinked (ks : list Z) (id product_id product_image_id : Z)
    (product_name vendor_code vendor_name vendor_email canonical_sku
     image_url : str) (validation_score : Q)
    (validation_checks : gmap string Q) (failure_reason : str) (now : Z) :
  linked ks (task_record id product_id product_image_id product_name
               vendor_code vendor_name vendor_email canonical_sku image_url
               validation_score validation_checks failure_reason now).
Proof.
  intros v. unfold task_record.
  rewrite !lookup_insert_ne by discriminate. rewrite lookup_empty. discriminate.
Qed.

Lemma submissions_step (s : App) (c : Call) (ks : list Z) :
  submissions_invariant s ks ->
  exists ks', submissions_invariant (serve s c) ks'.
Proof.
  intros (Hc & Hids & Hinc & Hle & Hlink).
  assert (Hsame : submissions_invariant s ks) by (repeat split; assumption).
  destruct c as [request token now | request token | credentials
                | content_type product_name vendor_code credentials disk now
                | request now | request credentials now]; cbn [serve].
  - exists ks. unfold register. destruct (bool_decide _); [exact Hsame|].
    destruct (hash_password _); exact Hsame.
  - exists ks. unfold login. destruct (users_db s !! _); [|exact Hsame].
    destruct (hash_password _); [|exact Hsame].
    destruct (bool_decide _); exact Hsame.
  - exists ks. unfold logout. destruct credentials; [|exact Hsame].
    destruct (bool_decide _); exact Hsame.
  - unfold upload_image.
    destruct (require_vendor credentials s); [|exists ks; exact Hsame].
    destruct content_type as [content_type|]; [|exists ks; exact Hsame].
    destruct (negb _); [exists ks; exact Hsame|].
    destruct disk as [[]|e].
    + exists (ks ++ [submission_counter s + 1]).
      unfold submissions_invariant.
      cbn [snd registry submissions_db review_tasks submission_counter].
      split; [lia|]. split; [|split; [|split]].
      * unfold has_ids in *. rewrite ids_app, Hids, List.map_app.
        reflexivity.
      * apply increasing_snoc; [exact Hinc | lia |].
        eapply Forall_impl; [exact Hle|]. cbv beta. intros; lia.
      * apply Forall_app. split.
        -- eapply Forall_impl; [exact Hle|]. cbv beta. intros; lia.
        -- constructor; [lia | constructor].
      * apply Forall_app. split.
        -- eapply Forall_impl; [exact Hlink|]. intros t. apply linked_weaken.
        -- constructor; [|constructor]. intros v.
           rewrite lookup_insert_eq. intros [= <-]. eexists. split; [reflexivity|].
           apply in_or_app. right. left. reflexivity.
    + exists ks. unfold submissions_invariant.
      cbn [snd registry submissions_db review_tasks submission_counter].
      split; [lia|]. split; [exact Hids|]. split; [exact Hinc|].
      split; [|exact Hlink].
      eapply Forall_impl; [exact Hle|]. cbv beta. intros; lia.
  - exists ks. unfold submissions_invariant.
    cbn [snd create_review_task_public registry submissions_db review_tasks
         submission_counter].
    split; [exact Hc|]. split; [exact Hids|]. split; [exact Hinc|].
    split; [exact Hle|]. apply Forall_app. split; [exact Hlink|].
    constructor; [apply task_record_unlinked | constructor].
  - exists ks. unfold submit_review_decision.
    destruct (require_official credentials s); [|exact Hsame].
    unfold run_server.submit_review_decision.
    destruct (find _ _); [|exact Hsame].
    unfold submissions_invariant.
    cbn [snd registry submissions_db review_tasks submission_counter].
    split; [exact Hc|]. split; [|split; [exact Hinc|split; [exact Hle|]]].
    + unfold has_ids. rewrite ids_update_first; [exact Hids|].
      intros d. rewrite !lookup_insert_ne by discriminate. reflexivity.
    + apply Forall_update_first; [|exact Hlink].
      intros t Ht v. rewrite !lookup_insert_ne by discriminate. apply Ht.
Qed.

Lemma submissions_reachable (calls : list Call) :
  exists ks, submissions_invariant (run calls) ks.
Proof.
  induction calls as [|c calls IH] using rev_ind.
  - exists []. repeat split; try constructor. reflexivity.
  - rewrite run_snoc. destruct IH as [ks IH]. exact (submissions_step _ c ks IH).
Qed.

(** X21.  In every state the server can reach, the ids of the submissions
    increase strictly in the order of [submissions_db], all lie between 1 and
    [submission_counter], and every task that carries a ["submission_id"]
    carries the id of a submission that exists. *)
Theorem submission_ids_increase (calls : list Call) :
  let s := run calls in
  exists ks : list Z,
    has_ids ks (submissions_db (registry s))
    /\ increasing 0 ks
    /\ Forall (fun k => k <= submission_counter s) ks
    /\ forall task v,
         In task (review_tasks (registry s)) ->
         task !! "submission_id" = Some v ->
         exists k, v = VInt k /\ In k ks.
Proof.
  cbv zeta. destruct (submissions_reachable calls)
    as (ks & _ & Hids & Hinc & Hle & Hlink).
  exists ks. repeat split; try assumption.
  intros task v Hin. rewrite Forall_forall in Hlink.
  apply list_elem_of_In in Hin. exact (Hlink task Hin v).
Qed.


(** X22.  On the server, a decision on a task that came from an upload reaches
    the submission of that upload, and only that one: its status becomes the
    decision, with the feedback and the name of the official; every other
    submission stays as it was. *)
Theorem decision_reaches_the_submission (calls : list Call)
    (request : SubmitReviewDecisionRequest) (credentials : option str)
    (now : Z) (user : User.t) (task : gmap string value) (k : Z) :
  let s := run calls in
  let s' := snd (submit_review_decision request credentials now s) in
  require_official credentials s = Ok user ->
  In task (review_tasks (registry s)) ->
  task !! "id" = Some (VInt (review_task_id request)) ->
  task !! "submission_id" = Some (VInt k) ->
  exists (i : nat) (sub sub' : gmap string value),
    submissions_db (registry s) !! i = Some sub
    /\ sub !! "id" = Some (VInt k)
    /\ submissions_db (registry s') !! i = Some sub'
    /\ sub' !! "id" = Some (VInt k)
    /\ sub' !! "status" = Some (VStr (decision request))
    /\ sub' !! "feedback"
       = Some (opt_value (str_or (feedback_message request)
                                 (reviewer_notes request)))
    /\ sub' !! "reviewed_by" = Some (VStr (User.name user))
    /\ forall j : nat, j <> i ->
         submissions_db (registry s') !! j = submissions_db (registry s) !! j.
Proof.
  cbv zeta. intros Hoff Hin Hid Hsub.
  destruct (tasks_invariant calls) as [_ Htasks].
  destruct (submissions_reachable calls) as (ks & _ & Hids & Hinc & _ & Hlink).
  apply list_elem_of_In, list_elem_of_lookup_1 in Hin as [i0 Hi0].
  assert (Hk : In k ks).
  { rewrite Forall_forall in Hlink.
    destruct (Hlink task (list_elem_of_lookup_2 _ _ _ Hi0) _ Hsub)
      as (k' & [= <-] & Hk'). exact Hk'. }
  assert (Hfind : find (has_id (VInt (review_task_id request)))
                    (review_tasks (registry (run calls))) = Some task).
  { destruct (has_ids_lookup _ _ _ _ Htasks Hi0) as (k0 & Hk0 & Hd0).
    assert (Hin : In (review_task_id request)
                     (upto (task_counter (run calls)))).
    { rewrite Hid in Hd0. injection Hd0 as ->.
      eapply list_elem_of_In, list_elem_of_lookup_2, Hk0. }
    destruct (has_ids_present (fun d => d) _ _ _ _ Htasks
                (increasing_upto _) Hin)
      as (i & d & Hi & _ & Hf & _ & Huniq).
    rewrite Hf. f_equal. rewrite (Huniq i0 task Hi0 Hid) in Hi0. congruence. }
  unfold submit_review_decision, run_server.submit_review_decision.
  rewrite Hoff, Hfind, Hsub.
  cbn [snd registry submissions_db default from_option id].
  match goal with
  | |- context [update_first _ ?f (submissions_db _)] =>
      set (decide_submission := f)
  end.
  destruct (has_ids_present decide_submission _ _ _ _ Hids Hinc Hk)
    as (i & sub & Hi & Hd & _ & Hupd & _).
  rewrite Hupd. exists i, sub, (decide_submission sub).
  split; [exact Hi|]. split; [exact Hd|]. split.
  { apply list_lookup_insert_eq. eapply lookup_lt_Some, Hi. }
  unfold decide_submission. split; [|split; [|split; [|split]]].
  - rewrite !lookup_insert_ne by discriminate. exact Hd.
  - rewrite !lookup_insert_ne by discriminate. apply lookup_insert_eq.
  - rewrite !lookup_insert_ne by discriminate. apply lookup_insert_eq.
  - rewrite !lookup_insert_ne by discriminate. apply lookup_insert_eq.
  - intros j Hj. apply list_lookup_insert_ne. congruence.
Qed.


(** *** The pending tasks *)

Lemma select_filter (key : string) (test : value -> bool)
    (l r : list (gmap string value)) :
  select key test l = Ok r -> r = List.filter (key_test key test) l.
Proof.
  revert r. induction l as [|t l IH]; intros r; cbn [select List.filter].
  - intros [= <-]. reflexivity.
  - unfold key_test at 1. destruct (t !! key) as [v|]; [|discriminate].
    destruct (select key test l) as [rest|]; [|discriminate].
    intros [= <-]. rewrite (IH rest eq_refl). reflexivity.
Qed.

Lemma select_total (key : string) (test : value -> bool)
    (l : list (gmap string value)) :
  Forall (fun t => is_Some (t !! key)) l ->
  select key test l = Ok (List.filter (key_test key test) l).
Proof.
  induction 1 as [|t l [v Hv] Hl IH]; [reflexivity|].
  cbn [select List.filter]. unfold key_test at 1. rewrite Hv, IH. reflexivity.
Qed.

Lemma filter_sublist {A} (p : A -> bool) (l : list A) :
  sublist (List.filter p l) l.
Proof.
  induction l as [|x l IH]; cbn [List.filter]; [constructor|].
  destruct (p x); [apply sublist_skip | apply sublist_cons]; exact IH.
Qed.

Lemma list_slice_to_sublist {A} (l : list A) (n : Z) :
  sublist (list_slice_to l n) l.
Proof. unfold list_slice_to. destruct (0 <=? n); apply sublist_take. Qed.

Lemma list_slice_to_length {A} (l : list A) (n : Z) :
  0 <= n -> Z.of_nat (length (list_slice_to l n)) <= n.
Proof.
  intros Hn. unfold list_slice_to. rewrite (proj2 (Z.leb_le 0 n) Hn).
  rewrite length_firstn. lia.
Qed.

Lemma Forall_sublist {A} (P : A -> Prop) (l k : list A) :
  sublist l k -> Forall P k -> Forall P l.
Proof.
  intros Hs Hk. rewrite Forall_forall in *.
  intros x Hx. apply Hk. eapply sublist_submseteq in Hs.
  eapply elem_of_submseteq; eassumption.
Qed.

Lemma Forall_filter_test {A} (p : A -> bool) (l : list A) :
  Forall (fun x => p x = true) (List.filter p l).
Proof.
  rewrite Forall_forall. intros x Hx.
  apply list_elem_of_In, filter_In in Hx. tauto.
Qed.

(** X23.  What [get_pending_review_tasks] answers when it answers: the caller
    is an official; [task_count] is the number of tasks listed; the tasks
    listed are tasks of the registry, in the order of the registry, all
    pending, and all of the priority asked for when it is not 0; a [limit] that
    is not negative bounds their number.  The priority 0 is no filter at all. *)
Theorem pending_listing (limit : Z) (priority : option Z)
    (credentials : option str) (s : App) (task_count : Z)
    (tasks : list (gmap string value)) :
  get_pending_review_tasks limit priority credentials s
  = Ok (task_count, tasks) ->
  (exists user, require_official credentials s = Ok user)
  /\ task_count = Z.of_nat (length tasks)
  /\ sublist tasks (review_tasks (registry s))
  /\ Forall (fun t => t !! "status" = Some (VStr (lit "pending"))) tasks
  /\ (forall p, priority = Some p -> p <> 0 ->
        Forall (fun t => exists v, t !! "priority" = Some v
                                   /\ eq_int v p = true) tasks)
  /\ (0 <= limit -> task_count <= limit)
  /\ get_pending_review_tasks limit (Some 0) credentials s
     = get_pending_review_tasks limit None credentials s.
Proof.
  unfold get_pending_review_tasks.
  destruct (require_official credentials s) as [user|]; [|discriminate].
  destruct (select "status" _ _) as [pending|] eqn:Hsel; [|discriminate].
  apply select_filter in Hsel.
  set (filtered := match priority with
                   | Some p => if p =? 0 then Ok pending else _
                   | None => _
                   end).
  destruct filtered as [chosen|] eqn:Hf; [|discriminate].
  intros [= <- <-].
  assert (Hchosen : sublist chosen pending
                    /\ forall p, priority = Some p -> p <> 0 ->
                         chosen = List.filter (key_test "priority"
                                                 (fun v => eq_int v p)) pending).
  { subst filtered. destruct priority as [p|].
    - destruct (Z.eqb_spec p 0) as [->|Hp].
      + injection Hf as <-. split; [reflexivity|]. intros p [= <-] H. lia.
      + apply select_filter in Hf. split.
        * rewrite Hf. apply filter_sublist.
        * intros p' [= <-] _. exact Hf.
    - injection Hf as <-. split; [reflexivity|]. discriminate. }
  destruct Hchosen as [Hsub Hprio].
  assert (Hpend : Forall (fun t => t !! "status" = Some (VStr (lit "pending")))
                         pending).
  { rewrite Hsel. eapply Forall_impl; [apply Forall_filter_test|].
    intros t. unfold key_test. destruct (t !! "status") as [v|]; [|discriminate].
    intros H. apply bool_decide_eq_true in H. congruence. }
  split; [eauto|]. split; [reflexivity|]. split; [|split; [|split; [|split]]].
  - etransitivity; [apply list_slice_to_sublist|].
    etransitivity; [exact Hsub|]. rewrite Hsel. apply filter_sublist.
  - eapply Forall_sublist; [apply list_slice_to_sublist|].
    eapply Forall_sublist; [exact Hsub | exact Hpend].
  - intros p Hp Hp0. eapply Forall_sublist; [apply list_slice_to_sublist|].
    rewrite (Hprio p Hp Hp0).
    eapply Forall_impl; [apply Forall_filter_test|].
    intros t. unfold key_test. destruct (t !! "priority") as [v|]; [|discriminate].
    eauto.
  - apply list_slice_to_length.
  - reflexivity.
Qed.

Lemma task_record_shape (id product_id product_image_id : Z)
    (product_name vendor_code vendor_name vendor_email canonical_sku
     image_url : str) (validation_score : Q)
    (validation_checks : gmap string Q) (failure_reason : str) (now : Z) :
  task_shape (task_record id product_id product_image_id product_name
                vendor_code vendor_name vendor_email canonical_sku image_url
                validation_score validation_checks failure_reason now).
Proof.
  unfold task_shape, task_record. split.
  - rewrite !lookup_insert_ne by discriminate. rewrite lookup_insert_eq. eauto.
  - rewrite !lookup_insert_ne by discriminate. apply lookup_insert_eq.
Qed.

Lemma tasks_shape (calls : list Call) :
  Forall task_shape (review_tasks (registry (run calls))).
Proof.
  induction calls as [|c calls IH] using rev_ind; [constructor|].
  rewrite run_snoc. set (s := run calls) in *.
  destruct c as [request token now | request token | credentials
                | content_type product_name vendor_code credentials disk now
                | request now | request credentials now]; cbn [serve].
  - unfold register. destruct (bool_decide _); [exact IH|].
    destruct (hash_password _); exact IH.
  - unfold login. destruct (users_db s !! _); [|exact IH].
    destruct (hash_password _); [|exact IH]. destruct (bool_decide _); exact IH.
  - unfold logout. destruct credentials; [|exact IH].
    destruct (bool_decide _); exact IH.
  - unfold upload_image. destruct (require_vendor credentials s); [|exact IH].
    destruct content_type as [content_type|]; [|exact IH].
    destruct (negb _); [exact IH|]. destruct disk; [|exact IH].
    cbn [snd registry review_tasks]. apply Forall_app. split; [exact IH|].
    constructor; [|constructor].
    destruct (task_record_shape (task_counter s + 1)
                (submission_counter s + 1) (submission_counter s + 1)
                product_name vendor_code (User.name a) (User.email a)
                (slice_to (upper vendor_code) 4 ++ lit "-" ++ upper vendor_code)
                (lit "/uploads/" ++ lit "submission_"
                 ++ str_of_int (submission_counter s + 1) ++ lit "."
                 ++ (if contains (lit "jpeg") content_type
                     then lit "jpg" else lit "png"))
                0.70%Q pending_checks (lit "Awaiting human review") now)
      as [H1 H2].
    split; rewrite lookup_insert_ne by discriminate; assumption.
  - cbn [snd create_review_task_public registry review_tasks].
    apply Forall_app. split; [exact IH|].
    constructor; [apply task_record_shape | constructor].
  - unfold submit_review_decision.
    destruct (require_official credentials s); [|exact IH].
    unfold run_server.submit_review_decision.
    destruct (find _ _); [|exact IH]. cbn [snd registry review_tasks].
    apply Forall_update_first; [|exact IH].
    intros t [H1 H2]. split.
    + rewrite !lookup_insert_ne by discriminate. rewrite lookup_insert_eq. eauto.
    + rewrite !lookup_insert_ne by discriminate. exact H2.
Qed.

Lemma filter_all {A} (p : A -> bool) (l : list A) :
  Forall (fun x => p x = true) l -> List.filter p l = l.
Proof.
  induction 1 as [|x l Hx Hl IH]; [reflexivity|].
  cbn [List.filter]. rewrite Hx, IH. reflexivity.
Qed.

Lemma filter_none {A} (p : A -> bool) (l : list A) :
  Forall (fun x => p x = false) l -> List.filter p l = [].
Proof.
  induction 1 as [|x l Hx Hl IH]; [reflexivity|].
  cbn [List.filter]. rewrite Hx, IH. reflexivity.
Qed.

(** X24.  On the server an official always gets a listing, never an error.
    Every task there has the priority 3, so the filter has no use: asking for
    the priority 3 (or 0, or none) lists the pending tasks, and asking for any
    other priority lists nothing. *)
Theorem pending_listing_on_server (calls : list Call) (limit : Z)
    (priority : option Z) (credentials : option str) (user : User.t) :
  let s := run calls in
  require_official credentials s = Ok user ->
  exists tasks : list (gmap string value),
    get_pending_review_tasks limit None credentials s
    = Ok (Z.of_nat (length tasks), tasks)
    /\ (priority = None \/ priority = Some 0 \/ priority = Some 3 ->
        get_pending_review_tasks limit priority credentials s
        = Ok (Z.of_nat (length tasks), tasks))
    /\ (forall p, priority = Some p -> p <> 0 -> p <> 3 ->
        get_pending_review_tasks limit priority credentials s = Ok (0, [])).
Proof.
  cbv zeta. intros Hoff. pose proof (tasks_shape calls) as Hshape.
  set (s := run calls) in *. unfold get_pending_review_tasks. rewrite Hoff.
  rewrite select_total
    by (eapply Forall_impl; [exact Hshape|]; intros t [H _]; exact H).
  set (pending := List.filter _ (review_tasks (registry s))).
  assert (Hprio : Forall (fun t => t !! "priority" = Some (VInt 3)) pending).
  { eapply Forall_sublist; [apply filter_sublist|].
    eapply Forall_impl; [exact Hshape|]. intros t [_ H]; exact H. }
  exists (list_slice_to pending limit). split; [reflexivity|]. split.
  - intros [-> | [-> | ->]]; try reflexivity.
    cbn [Z.eqb]. rewrite select_total
      by (eapply Forall_impl; [exact Hprio|]; intros t H; rewrite H; eauto).
    rewrite filter_all; [reflexivity|].
    eapply Forall_impl; [exact Hprio|]. intros t H.
    unfold key_test. rewrite H. reflexivity.
  - intros p -> Hp0 Hp3. rewrite (proj2 (Z.eqb_neq p 0) Hp0).
    rewrite select_total
      by (eapply Forall_impl; [exact Hprio|]; intros t H; rewrite H; eauto).
    rewrite filter_none.
    + unfold list_slice_to. destruct (0 <=? limit); rewrite firstn_nil; reflexivity.
    + eapply Forall_impl; [exact Hprio|]. intros t H.
      unfold key_test. rewrite H. cbn [eq_int]. apply Z.eqb_neq. lia.
Qed.


(** *** Accounts and sessions *)

Lemma serve_users (s : App) (c : Call) (email : str) (user : User.t) :
  users_db s !! email = Some user -> users_db (serve s c) !! email = Some user.
Proof.
  intros Hu.
  destruct c as [request token now | request token | credentials
                | content_type product_name vendor_code credentials disk now
                | request now | request credentials now]; cbn [serve].
  - unfold register.
    destruct (bool_decide _) eqn:E; [exact Hu|].
    destruct (hash_password _); [|exact Hu]. cbn [snd users_db].
    apply bool_decide_eq_false in E.
    rewrite lookup_insert_ne; [exact Hu|].
    intros Heq. apply E. rewrite Heq, Hu. eauto.
  - unfold login.
    destruct (users_db s !! LoginRequest.email request); [|exact Hu].
    destruct (hash_password _); [|exact Hu]. destruct (bool_decide _); exact Hu.
  - unfold logout. destruct credentials; [|exact Hu].
    destruct (bool_decide _); exact Hu.
  - unfold upload_image. destruct (require_vendor credentials s); [|exact Hu].
    destruct content_type as [content_type|]; [|exact Hu].
    destruct (negb _); [exact Hu|]. destruct disk; exact Hu.
  - exact Hu.
  - unfold submit_review_decision.
    destruct (require_official credentials s); [|exact Hu].
    destruct (run_server.submit_review_decision _ _ _ _) as [[] ?]; exact Hu.
Qed.

Lemma users_kept (s : App) (calls : list Call) (email : str) (user : User.t) :
  users_db s !! email = Some user ->
  users_db (fold_left serve calls s) !! email = Some user.
Proof.
  revert s. induction calls as [|c calls IH]; intros s Hu; [exact Hu|].
  cbn [fold_left]. apply IH, serve_users, Hu.
Qed.

(** X25.  No call ever changes or removes an account: the name, the password
    digest and the role stored for an email at registration are there after
    every sequence of calls, a second registration of the email included. *)
Theorem accounts_are_permanent (s : App) (calls : list Call) (email : str)
    (user : User.t) :
  users_db s !! email = Some user ->
  users_db (fold_left serve calls s) !! email = Some user
  /\ forall (request : RegisterRequest.t) (token : str) (now : Z),
       RegisterRequest.email request = email ->
       register request token now (fold_left serve calls s)
       = (Raise (HTTPException 400), fold_left serve calls s).
Proof.
  intros Hu. pose proof (users_kept s calls email user Hu) as Hk.
  split; [exact Hk|]. intros request token now <-.
  unfold register. rewrite Hk.
  rewrite bool_decide_eq_true_2 by eauto. reflexivity.
Qed.

Lemma register_ok (request : RegisterRequest.t) (token : str) (now : Z)
    (s s' : App) (session : Session.t) :
  register request token now s = (Ok session, s') ->
  exists digest,
    hash_password (RegisterRequest.password request) = Returns digest
    /\ users_db s' !! RegisterRequest.email request
       = Some {| User.name := RegisterRequest.name request;
                 User.email := RegisterRequest.email request;
                 User.password := digest;
                 User.role := UserRole_value (RegisterRequest.role request);
                 User.created_at := now |}
    /\ tokens_db s' = <[token := RegisterRequest.email request]> (tokens_db s)
    /\ Session.token session = token.
Proof.
  unfold register. destruct (bool_decide _); [discriminate|].
  destruct (hash_password _) as [digest|]; [|discriminate].
  intros [= <- <-]. exists digest. cbn.
  rewrite lookup_insert_eq. repeat split.
Qed.

(** X26.  After a registration, the same email and password log in at any later
    time, whatever calls were served in between, and the session of that login
    carries the name and the role given at registration; with an email that is
    not empty, the token of the login authenticates as that user. *)
Theorem register_login_round_trip (request : RegisterRequest.t)
    (token token' : str) (now : Z) (s s' : App) (session : Session.t)
    (calls : list Call) :
  register request token now s = (Ok session, s') ->
  let later := fold_left serve calls s' in
  let attempt :=
    login {| LoginRequest.email := RegisterRequest.email request;
             LoginRequest.password := RegisterRequest.password request |}
          token' later in
  exists session',
    fst attempt = Ok session'
    /\ Session.token session' = token'
    /\ Session.name session' = RegisterRequest.name request
    /\ Session.email session' = RegisterRequest.email request
    /\ Session.role session' = UserRole_value (RegisterRequest.role request)
    /\ (RegisterRequest.email request <> [] ->
        exists user,
          require_auth (Some token') (snd attempt) = Ok user
          /\ User.name user = RegisterRequest.name request
          /\ User.role user = UserRole_value (RegisterRequest.role request)).
Proof.
  intros Hreg. cbv zeta.
  destruct (register_ok _ _ _ _ _ _ Hreg) as (digest & Hhash & Huser & _ & _).
  pose proof (users_kept s' calls _ _ Huser) as Hlater.
  unfold login. cbn [LoginRequest.email LoginRequest.password].
  rewrite Hlater, Hhash. cbn [User.password].
  rewrite bool_decide_eq_false_2 by (intros H; apply H; reflexivity).
  eexists. cbn [fst snd Session.token Session.name Session.email Session.role
                User.name User.email User.role].
  split; [reflexivity|]. repeat (split; [reflexivity|]).
  intros Hemail. unfold require_auth, get_current_user. cbn [tokens_db users_db].
  rewrite lookup_insert_eq.
  destruct (RegisterRequest.email request) as [|c email] eqn:E;
    [contradiction|].
  cbn [falsy]. rewrite Hlater. eexists. split; [reflexivity|]. split; reflexivity.
Qed.

(** X27.  An account can be registered with the empty email, but nobody can use
    it: the token of the registration, and the token of every later login with
    that email, are answered with 401. *)
Theorem empty_email_is_locked_out (request : RegisterRequest.t)
    (token : str) (now : Z) (s s' : App) (session : Session.t) :
  RegisterRequest.email request = [] ->
  register request token now s = (Ok session, s') ->
  require_auth (Some token) s' = Raise (HTTPException 401)
  /\ forall token',
       let attempt :=
         login {| LoginRequest.email := [];
                  LoginRequest.password := RegisterRequest.password request |}
               token' s' in
       http_status (fst attempt) = 200
       /\ require_auth (Some token') (snd attempt)
          = Raise (HTTPException 401).
Proof.
  intros Hemail Hreg.
  destruct (register_ok _ _ _ _ _ _ Hreg) as (digest & Hhash & Huser & Htok & _).
  rewrite Hemail in Huser, Htok. split.
  - unfold require_auth, get_current_user. rewrite Htok, lookup_insert_eq.
    reflexivity.
  - intros token'. cbv zeta. unfold login.
    cbn [LoginRequest.email LoginRequest.password].
    rewrite Huser, Hhash. cbn [User.password].
    rewrite bool_decide_eq_false_2 by (intros H; apply H; reflexivity).
    cbn [fst snd http_status]. split; [reflexivity|].
    unfold require_auth, get_current_user. cbn [tokens_db].
    rewrite lookup_insert_eq. reflexivity.
Qed.

(** X28.  A login opens a session and a logout closes it: with an email that is
    not empty the token of the login authenticates as the user; after the
    logout of that token it is answered with 401, while every other token is
    answered as before. *)
Theorem logout_ends_the_session (request : LoginRequest.t) (token : str)
    (s s' : App) (session : Session.t) :
  login request token s = (Ok session, s') ->
  LoginRequest.email request <> [] ->
  (exists user,
     require_auth (Some token) s' = Ok user
     /\ User.name user = Session.name session
     /\ User.role user = Session.role session)
  /\ require_auth (Some token) (logout (Some token) s')
     = Raise (HTTPException 401)
  /\ forall other, other <> token ->
       get_current_user (Some other) (logout (Some token) s')
       = get_current_user (Some other) s'.
Proof.
  unfold login. intros Hlogin Hemail.
  destruct (users_db s !! LoginRequest.email request) as [user|] eqn:Hu;
    [|discriminate].
  destruct (hash_password _) as [digest|]; [|discriminate].
  destruct (bool_decide _); [discriminate|].
  injection Hlogin as <- <-. split; [|split].
  - exists user. unfold require_auth, get_current_user.
    cbn [tokens_db users_db]. rewrite lookup_insert_eq.
    destruct (LoginRequest.email request) as [|c email]; [contradiction|].
    cbn [falsy]. rewrite Hu. repeat split.
  - unfold require_auth, get_current_user, logout. cbn [tokens_db].
    rewrite lookup_insert_eq.
    rewrite bool_decide_eq_true_2 by eauto. cbn [tokens_db].
    rewrite lookup_delete_eq. reflexivity.
  - intros other Hother. unfold get_current_user, logout. cbn [tokens_db].
    rewrite lookup_insert_eq.
    rewrite bool_decide_eq_true_2 by eauto. cbn [tokens_db users_db].
    rewrite lookup_delete_ne by congruence. reflexivity.
Qed.

(** Every account of the server is a vendor or an official. *)
Lemma users_roles (calls : list Call) (email : str) (user : User.t) :
  users_db (run calls) !! email = Some user ->
  User.role user = lit "vendor" \/ User.role user = lit "official".
Proof.
  revert email user.
  induction calls as [|c calls IH] using rev_ind; intros email user.
  - unfold run. cbn. rewrite lookup_empty. discriminate.
  - rewrite run_snoc. set (s := run calls) in *.
    destruct c as [request token now | request token | credentials
                  | content_type product_name vendor_code credentials disk now
                  | request now | request credentials now]; cbn [serve].
    + unfold register. destruct (bool_decide _); [apply IH|].
      destruct (hash_password _); [|apply IH]. cbn [snd users_db].
      destruct (decide (RegisterRequest.email request = email)) as [->|Hne].
      * rewrite lookup_insert_eq. intros [= <-]. cbn [User.role].
        destruct (RegisterRequest.role request); [left | right]; reflexivity.
      * rewrite lookup_insert_ne by exact Hne. apply IH.
    + unfold login.
      destruct (users_db s !! LoginRequest.email request); [|apply IH].
      destruct (hash_password _); [|apply IH].
      destruct (bool_decide _); apply IH.
    + unfold logout. destruct credentials; [|apply IH].
      destruct (bool_decide _); apply IH.
    + unfold upload_image. destruct (require_vendor credentials s); [|apply IH].
      destruct content_type as [content_type|]; [|apply IH].
      destruct (negb _); [apply IH|]. destruct disk; apply IH.
    + apply IH.
    + unfold submit_review_decision.
      destruct (require_official credentials s); [|apply IH].
      destruct (run_server.submit_review_decision _ _ _ _) as [[] ?]; apply IH.
Qed.

(** X29.  On the server every authenticated user passes exactly one of the two
    gates: the one of the vendors (uploads) or the one of the officials
    (reviews); the other gate answers 403. *)
Theorem one_gate_for_each_user (calls : list Call) (credentials : option str)
    (user : User.t) :
  let s := run calls in
  require_auth credentials s = Ok user ->
  (require_vendor credentials s = Ok user
   /\ require_official credentials s = Raise (HTTPException 403))
  \/ (require_official credentials s = Ok user
      /\ require_vendor credentials s = Raise (HTTPException 403)).
Proof.
  cbv zeta. intros Hauth. unfold require_vendor, require_official.
  rewrite Hauth.
  assert (Hrole : User.role user = lit "vendor"
                  \/ User.role user = lit "official").
  { unfold require_auth, get_current_user in Hauth.
    destruct credentials as [token|]; [|discriminate].
    destruct (tokens_db (run calls) !! token) as [email|]; [|discriminate].
    destruct (falsy email); [discriminate|].
    destruct (users_db (run calls) !! email) as [u|] eqn:Hu; [|discriminate].
    injection Hauth as ->. exact (users_roles calls email user Hu). }
  destruct Hrole as [-> | ->]; [left | right]; split;
    try (rewrite bool_decide_eq_false_2 by (intros H; apply H; reflexivity);
         reflexivity);
    rewrite bool_decide_eq_true_2 by discriminate; reflexivity.
Qed.

End server.

(** *** The theorems on the server of the examples *)

Ltac evaluated := vm_compute; reflexivity.

Lemma get_review_task_on_server_witness :
  exists task,
    get_review_task 2 (Some (lit "token-1")) (run example_calls) = Ok task
    /\ task !! "id" = Some (VInt 2).
Proof.
  destruct (get_review_task_on_server example_calls (Some (lit "token-1"))
              example_official_user 2) as [Hin _]; [evaluated|].
  destruct Hin as (task & Hget & _ & Hid).
  - vm_compute. split; discriminate.
  - exists task. split; assumption.
Defined.

Lemma submit_review_decision_on_server_witness :
  fst (submit_review_decision example_decision (Some (lit "token-1")) 5000
         (run example_calls))
  = Ok (Recorded 1 (lit "rejected")).
Proof.
  destruct (submit_review_decision_on_server example_calls example_decision
              (Some (lit "token-1")) 5000 example_official_user) as [Hin _];
    [evaluated|].
  destruct Hin as [Hresponse _]; [|exact Hresponse].
  vm_compute. split; discriminate.
Defined.

Lemma decision_reaches_the_submission_witness :
  exists (i : nat) (sub' : gmap string value),
    submissions_db
      (registry (snd (submit_review_decision example_decision
                        (Some (lit "token-1")) 5000 (run example_calls))))
    !! i = Some sub'
    /\ sub' !! "id" = Some (VInt 1)
    /\ sub' !! "status" = Some (VStr (lit "rejected")).
Proof.
  destruct (decision_reaches_the_submission example_calls example_decision
              (Some (lit "token-1")) 5000 example_official_user
              (nth 0 (review_tasks (registry (run example_calls))) ∅) 1)
    as (i & sub & sub' & _ & _ & Hi & Hid & Hstatus & _).
  - evaluated.
  - apply nth_In. vm_compute. repeat constructor.
  - evaluated.
  - evaluated.
  - exists i, sub'. repeat split; assumption.
Defined.

Lemma pending_listing_witness :
  let tasks := review_tasks (registry (run example_calls)) in
  get_pending_review_tasks 50 None (Some (lit "token-1")) (run example_calls)
  = Ok (2, tasks)
  /\ Forall (fun t => t !! "status" = Some (VStr (lit "pending"))) tasks.
Proof.
  intros tasks.
  assert (E : get_pending_review_tasks 50 None (Some (lit "token-1"))
                (run example_calls) = Ok (2, tasks)) by reflexivity.
  split; [exact E|]. apply (pending_listing _ _ _ _ _ _ E).
Defined.

Lemma pending_listing_on_server_witness :
  get_pending_review_tasks 50 (Some 2) (Some (lit "token-1"))
    (run example_calls)
  = Ok (0, []).
Proof.
  destruct (pending_listing_on_server example_calls 50 (Some 2)
              (Some (lit "token-1")) example_official_user)
    as (tasks & _ & _ & Hnone); [evaluated|].
  apply (Hnone 2); [reflexivity | discriminate | discriminate].
Defined.

Lemma accounts_are_permanent_witness :
  users_db
    (fold_left serve
       [Register {| RegisterRequest.name := lit "Mallory";
                    RegisterRequest.email := lit "olga@example.com";
                    RegisterRequest.password := lit "guess";
                    RegisterRequest.role := VENDOR |}
          (lit "token-3") 5000;
        Logout (Some (lit "token-1"))]
       (run example_calls))
  !! lit "olga@example.com" = Some example_official_user.
Proof.
  apply (accounts_are_permanent (run example_calls)). evaluated.
Defined.

Lemma register_login_round_trip_witness :
  let registered :=
    register example_official (lit "token-1") 1000 startup_state in
  http_status (fst registered) = 200
  /\ exists session',
       fst (login {| LoginRequest.email := lit "olga@example.com";
                     LoginRequest.password := lit "review" |}
                  (lit "token-4")
                  (fold_left serve [Logout (Some (lit "token-1"))]
                             (snd registered)))
       = Ok session'
       /\ Session.name session' = lit "Olga"
       /\ Session.role session' = lit "official".
Proof.
  intros registered. split; [reflexivity|].
  destruct (register_login_round_trip example_official (lit "token-1")
              (lit "token-4") 1000 startup_state (snd registered)
              {| Session.message := lit "Registration successful";
                 Session.token := lit "token-1";
                 Session.name := lit "Olga";
                 Session.email := lit "olga@example.com";
                 Session.role := lit "official" |}
              [Logout (Some (lit "token-1"))])
    as (session' & Hlogin & _ & Hname & _ & Hrole & _); [reflexivity|].
  exists session'. repeat split; assumption.
Defined.

Lemma empty_email_is_locked_out_witness :
  let request :=
    {| RegisterRequest.name := lit "Nobody";
       RegisterRequest.email := [];
       RegisterRequest.password := lit "secret";
       RegisterRequest.role := VENDOR |} in
  let registered := register request (lit "token-1") 1000 startup_state in
  http_status (fst registered) = 200
  /\ require_auth (Some (lit "token-1")) (snd registered)
     = Raise (HTTPException 401).
Proof.
  intros request registered. split; [reflexivity|].
  refine (proj1 (empty_email_is_locked_out request (lit "token-1") 1000
                   startup_state (snd registered)
                   {| Session.message := lit "Registration successful";
                      Session.token := lit "token-1";
                      Session.name := lit "Nobody";
                      Session.email := [];
                      Session.role := lit "vendor" |} eq_refl _)).
  reflexivity.
Defined.

Lemma logout_ends_the_session_witness :
  let request := {| LoginRequest.email := lit "vera@example.com";
                    LoginRequest.password := lit "upload" |} in
  let s := run [Register example_vendor (lit "token-2") 2000] in
  let logged_in := login request (lit "token-5") s in
  http_status (fst logged_in) = 200
  /\ require_auth (Some (lit "token-5"))
       (logout (Some (lit "token-5")) (snd logged_in))
     = Raise (HTTPException 401).
Proof.
  intros request s logged_in. split; [evaluated|].
  destruct (logout_ends_the_session request (lit "token-5") s (snd logged_in)
              {| Session.message := lit "Login successful";
                 Session.token := lit "token-5";
                 Session.name := lit "Vera";
                 Session.email := lit "vera@example.com";
                 Session.role := lit "vendor" |}) as (_ & Hout & _).
  - evaluated.
  - discriminate.
  - exact Hout.
Defined.

Lemma one_gate_for_each_user_witness :
  let s := run example_calls in
  (require_vendor (Some (lit "token-2")) s = Ok example_vendor_user
   /\ require_official (Some (lit "token-2")) s = Raise (HTTPException 403))
  \/ (require_official (Some (lit "token-2")) s = Ok example_vendor_user
      /\ require_vendor (Some (lit "token-2")) s = Raise (HTTPException 403)).
Proof.
  apply (one_gate_for_each_user example_calls). evaluated.
Defined.

End run_server_results.

(** ** The SKU endpoint of [backend/main.py] *)

Module main_results.
Import PyStr sku_generator sku_generator_results run_server_app main.

(** X30.  Whatever the store does, the endpoint answers 200 or 500, never the
    503 of its own code.  In an answer 200 the status is one of ["inserted"],
    ["conflict_resolved"] and ["error"], and it is ["error"] exactly when the
    identifier is empty: an unresolved conflict is reported as ["error"], and
    an identifier is never returned with it. *)
Theorem generate_sku_endpoint_statuses {unicode : CaseMapping} {store : Store}
    (service : option SKUGenerator) (raw_code : str) (vendor_id : Z)
    (vendor_short : str) (db : DB) :
  match fst (generate_sku service raw_code vendor_id vendor_short db) with
  | Ok response =>
      (status response = lit "inserted"
       \/ status response = lit "conflict_resolved"
       \/ status response = lit "error")
      /\ (status response = lit "error" <-> canonical_sku response = [])
  | Raise raised => raised = HTTPException 500
  end.
Proof.
  unfold generate_sku, generate_sku_body.
  destruct service as [self|]; [|reflexivity].
  destruct (sku_generator.generate_sku self raw_code vendor_id vendor_short
              None 5 db) as [[[sku st]|e] db'] eqn:Hgen; [|reflexivity].
  pose proof (generate_sku_outcome _ _ _ _ _ _ _ _ _ _ Hgen) as Hout.
  cbv zeta in Hout.
  destruct sku as [|c sku]; cbn [falsy fst except_Exception status
                                 canonical_sku].
  - split; [right; right; reflexivity | split; reflexivity].
  - destruct Hout as [(_ & H & _)|[(-> & _)|[(_ & H)|(-> & _)]]];
      try discriminate; cbn [SKUStatus_value];
      (split; [tauto | split; discriminate]).
Qed.

End main_results.
